(** * DockerSwarmOperator: a shallow embedding of
      providers/docker/src/airflow/providers/docker/operators/docker_swarm.py

    The operator drives one ephemeral swarm service through creation, log
    streaming, completion polling, result retrieval and removal.  The file
    embeds the Python methods as functions of a small state-and-exception
    monad whose state carries the operator's mutable fields, the number of
    answers already consumed from the docker client, and the trace of client
    calls and log records produced so far.

    Python strings are [string]s whose characters are read as code points
    below 256; on those, the regular-expression class [\d] is exactly [0-9].
    Raw log lines are taken after [line.decode("utf-8")]. *)

From Stdlib Require Import Bool Arith Lia List Ascii String ZArith.
Import ListNotations.
Open Scope string_scope.
Open Scope list_scope.

(* ===================================================================== *)
(** * Python built-ins used by the operator                               *)
(* ===================================================================== *)

Module Py.

(** [x in xs] for a list of strings: equality test against each element,
    left to right. *)
Fixpoint contains (x : string) (xs : list string) : bool :=
  match xs with
  | [] => false
  | y :: ys => if String.eqb y x then true else contains x ys
  end.

(** [xs.index(x)]: position of the first element equal to [x]; Python
    raises ValueError when there is none, here [None]. *)
Fixpoint index (x : string) (xs : list string) : option nat :=
  match xs with
  | [] => None
  | y :: ys =>
      if String.eqb y x then Some 0
      else match index x ys with
           | Some i => Some (S i)
           | None => None
           end
  end.

(** [xs[i:]]. *)
Definition slice_from {A : Type} (i : nat) (xs : list A) : list A := skipn i xs.

(** [sep.join(xs)]. *)
Fixpoint join (sep : string) (xs : list string) : string :=
  match xs with
  | [] => ""
  | [x] => x
  | x :: rest => x ++ sep ++ join sep rest
  end.

(** Truthiness of a [str]: the empty string is falsy. *)
Definition truthy_str (s : string) : bool :=
  match s with
  | EmptyString => false
  | String _ _ => true
  end.

Definition is_digit (c : ascii) : bool :=
  let n := N_of_ascii c in (48 <=? n)%N && (n <=? 57)%N.

Definition char_in (lo hi : ascii) (c : ascii) : bool :=
  let n := N_of_ascii c in (N_of_ascii lo <=? n)%N && (n <=? N_of_ascii hi)%N.

Definition newline : ascii := ascii_of_N 10.

(** The class [.] without DOTALL: anything but a line feed. *)
Definition not_newline (c : ascii) : bool := negb (Ascii.eqb c newline).

(** [int(s)] on a string of decimal digits. *)
Definition digit_value (c : ascii) : Z := Z.of_N (N_of_ascii c) - 48.

Fixpoint int_acc (acc : Z) (s : string) : Z :=
  match s with
  | EmptyString => acc
  | String c s' => int_acc (10 * acc + digit_value c) s'
  end.

Definition int (s : string) : Z := int_acc 0 s.

(** [s * n] for a one-character string. *)
Fixpoint repeat_char (c : ascii) (n : nat) : string :=
  match n with
  | O => ""
  | S n' => String c (repeat_char c n')
  end.

End Py.

(* ===================================================================== *)
(** * Backtracking regular expressions (the fragment of [re] in use)      *)
(* ===================================================================== *)

(** Python's [re] is a backtracking matcher: alternatives are tried left to
    right, quantifiers are greedy and give characters back one at a time.
    The matcher below is written in continuation-passing style so that this
    order is the order of evaluation.  Quantifiers range over character
    classes, which is all the operator's patterns need. *)
Module Re.

Inductive regex : Type :=
| Lit (c : ascii)                                    (* a literal character *)
| Cls (p : ascii -> bool)                            (* a character class   *)
| Rep (p : ascii -> bool) (lo : nat) (hi : option nat) (* class{lo,hi}, greedy *)
| Seq (r1 r2 : regex)
| Alt (r1 r2 : regex)
| Grp (r : regex).                                   (* a capturing group   *)

(** The text consumed between two positions of the same subject. *)
Definition consumed (s s' : string) : string :=
  substring 0 (String.length s - String.length s') s.

Section Match.
Variable R : Type.

Definition dec_hi (hi : option nat) : option nat :=
  match hi with
  | Some h => Some (pred h)
  | None => None
  end.

Fixpoint rep_greedy (p : ascii -> bool) (lo : nat) (hi : option nat)
         (s : string) (k : string -> option R) {struct s} : option R :=
  let stop := match lo with O => k s | S _ => None end in
  match hi with
  | Some O => stop
  | _ =>
      match s with
      | EmptyString => stop
      | String c s' =>
          if p c then
            match rep_greedy p (pred lo) (dec_hi hi) s' k with
            | Some r => Some r
            | None => stop
            end
          else stop
      end
  end.

Fixpoint mtch (r : regex) (s : string) (caps : list string)
         (k : string -> list string -> option R) {struct r} : option R :=
  match r with
  | Lit c =>
      match s with
      | String c' s' => if Ascii.eqb c c' then k s' caps else None
      | EmptyString => None
      end
  | Cls p =>
      match s with
      | String c' s' => if p c' then k s' caps else None
      | EmptyString => None
      end
  | Rep p lo hi => rep_greedy p lo hi s (fun s' => k s' caps)
  | Seq r1 r2 => mtch r1 s caps (fun s' caps' => mtch r2 s' caps' k)
  | Alt r1 r2 =>
      match mtch r1 s caps k with
      | Some x => Some x
      | None => mtch r2 s caps k
      end
  | Grp r1 => mtch r1 s caps (fun s' caps' => k s' (caps' ++ [consumed s s']))
  end.
End Match.

Arguments rep_greedy {R} p lo hi s k.
Arguments mtch {R} r s caps k.

(** [re.match(r, s)]: a match anchored at the start of [s]; the result is
    [match.groups()] together with the unmatched remainder. *)
Definition re_match (r : regex) (s : string) : option (list string * string) :=
  mtch r s [] (fun s' caps => Some (caps, s')).

(** [re.sub(r, repl, s)]: every non-overlapping match, scanning left to
    right, is replaced by the expansion of the template on its groups.
    [skip] counts the characters of the current match still to be dropped. *)
Fixpoint sub_from (r : regex) (repl : list string -> string) (skip : nat)
         (s : string) {struct s} : string :=
  match skip with
  | S n =>
      match s with
      | String _ s' => sub_from r repl n s'
      | EmptyString => ""
      end
  | O =>
      match re_match r s with
      | Some (gs, rest) =>
          repl gs ++
          match String.length s - String.length rest, s with
          | O, String c s' => String c (sub_from r repl 0 s')
          | S m, String _ s' => sub_from r repl m s'
          | _, EmptyString => ""
          end
      | None =>
          match s with
          | String c s' => String c (sub_from r repl 0 s')
          | EmptyString => ""
          end
      end
  end.

Definition re_sub (r : regex) (repl : list string -> string) (s : string) : string :=
  sub_from r repl 0 s.

(** Pattern-building shorthands. *)
Definition digits (n : nat) : regex := Rep Py.is_digit n (Some n).
Definition digits_from (n : nat) : regex := Rep Py.is_digit n None.
Definition range (lo hi : ascii) : regex := Cls (Py.char_in lo hi).
Definition digit : regex := Cls Py.is_digit.

Fixpoint seq (rs : list regex) : regex :=
  match rs with
  | [] => Rep (fun _ => false) 0 (Some 0)
  | [r] => r
  | r :: rest => Seq r (seq rest)
  end.

Fixpoint alt (rs : list regex) : regex :=
  match rs with
  | [] => Cls (fun _ => false)
  | [r] => r
  | r :: rest => Alt r (alt rest)
  end.

(** A literal under [re.IGNORECASE]. *)
Definition lit_nocase (upper lower : ascii) : regex :=
  Cls (fun c => Ascii.eqb c upper || Ascii.eqb c lower).

End Re.

(* ===================================================================== *)
(** * Exceptions and values                                               *)
(* ===================================================================== *)

(** The exception classes that can leave the operator's methods. *)
Inductive exn : Type :=
| AirflowException (msg : string)
| RuntimeError (msg : string)
| APIError                      (* docker.errors.APIError *)
| ValueError (msg : string)
| AttributeError (msg : string)
| IndexError
| KeyError (key : string)
| TypeError
| OtherError (name : string).

(** Python values that the operator returns or forwards. *)
#[warnings="-register-all"]
Inductive pyobj : Type :=
| PyNone
| PyInt (z : Z)
| PyStr (s : string)
| PyBytes (b : string)
| PyList (xs : list pyobj).

(* ===================================================================== *)
(** * [datetime.strptime] at the format the operator uses                 *)
(* ===================================================================== *)

Module Datetime.
Import Re.

Record datetime : Type := mk_datetime {
  year : Z; month : Z; day : Z;
  hour : Z; minute : Z; second : Z; microsecond : Z }.

Definition is_leap (y : Z) : bool :=
  ((y mod 4 =? 0) && (negb (y mod 100 =? 0) || (y mod 400 =? 0)))%Z.

Definition days_in_month (y m : Z) : Z :=
  (if m =? 2 then (if is_leap y then 29 else 28)
   else if (m =? 4) || (m =? 6) || (m =? 9) || (m =? 11) then 30
   else 31)%Z.

(** The directive patterns of CPython's [_strptime.TimeRE]. *)
Definition re_Y : regex := Grp (seq [digit; digit; digit; digit]).
Definition re_m : regex :=
  Grp (alt [seq [Lit "1"; range "0" "2"]; seq [Lit "0"; range "1" "9"]; range "1" "9"]).
Definition re_d : regex :=
  Grp (alt [seq [Lit "3"; range "0" "1"]; seq [range "1" "2"; digit];
            seq [Lit "0"; range "1" "9"]; range "1" "9";
            seq [Lit " "; range "1" "9"]]).
Definition re_H : regex :=
  Grp (alt [seq [Lit "2"; range "0" "3"]; seq [range "0" "1"; digit]; digit]).
Definition re_M : regex := Grp (alt [seq [range "0" "5"; digit]; digit]).
Definition re_S : regex :=
  Grp (alt [seq [Lit "6"; range "0" "1"]; seq [range "0" "5"; digit]; digit]).
Definition re_f : regex := Grp (Rep (Py.char_in "0" "9") 1 (Some 6)).

(** The compiled form of ["%Y-%m-%dT%H:%M:%S.%fZ"]; the format's letters
    match case-insensitively. *)
Definition format_regex : regex :=
  seq [re_Y; Lit "-"; re_m; Lit "-"; re_d; lit_nocase "T" "t";
       re_H; Lit ":"; re_M; Lit ":"; re_S; Lit "."; re_f; lit_nocase "Z" "z"].

(** [int] skips surrounding blanks; only the day directive can capture one. *)
Definition int_field (s : string) : Z :=
  match s with
  | String " " s' => Py.int s'
  | _ => Py.int s
  end.

(** [datetime.strptime(s, "%Y-%m-%dT%H:%M:%S.%fZ")]: the subject must match
    the pattern up to its end, the fraction is padded on the right to six
    digits, and the fields must form a date that [datetime] accepts
    (year 1 or later, a day the month has, no leap second). *)
Definition strptime (s : string) : exn + datetime :=
  match re_match format_regex s with
  | None => inl (ValueError "time data does not match format")
  | Some (groups, rest) =>
      match rest with
      | String _ _ => inl (ValueError "unconverted data remains")
      | EmptyString =>
          match groups with
          | [gY; gm; gd; gH; gM; gS; gf] =>
              let y := Py.int gY in
              let m := int_field gm in
              let d := int_field gd in
              let f := Py.int (gf ++ Py.repeat_char "0" (6 - String.length gf)) in
              if ((1 <=? y) && (d <=? days_in_month y m) && (Py.int gS <=? 59))%Z
              then inr (mk_datetime y m d (Py.int gH) (Py.int gM) (Py.int gS) f)
              else inl (ValueError "value out of range")
          | _ => inl (ValueError "time data does not match format")
          end
      end
  end.

End Datetime.

(* ===================================================================== *)
(** * [shlex.split] in POSIX mode                                         *)
(* ===================================================================== *)

(** [shlex.split(s)] builds [shlex(s, posix=True)] with
    [whitespace_split = True] and no comment characters, and lists its
    tokens.  The lexer is the state machine of [shlex.read_token]: states
    [' '] (between tokens), ['a'] (inside a word), a quote character, and the
    escape character together with the state to return to. *)
Module Shlex.

Inductive lex_state : Type :=
| Blank                          (* state ' ' *)
| Word                           (* state 'a' *)
| Quote (q : ascii)              (* state in self.quotes *)
| Escape (escapedstate : option ascii). (* 'a' is None, a quote is Some q *)

Definition backslash : ascii := ascii_of_N 92.
Definition single_quote : ascii := ascii_of_N 39.
Definition double_quote : ascii := ascii_of_N 34.

(** [self.whitespace = ' \t\r\n']. *)
Definition is_whitespace (c : ascii) : bool :=
  Ascii.eqb c " " || Ascii.eqb c (ascii_of_N 9)
  || Ascii.eqb c (ascii_of_N 13) || Ascii.eqb c (ascii_of_N 10).

(** [self.quotes = '\'"'], [self.escape = '\\'], [self.escapedquotes = '"']. *)
Definition is_quote (c : ascii) : bool :=
  Ascii.eqb c single_quote || Ascii.eqb c double_quote.
Definition is_escape (c : ascii) : bool := Ascii.eqb c backslash.
Definition is_escapedquote (c : ascii) : bool := Ascii.eqb c double_quote.

Definition add (token : string) (c : ascii) : string := token ++ String c "".

(** One pass over the input; [quoted] and [token] are the lexer's
    variables of the same names, reset whenever a token is emitted. *)
Fixpoint read_tokens (st : lex_state) (quoted : bool) (token : string)
         (s : string) {struct s} : exn + list string :=
  match s with
  | EmptyString =>
      match st with
      | Blank => inr []
      | Word => inr (if Py.truthy_str token || quoted then [token] else [])
      | Quote _ => inl (ValueError "No closing quotation")
      | Escape _ => inl (ValueError "No escaped character")
      end
  | String c s' =>
      match st with
      | Blank =>
          if is_whitespace c then
            if Py.truthy_str token || quoted then
              match read_tokens Blank false "" s' with
              | inr ts => inr (token :: ts)
              | inl e => inl e
              end
            else read_tokens Blank quoted token s'
          else if is_escape c then read_tokens (Escape None) quoted token s'
          else if is_quote c then read_tokens (Quote c) quoted token s'
          else read_tokens Word quoted (String c "") s'
      | Quote q =>
          if Ascii.eqb c q then read_tokens Word true token s'
          else if is_escape c && is_escapedquote q
               then read_tokens (Escape (Some q)) true token s'
          else read_tokens (Quote q) true (add token c) s'
      | Escape None => read_tokens Word quoted (add token c) s'
      | Escape (Some q) =>
          let token' :=
            if negb (Ascii.eqb c backslash) && negb (Ascii.eqb c q)
            then add token backslash else token in
          read_tokens (Quote q) quoted (add token' c) s'
      | Word =>
          if is_whitespace c then
            if Py.truthy_str token || quoted then
              match read_tokens Blank false "" s' with
              | inr ts => inr (token :: ts)
              | inl e => inl e
              end
            else read_tokens Blank quoted token s'
          else if is_quote c then read_tokens (Quote c) quoted token s'
          else if is_escape c then read_tokens (Escape None) quoted token s'
          else read_tokens Word quoted (add token c) s'
      end
  end.

Definition split (s : string) : exn + list string := read_tokens Blank false "" s.

(** Characters that mean nothing to the lexer, and strings made of them. *)
Definition plain_char (c : ascii) : bool :=
  negb (is_whitespace c || is_quote c || is_escape c).

Fixpoint plain (s : string) : bool :=
  match s with
  | EmptyString => true
  | String c s' => plain_char c && plain s'
  end.

End Shlex.

(* ===================================================================== *)
(** * Data model                                                          *)
(* ===================================================================== *)

(** [args]: a single string, a pre-split list, or None. *)
Inductive args_t : Type :=
| ArgsNone
| ArgsStr (s : string)
| ArgsList (xs : list string).

(** The dict returned by [cli.create_service]; it always carries ["ID"],
    hence is never empty and is truthy. *)
Record ServiceHandle : Type := { ID : string }.

(** [repr] of the handle, for an identifier free of quotes and escapes. *)
Definition repr_service (svc : ServiceHandle) : string :=
  "{'ID': '" ++ ID svc ++ "'}".

(** One element of [cli.tasks(...)]: [task["Status"]["State"]] and, once a
    container exists, [task["Status"]["ContainerStatus"]["ContainerID"]]. *)
Record TaskRecord : Type := {
  State : string;
  ContainerID : option string }.

(** The dict returned by [cli.inspect_container]. *)
Record ContainerRecord : Type := { Id : string }.

(** [types.DriverConfig(name, options)]. *)
Record DriverConfig : Type := {
  driver_name : string;
  driver_options : list (string * string) }.

(** The moving [since] argument of [cli.service_logs]: the integer 0 at
    first, later [datetime.timestamp()] of a parsed line time.  That call
    is float arithmetic in the local time zone; the cursor keeps the
    datetime it is computed from. *)
Inductive cursor : Type :=
| CursorZero
| CursorAt (dt : Datetime.datetime).

(** What is handed to [cli.create_service].  Values of [docker.types] that
    the operator only forwards are denoted by their labels. *)
Record ServiceSpec : Type := {
  spec_image : string;
  spec_command : args_t;
  spec_args : args_t;
  spec_mounts : list string;
  spec_env : list (string * string);
  spec_user : option string;
  spec_tty : bool;
  spec_configs : list string;
  spec_secrets : list string;
  spec_restart_condition : string;
  spec_resources : string;
  spec_networks : list string;
  spec_placement : list string;
  spec_log_driver : option DriverConfig;
  spec_name : string;
  spec_labels : list (string * string);
  spec_mode : option string }.

(** Everything observable that an execution does, in order. *)
Inductive event : Type :=
| CreateService (spec : ServiceSpec)
| ListTasks (service_id : string)
| InspectContainer (container_id : string)
| ServiceLogs (service_id : string) (is_tty : bool) (since : cursor)
| CopyFromDocker (container_id : string) (path : string)
| RemoveService (service_id : string)
| LogInfo (msg : string)
| Sleep (seconds : Z).

Definition is_remove (e : event) : bool :=
  match e with
  | RemoveService _ => true
  | _ => false
  end.

Definition is_inspect (e : event) : bool :=
  match e with
  | InspectContainer _ => true
  | _ => false
  end.

(** The attributes set by [DockerOperator.__init__] that this class reads. *)
Record DockerOperator : Type := {
  image : string;
  command : args_t;
  environment : list (string * string);
  tmp_dir : string;
  user : option string;
  tty : bool;
  mounts : list string;
  mem_limit : string;
  auto_remove : string;
  retrieve_output : bool;
  retrieve_output_path : string;
  dag_id : string;
  task_id : string;
  client_created : bool }.      (* self.hook.client_created *)

(** The attributes added by [DockerSwarmOperator.__init__]. *)
Record DockerSwarmOperator : Type := {
  base : DockerOperator;
  args : args_t;
  enable_logging : bool;
  service : option ServiceHandle;
  tasks : list TaskRecord;
  containers : list ContainerRecord;
  configs : list string;
  secrets : list string;
  mode : option string;
  networks : list string;
  placement : list string;
  container_resources : string;
  service_prefix : string;
  logging_driver : option string;
  logging_driver_opts : list (string * string);
  log_driver_config : option DriverConfig }.

(** What lies outside the file: the answers of the docker client, in the
    order the calls are made, and the helpers inherited from the base
    class.  [tasks_resp n] answers the [n]-th call of [cli.tasks],
    [logs_resp n] the [n]-th call of [cli.service_logs]. *)
Record World : Type := {
  create_service_resp : ServiceSpec -> option ServiceHandle;
  tasks_resp : nat -> list TaskRecord;
  inspect_resp : string -> ContainerRecord;
  logs_resp : nat -> list string;
  copy_resp : string -> string -> exn + pyobj;     (* self._copy_from_docker *)
  format_command : args_t -> exn + args_t;         (* DockerOperator.format_command *)
  get_random_string : string }.

(** The state threaded through an execution. *)
Record state : Type := {
  self : DockerSwarmOperator;
  trace : list event;
  polls : nat;          (* calls of cli.tasks so far *)
  fetches : nat }.      (* calls of cli.service_logs so far *)

(* ===================================================================== *)
(** * The execution monad                                                 *)
(* ===================================================================== *)

(** [Spin] stands for a polling loop that used up its fuel. *)
Inductive outcome (A : Type) : Type :=
| Ret (a : A)
| Raise (e : exn)
| Spin.

Arguments Ret {A} a.
Arguments Raise {A} e.
Arguments Spin {A}.

Definition M (A : Type) : Type := state -> outcome A * state.

Definition ret {A : Type} (a : A) : M A := fun st => (Ret a, st).

Definition bind {A B : Type} (m : M A) (f : A -> M B) : M B :=
  fun st =>
    match m st with
    | (Ret a, st') => f a st'
    | (Raise e, st') => (Raise e, st')
    | (Spin, st') => (Spin, st')
    end.

Definition raise {A : Type} (e : exn) : M A := fun st => (Raise e, st).
Definition spin {A : Type} : M A := fun st => (Spin, st).

(** [try: m except APIError: h]. *)
Definition except_APIError {A : Type} (m : M A) (h : M A) : M A :=
  fun st =>
    match m st with
    | (Raise APIError, st') => h st'
    | r => r
    end.

Definition lift {A : Type} (r : exn + A) : M A :=
  match r with
  | inr a => ret a
  | inl e => raise e
  end.

Declare Scope monad_scope.
Delimit Scope monad_scope with monad.
Notation "x <- m ;; k" := (bind m (fun x => k))
  (at level 61, m at next level, right associativity) : monad_scope.
Notation "m ;; k" := (bind m (fun _ => k))
  (at level 61, right associativity) : monad_scope.
Notation "' pat <- m ;; k" := (bind m (fun x => match x with pat => k end))
  (at level 61, pat pattern, m at next level, right associativity) : monad_scope.
Open Scope monad_scope.

Definition get_self : M DockerSwarmOperator := fun st => (Ret (self st), st).


(** The state after one more event, one more answer of [cli.tasks], one
    more answer of [cli.service_logs]. *)
Definition add_event (e : event) (st : state) : state :=
  {| self := self st; trace := trace st ++ [e];
     polls := polls st; fetches := fetches st |}.

Definition add_events (es : list event) (st : state) : state :=
  {| self := self st; trace := trace st ++ es;
     polls := polls st; fetches := fetches st |}.

(** The event of copying the output path out of a container. *)
Definition copy_event (path : string) (c : ContainerRecord) : event :=
  CopyFromDocker (Id c) path.

Definition next_poll (st : state) : state :=
  {| self := self st; trace := trace st;
     polls := S (polls st); fetches := fetches st |}.

Definition next_fetch (st : state) : state :=
  {| self := self st; trace := trace st;
     polls := polls st; fetches := S (fetches st) |}.

Definition update_self (f : DockerSwarmOperator -> DockerSwarmOperator)
           (st : state) : state :=
  {| self := f (self st); trace := trace st;
     polls := polls st; fetches := fetches st |}.

Definition emit (e : event) : M unit := fun st => (Ret tt, add_event e st).

Definition modify_self (f : DockerSwarmOperator -> DockerSwarmOperator) : M unit :=
  fun st => (Ret tt, update_self f st).

(** [self.log.info(...)] and [time.sleep(...)]. *)
Definition log_info (msg : string) : M unit := emit (LogInfo msg).
Definition sleep (seconds : Z) : M unit := emit (Sleep seconds).

(** Field updates of [self]. *)
Definition set_service (o : DockerSwarmOperator) (s : option ServiceHandle) :=
  {| base := base o; args := args o; enable_logging := enable_logging o;
     service := s; tasks := tasks o; containers := containers o;
     configs := configs o; secrets := secrets o; mode := mode o;
     networks := networks o; placement := placement o;
     container_resources := container_resources o;
     service_prefix := service_prefix o; logging_driver := logging_driver o;
     logging_driver_opts := logging_driver_opts o;
     log_driver_config := log_driver_config o |}.

Definition set_tasks (o : DockerSwarmOperator) (ts : list TaskRecord) :=
  {| base := base o; args := args o; enable_logging := enable_logging o;
     service := service o; tasks := ts; containers := containers o;
     configs := configs o; secrets := secrets o; mode := mode o;
     networks := networks o; placement := placement o;
     container_resources := container_resources o;
     service_prefix := service_prefix o; logging_driver := logging_driver o;
     logging_driver_opts := logging_driver_opts o;
     log_driver_config := log_driver_config o |}.

Definition set_containers (o : DockerSwarmOperator) (cs : list ContainerRecord) :=
  {| base := base o; args := args o; enable_logging := enable_logging o;
     service := service o; tasks := tasks o; containers := cs;
     configs := configs o; secrets := secrets o; mode := mode o;
     networks := networks o; placement := placement o;
     container_resources := container_resources o;
     service_prefix := service_prefix o; logging_driver := logging_driver o;
     logging_driver_opts := logging_driver_opts o;
     log_driver_config := log_driver_config o |}.

Definition set_environment (b : DockerOperator) (env : list (string * string)) :=
  {| image := image b; command := command b; environment := env;
     tmp_dir := tmp_dir b; user := user b; tty := tty b; mounts := mounts b;
     mem_limit := mem_limit b; auto_remove := auto_remove b;
     retrieve_output := retrieve_output b;
     retrieve_output_path := retrieve_output_path b;
     dag_id := dag_id b; task_id := task_id b;
     client_created := client_created b |}.

Definition set_base (o : DockerSwarmOperator) (b : DockerOperator) :=
  {| base := b; args := args o; enable_logging := enable_logging o;
     service := service o; tasks := tasks o; containers := containers o;
     configs := configs o; secrets := secrets o; mode := mode o;
     networks := networks o; placement := placement o;
     container_resources := container_resources o;
     service_prefix := service_prefix o; logging_driver := logging_driver o;
     logging_driver_opts := logging_driver_opts o;
     log_driver_config := log_driver_config o |}.

(** [d[key] = value] on a dict kept as an association list. *)
Fixpoint dict_set (key value : string) (d : list (string * string))
  : list (string * string) :=
  match d with
  | [] => [(key, value)]
  | (k, v) :: rest =>
      if String.eqb k key then (k, value) :: rest
      else (k, v) :: dict_set key value rest
  end.

(* ===================================================================== *)
(** * The operator                                                        *)
(* ===================================================================== *)

(** Keyword arguments of the constructor.  [kw_base] holds the attributes as
    [super().__init__(image=image, **kwargs)] leaves them. *)
Record Kwargs : Type := {
  kw_base : DockerOperator;
  kw_args : args_t;
  kw_enable_logging : bool;
  kw_configs : list string;
  kw_secrets : list string;
  kw_mode : option string;
  kw_networks : list string;
  kw_placement : list string;
  kw_container_resources : option string;
  kw_service_prefix : string;
  kw_logging_driver : option string;
  kw_logging_driver_opts : list (string * string) }.

Definition supported_logging_drivers : list string := ["json-file"; "gelf"].

(** The states listed in [_has_service_terminated]. *)
Definition terminal_states : list string :=
  ["complete"; "failed"; "shutdown"; "rejected"; "orphaned"; "remove"].

(** The line pattern: the group [(\d{4}-\d{2}-\d{2}T\d{2}:\d{2}:\d{2}.\d{6,}Z)],
    a space, and a second group capturing [.*]; the separator before the
    fraction is an unescaped dot, hence any character but a line feed. *)
Definition LOG_LINE : Re.regex :=
  Re.seq [Re.Grp (Re.seq [Re.digits 4; Re.Lit "-"; Re.digits 2; Re.Lit "-"; Re.digits 2;
                          Re.Lit "T"; Re.digits 2; Re.Lit ":"; Re.digits 2; Re.Lit ":";
                          Re.digits 2; Re.Cls Py.not_newline; Re.digits_from 6; Re.Lit "Z"]);
          Re.Lit " ";
          Re.Grp (Re.Rep Py.not_newline 0 None)].

(** [(\.\d{6})\d+Z] and its replacement template [\1Z]. *)
Definition SUBMICROSECOND : Re.regex :=
  Re.seq [Re.Grp (Re.seq [Re.Lit "."; Re.digits 6]); Re.digits_from 1; Re.Lit "Z"].

Definition keep_microseconds (groups : list string) : string :=
  nth 0 groups "" ++ "Z".

(** [format_args]: a string is split with [shlex.split], anything else is
    returned as it is. *)
Definition format_args (a : args_t) : exn + args_t :=
  match a with
  | ArgsStr s =>
      match Shlex.split s with
      | inr xs => inr (ArgsList xs)
      | inl e => inl e
      end
  | _ => inr a
  end.

Definition truthy_service (s : option ServiceHandle) : bool :=
  match s with
  | Some _ => true
  | None => false
  end.

Definition not_initialized : exn :=
  RuntimeError "The 'service' should be initialized before!".

(** What the loop over a batch logs for a line, and the time it reads off
    it: the second and the first group of the line pattern. *)
Definition message_of (line : string) : string :=
  match Re.re_match LOG_LINE line with
  | Some (groups, _) => nth 1 groups ""
  | None => ""
  end.

Definition timestamp_of (line : string) : string :=
  match Re.re_match LOG_LINE line with
  | Some (groups, _) => nth 0 groups ""
  | None => ""
  end.

Definition well_formed (line : string) : Prop := Re.re_match LOG_LINE line <> None.

Section Operator.

Variable w : World.

(** ** The docker client *)

Definition cli_create_service (spec : ServiceSpec) : M (option ServiceHandle) :=
  emit (CreateService spec);;
  ret (create_service_resp w spec).

Definition cli_tasks (service_id : string) : M (list TaskRecord) :=
  fun st =>
    (Ret (tasks_resp w (polls st)),
     next_poll (add_event (ListTasks service_id) st)).

Definition cli_inspect_container (container_id : string) : M ContainerRecord :=
  emit (InspectContainer container_id);;
  ret (inspect_resp w container_id).

Definition cli_service_logs (service_id : string) (is_tty : bool) (since : cursor)
  : M (list string) :=
  fun st =>
    (Ret (logs_resp w (fetches st)),
     next_fetch (add_event (ServiceLogs service_id is_tty since) st)).

Definition cli_remove_service (service_id : string) : M unit :=
  emit (RemoveService service_id).

Definition _copy_from_docker (container_id path : string) : M pyobj :=
  emit (CopyFromDocker container_id path);;
  lift (copy_resp w container_id path).

(** [self.service["ID"]]. *)
Definition service_id : M string :=
  o <- get_self;;
  match service o with
  | Some svc => ret (ID svc)
  | None => raise TypeError
  end.

(** ** [__init__] *)

Definition __init__ (kw : Kwargs) : M unit :=
  modify_self (fun _ =>
    {| base := kw_base kw;
       args := kw_args kw;
       enable_logging := kw_enable_logging kw;
       service := None;
       tasks := [];
       containers := [];
       configs := kw_configs kw;
       secrets := kw_secrets kw;
       mode := kw_mode kw;
       networks := kw_networks kw;
       placement := kw_placement kw;
       container_resources :=
         match kw_container_resources kw with
         | Some r => r
         | None => "Resources(mem_limit=" ++ mem_limit (kw_base kw) ++ ")"
         end;
       service_prefix := kw_service_prefix kw;
       logging_driver := kw_logging_driver kw;
       logging_driver_opts := kw_logging_driver_opts kw;
       log_driver_config := None |});;
  o <- get_self;;
  let set_config (c : option DriverConfig) (o' : DockerSwarmOperator) :=
    {| base := base o'; args := args o'; enable_logging := enable_logging o';
       service := service o'; tasks := tasks o'; containers := containers o';
       configs := configs o'; secrets := secrets o'; mode := mode o';
       networks := networks o'; placement := placement o';
       container_resources := container_resources o';
       service_prefix := service_prefix o'; logging_driver := logging_driver o';
       logging_driver_opts := logging_driver_opts o';
       log_driver_config := c |} in
  match logging_driver o with
  | Some d =>
      if Py.truthy_str d then
        if negb (Py.contains d supported_logging_drivers) then
          raise (AirflowException
                   ("Invalid logging driver provided: " ++ d ++ ". Must be one of: ["
                    ++ Py.join ", " supported_logging_drivers ++ "]"))
        else
          modify_self (set_config
            (Some {| driver_name := d; driver_options := logging_driver_opts o |}))
      else modify_self (set_config None)
  | None => modify_self (set_config None)
  end.

(** ** [_service_status] and [_has_service_terminated] *)

Definition _service_status : M string :=
  o <- get_self;;
  if negb (truthy_service (service o)) then raise not_initialized
  else
    sid <- service_id;;
    ts <- cli_tasks sid;;
    match ts with
    | t :: _ => ret (State t)
    | [] => raise IndexError
    end.

Definition _has_service_terminated : M bool :=
  status <- _service_status;;
  ret (Py.contains status terminal_states).

(** ** [_stream_logs_to_output] *)

(** The [for line in logs] loop; the accumulator is the pair of loop
    variables [line], [timestamp] that stays bound after the loop. *)
Fixpoint log_lines (logs : list string) (bound : option (string * string))
  : M (option (string * string)) :=
  match logs with
  | [] => ret bound
  | line :: rest =>
      match Re.re_match LOG_LINE line with
      | None => raise (AttributeError "'NoneType' object has no attribute 'groups'")
      | Some (groups, _) =>
          let timestamp := nth 0 groups "" in
          let message := nth 1 groups "" in
          log_info message;;
          log_lines rest (Some (line, timestamp))
      end
  end.

(** [logs[logs.index(last) + 1:]] when [last in logs]. *)
Definition drop_seen (last_line_logged : string) (logs : list string)
  : exn + list string :=
  if Py.contains last_line_logged logs then
    match Py.index last_line_logged logs with
    | Some i => inr (Py.slice_from (i + 1) logs)
    | None => inl (ValueError "is not in list")
    end
  else inr logs.

Definition stream_new_logs (last_line_logged : string) (since : cursor)
  : M (string * cursor) :=
  sid <- service_id;;
  o <- get_self;;
  fetched <- cli_service_logs sid (tty (base o)) since;;
  logs <- lift (drop_seen last_line_logged fetched);;
  bound <- log_lines logs None;;
  if Nat.eqb (List.length logs) 0 then ret (last_line_logged, since)
  else
    match bound with
    | None => raise (OtherError "UnboundLocalError")
    | Some (line, timestamp) =>
        (* Floor nanoseconds to microseconds *)
        let last_timestamp := Re.re_sub SUBMICROSECOND keep_microseconds timestamp in
        dt <- lift (Datetime.strptime last_timestamp);;
        ret (line, CursorAt dt)
    end.

Fixpoint stream_loop (fuel : nat) (last_line_logged : string) (last_timestamp : cursor)
  : M unit :=
  match fuel with
  | O => spin
  | S fuel' =>
      finished <- _has_service_terminated;;
      if finished then ret tt
      else
        sleep 2;;
        ' (line, stamp) <- stream_new_logs last_line_logged last_timestamp;;
        stream_loop fuel' line stamp
  end.

Definition _stream_logs_to_output (fuel : nat) : M unit :=
  o <- get_self;;
  if negb (truthy_service (service o)) then raise not_initialized
  else stream_loop fuel "" CursorZero.

(** ** [_attempt_to_retrieve_results] *)

Fixpoint copy_each (cs : list ContainerRecord) (file_contents : list pyobj)
  : M (list pyobj) :=
  match cs with
  | [] => ret file_contents
  | container :: rest =>
      o <- get_self;;
      file_content <- _copy_from_docker (Id container) (retrieve_output_path (base o));;
      copy_each rest (file_contents ++ [file_content])
  end.

Definition _attempt_to_retrieve_results : M pyobj :=
  except_APIError
    (o <- get_self;;
     file_contents <- copy_each (containers o) [];;
     match file_contents with
     | [only] => ret only
     | _ => ret (PyList file_contents)
     end)
    (ret PyNone).

(** ** [_run_service] *)

(** [while not self.cli.tasks(...): continue] *)
Fixpoint wait_for_tasks (fuel : nat) : M unit :=
  match fuel with
  | O => spin
  | S fuel' =>
      sid <- service_id;;
      ts <- cli_tasks sid;;
      match ts with
      | [] => wait_for_tasks fuel'
      | _ :: _ => ret tt
      end
  end.

(** [while True: if self._has_service_terminated(): ...; break] *)
Fixpoint wait_for_termination (fuel : nat) : M unit :=
  match fuel with
  | O => spin
  | S fuel' =>
      finished <- _has_service_terminated;;
      if finished then
        status <- _service_status;;
        log_info ("Service status before exiting: " ++ status)
      else wait_for_termination fuel'
  end.

(** [for task in self.tasks: ... self.containers.append(container)] *)
Fixpoint harvest (ts : list TaskRecord) : M unit :=
  match ts with
  | [] => ret tt
  | task :: rest =>
      match ContainerID task with
      | None => raise (KeyError "ContainerStatus")
      | Some container_id =>
          container <- cli_inspect_container container_id;;
          modify_self (fun o => set_containers o (containers o ++ [container]));;
          harvest rest
      end
  end.

Definition service_spec (o : DockerSwarmOperator) (command' args' : args_t)
  : ServiceSpec :=
  {| spec_image := image (base o);
     spec_command := command';
     spec_args := args';
     spec_mounts := mounts (base o);
     spec_env := environment (base o);
     spec_user := user (base o);
     spec_tty := tty (base o);
     spec_configs := configs o;
     spec_secrets := secrets o;
     spec_restart_condition := "none";
     spec_resources := container_resources o;
     spec_networks := networks o;
     spec_placement := placement o;
     spec_log_driver := log_driver_config o;
     spec_name := service_prefix o ++ "-" ++ get_random_string w;
     spec_labels :=
       [("name", ("airflow__" ++ dag_id (base o) ++ "__" ++ task_id (base o))%string)];
     spec_mode := mode o |}.

Definition _run_service (fuel : nat) : M pyobj :=
  o <- get_self;;
  log_info ("Starting docker service from image " ++ image (base o));;
  command' <- lift (format_command w (command (base o)));;
  args' <- lift (format_args (args o));;
  created <- cli_create_service (service_spec o command' args');;
  modify_self (fun o => set_service o created);;
  match created with
  | None => raise (RuntimeError "Service should be set here")
  | Some svc =>
      log_info ("Service started: " ++ repr_service svc);;
      (* wait for the service to start the task *)
      wait_for_tasks fuel;;
      (if enable_logging o then _stream_logs_to_output fuel else ret tt);;
      wait_for_termination fuel;;
      o <- get_self;;
      (if truthy_service (service o) then
         status <- _service_status;;
         if String.eqb status "complete" then
           sid <- service_id;;
           ts <- cli_tasks sid;;
           modify_self (fun o => set_tasks o ts);;
           harvest ts
         else ret tt
       else ret tt);;
      o <- get_self;;
      if retrieve_output (base o) then _attempt_to_retrieve_results
      else
        log_info ("auto_remove: " ++ auto_remove (base o));;
        failed <- (if truthy_service (service o) then
                     status <- _service_status;;
                     ret (negb (String.eqb status "complete"))
                   else ret false);;
        if failed then
          (if String.eqb (auto_remove (base o)) "force" then
             sid <- service_id;;
             cli_remove_service sid
           else ret tt);;
          raise (AirflowException
                   ("Service did not complete: "
                    ++ match service o with
                       | Some svc => repr_service svc
                       | None => "None"
                       end))
        else if Py.contains (auto_remove (base o)) ["success"; "force"] then
          if negb (truthy_service (service o)) then raise not_initialized
          else
            sid <- service_id;;
            cli_remove_service sid;;
            ret PyNone
        else ret PyNone
  end.

(** ** [execute] and [on_kill] *)

Definition execute (fuel : nat) : M pyobj :=
  modify_self (fun o =>
    set_base o (set_environment (base o)
                  (dict_set "AIRFLOW_TMP_DIR" (tmp_dir (base o)) (environment (base o)))));;
  _run_service fuel.

Definition on_kill : M unit :=
  o <- get_self;;
  match client_created (base o), service o with
  | true, Some svc =>
      log_info ("Removing docker service: " ++ ID svc);;
      sid <- service_id;;
      cli_remove_service sid
  | _, _ => ret tt
  end.

End Operator.

(* ===================================================================== *)
(** * Concrete executions                                                 *)
(* ===================================================================== *)

(** A small deployment used to run the operator on concrete answers: the
    service [svc1] shows no task at the first poll, a running task at the
    next two polls, and from the fourth poll on two tasks of which the first
    is in state [final]. *)
Module Example.

Definition line_feed : string := String Py.newline "".

Definition docker_operator (policy : string) (retrieve : bool) : DockerOperator :=
  {| image := "busybox"; command := ArgsNone; environment := [];
     tmp_dir := "/tmp/airflow"; user := None; tty := false; mounts := [];
     mem_limit := "1g"; auto_remove := policy; retrieve_output := retrieve;
     retrieve_output_path := "/out"; dag_id := "dag"; task_id := "task";
     client_created := true |}.

Definition kwargs (policy : string) (retrieve logging : bool)
           (driver : option string) : Kwargs :=
  {| kw_base := docker_operator policy retrieve;
     kw_args := ArgsStr "--flag value";
     kw_enable_logging := logging;
     kw_configs := []; kw_secrets := []; kw_mode := None; kw_networks := [];
     kw_placement := []; kw_container_resources := None;
     kw_service_prefix := "airflow";
     kw_logging_driver := driver;
     kw_logging_driver_opts := [] |}.

(** The object before [__init__] has run. *)
Definition blank : DockerSwarmOperator :=
  {| base := docker_operator "never" false; args := ArgsNone;
     enable_logging := false; service := None; tasks := []; containers := [];
     configs := []; secrets := []; mode := None; networks := [];
     placement := []; container_resources := ""; service_prefix := "";
     logging_driver := None; logging_driver_opts := [];
     log_driver_config := None |}.

Definition start : state :=
  {| self := blank; trace := []; polls := 0; fetches := 0 |}.

Definition hello : string := "2024-01-01T00:00:00.123456789Z hello" ++ line_feed.
Definition world_line : string := "2024-01-01T00:00:01.000000001Z world" ++ line_feed.

Definition running : TaskRecord := {| State := "running"; ContainerID := Some "c1" |}.

Definition deployment (answers : nat -> list TaskRecord)
           (batches : nat -> list string)
           (archive : string -> string -> exn + pyobj) : World :=
  {| create_service_resp := fun _ => Some {| ID := "svc1" |};
     tasks_resp := answers;
     inspect_resp := fun c => {| Id := c |};
     logs_resp := batches;
     copy_resp := archive;
     format_command := fun c => inr c;
     get_random_string := "x1y2z3" |}.

Definition answers (final : string) (n : nat) : list TaskRecord :=
  match n with
  | 0 => []
  | 1 | 2 => [running]
  | _ => [ {| State := final; ContainerID := Some "c1" |};
           {| State := "running"; ContainerID := Some "c2" |} ]
  end.

(** The same answers, except that the second task of the final answer has
    failed instead of still running. *)
Definition answers_later (final : string) (n : nat) : list TaskRecord :=
  match n with
  | 0 => []
  | 1 | 2 => [running]
  | _ => [ {| State := final; ContainerID := Some "c1" |};
           {| State := "failed"; ContainerID := Some "c2" |} ]
  end.

Definition batches (n : nat) : list string :=
  match n with
  | 0 => [hello]
  | _ => [hello; world_line]
  end.

Definition archive (c p : string) : exn + pyobj := inr (PyStr (c ++ ":" ++ p)).

(** An archive that is not there yet for the container [c2]. *)
Definition late_archive (c p : string) : exn + pyobj :=
  if String.eqb c "c2" then inl APIError else archive c p.

Definition world (final : string) : World := deployment (answers final) batches archive.

(** Construct the operator, then [execute]. *)
Definition run (w : World) (kw : Kwargs) (fuel : nat) : outcome pyobj * state :=
  (__init__ kw;; execute w fuel) start.

(** The operator once its service exists. *)
Definition created (policy : string) (retrieve : bool) : state :=
  {| self := set_service
               (self (snd (__init__ (kwargs policy retrieve false None) start)))
               (Some {| ID := "svc1" |});
     trace := []; polls := 3; fetches := 0 |}.

(** A deployment whose log stream repeats the line [hello]. *)
Definition stutter : World :=
  deployment (answers "complete") (fun _ => [hello; hello]) archive.

(** The operator after harvesting the containers [cs]. *)
Definition harvested (cs : list ContainerRecord) : state :=
  update_self (fun o => set_containers o cs) (created "never" true).

End Example.

(* ===================================================================== *)
(** * Vocabulary of the statements                                        *)
(* ===================================================================== *)

(** A computation is [steady] when, started with a service handle, it leaves
    the operator's fields alone and never raises the precondition error. *)
Definition steady {A : Type} (m : M A) : Prop :=
  forall st, service (self st) <> None ->
    self (snd (m st)) = self st /\ fst (m st) <> Raise not_initialized.

(** Task lists that differ at most in the states of the records after the
    first one. *)
Definition same_but_later_states (ts1 ts2 : list TaskRecord) : Prop :=
  match ts1, ts2 with
  | [], [] => True
  | t1 :: rest1, t2 :: rest2 =>
      t1 = t2 /\ Forall2 (fun a b => ContainerID a = ContainerID b) rest1 rest2
  | _, _ => False
  end.

(** The world [w] with other answers to [cli.tasks]. *)
Definition with_tasks (w : World) (answers : nat -> list TaskRecord) : World :=
  {| create_service_resp := create_service_resp w;
     tasks_resp := answers;
     inspect_resp := inspect_resp w;
     logs_resp := logs_resp w;
     copy_resp := copy_resp w;
     format_command := format_command w;
     get_random_string := get_random_string w |}.

(** Operators, states and outcomes that agree up to the stored task list. *)
Definition osim (o1 o2 : DockerSwarmOperator) : Prop :=
  set_tasks o1 [] = set_tasks o2 [].

Definition sim (st1 st2 : state) : Prop :=
  osim (self st1) (self st2) /\ trace st1 = trace st2
  /\ polls st1 = polls st2 /\ fetches st1 = fetches st2.

Definition rel_out {A : Type} (RA : A -> A -> Prop)
           (r1 r2 : outcome A * state) : Prop :=
  sim (snd r1) (snd r2)
  /\ match fst r1, fst r2 with
     | Ret a, Ret b => RA a b
     | Raise e1, Raise e2 => e1 = e2
     | Spin, Spin => True
     | _, _ => False
     end.

Definition related {A : Type} (RA : A -> A -> Prop) (m1 m2 : M A) : Prop :=
  forall st1 st2, sim st1 st2 -> rel_out RA (m1 st1) (m2 st2).

(** The state after [k] more calls of [cli.tasks] for the service [sid]. *)
Fixpoint polled (sid : string) (k : nat) (st : state) : state :=
  match k with
  | O => st
  | S k' => polled sid k' (next_poll (add_event (ListTasks sid) st))
  end.

(** The history of a service as the polls see it: no task before the poll
    [first], a first task that has not terminated between [first] and [done],
    and from the poll [done] on a first task in the state [final]. *)
Record history (w : World) (from first done : nat) (final : string) : Prop := {
  h_order : from <= first < done;
  h_none : forall m, from <= m < first -> tasks_resp w m = [];
  h_some : tasks_resp w first <> [];
  h_live : forall m, first < m < done ->
           exists t ts, tasks_resp w m = t :: ts
                        /\ Py.contains (State t) terminal_states = false;
  h_done : forall m, done <= m ->
           exists t ts, tasks_resp w m = t :: ts /\ State t = final }.

(** Container inspections and service removals, the events that the
    claims about cleanup count. *)
Definition cleanup (e : event) : bool := is_inspect e || is_remove e.

(** The container identifiers of a task list. *)
Definition container_ids (ts : list TaskRecord) : list (option string) :=
  map ContainerID ts.

(** Time stamps as the docker engine prints them in front of a log line. *)
Module Stamp.

Record stamp : Type := {
  s_year : Z; s_month : Z; s_day : Z;
  s_hour : Z; s_minute : Z; s_second : Z;
  s_nanosecond : Z }.

(** A date of the calendar and a time of the day, to the nanosecond. *)
Definition valid (s : stamp) : Prop :=
  (1 <= s_year s <= 9999 /\ 1 <= s_month s <= 12
   /\ 1 <= s_day s <= Datetime.days_in_month (s_year s) (s_month s)
   /\ 0 <= s_hour s <= 23 /\ 0 <= s_minute s <= 59 /\ 0 <= s_second s <= 59
   /\ 0 <= s_nanosecond s < 10 ^ 9)%Z.

Definition digit_char (d : Z) : ascii := ascii_of_N (Z.to_N (48 + d)).

(** The last [width] decimal digits of [n], most significant first. *)
Fixpoint pad (width : nat) (n : Z) : string :=
  match width with
  | O => ""
  | S w => String (digit_char ((n / 10 ^ Z.of_nat w) mod 10)) (pad w n)
  end.

(** The stamp with a given fraction of the second. *)
Definition text (fraction : string) (s : stamp) : string :=
  pad 4 (s_year s) ++ "-" ++ pad 2 (s_month s) ++ "-" ++ pad 2 (s_day s) ++ "T"
  ++ pad 2 (s_hour s) ++ ":" ++ pad 2 (s_minute s) ++ ":" ++ pad 2 (s_second s)
  ++ "." ++ fraction ++ "Z".

(** Nine fractional digits, as printed; six, as floored. *)
Definition nanos (s : stamp) : string := text (pad 9 (s_nanosecond s)) s.
Definition micros (s : stamp) : string := text (pad 6 (s_nanosecond s / 1000)) s.

Definition to_datetime (s : stamp) : Datetime.datetime :=
  Datetime.mk_datetime (s_year s) (s_month s) (s_day s)
                       (s_hour s) (s_minute s) (s_second s)
                       (s_nanosecond s / 1000).

End Stamp.

(** The first second of 2024, and 123456789 nanoseconds. *)
Definition new_year_stamp : Stamp.stamp :=
  {| Stamp.s_year := 2024; Stamp.s_month := 1; Stamp.s_day := 1;
     Stamp.s_hour := 0; Stamp.s_minute := 0; Stamp.s_second := 0;
     Stamp.s_nanosecond := 123456789 |}.

(** A character other than the dot. *)
Definition no_dot (c : ascii) : bool := negb (Ascii.eqb "." c).

(** Every character of a string is in a class. *)
Fixpoint all_chars (p : ascii -> bool) (s : string) : bool :=
  match s with
  | EmptyString => true
  | String c s' => p c && all_chars p s'
  end.

(** A string does not go on with a character of the class. *)
Definition stops (p : ascii -> bool) (s : string) : Prop :=
  match s with
  | EmptyString => True
  | String c _ => p c = false
  end.

(** The part of a string before its first line feed, and the rest. *)
Fixpoint first_line (s : string) : string :=
  match s with
  | EmptyString => ""
  | String c s' => if Py.not_newline c then String c (first_line s') else ""
  end.

Fixpoint after_first_line (s : string) : string :=
  match s with
  | EmptyString => ""
  | String c s' => if Py.not_newline c then after_first_line s' else s
  end.

(** [r] matches the text [a] in front of any continuation that satisfies
    [P], capturing the groups [gs], and the first match tried is the one
    that succeeds whenever the rest of the pattern does. *)
Definition takes (r : Re.regex) (a : string) (gs : list string)
           (P : string -> Prop) : Prop :=
  forall (R : Type) (rest : string) (caps : list string)
         (k : string -> list string -> option R) (x : R),
    P rest -> k rest (caps ++ gs) = Some x ->
    Re.mtch r (a ++ rest) caps k = Some x.

Definition anything (_ : string) : Prop := True.

(** A computation [adds] at most [n] events of the class [p] under the
    invariant [J] on the operator: started from a state whose operator
    satisfies [J], it ends, however it ends, in a state whose operator
    satisfies [J] and whose trace is the one it started from followed by
    events of which at most [n] are in [p]. *)
Definition adds {A : Type} (J : DockerSwarmOperator -> Prop)
           (p : event -> bool) (n : nat) (m : M A) : Prop :=
  forall st, J (self st) ->
    J (self (snd (m st)))
    /\ exists es, trace (snd (m st)) = trace st ++ es
                  /\ List.length (filter p es) <= n.

(** The events of polling and logging: they ask the orchestrator or write to
    the log, and change nothing. *)
Definition passive (e : event) : bool :=
  match e with
  | ListTasks _ | ServiceLogs _ _ _ | LogInfo _ | Sleep _ => true
  | _ => false
  end.

Definition is_create (e : event) : bool :=
  match e with
  | CreateService _ => true
  | _ => false
  end.

Definition is_copy (e : event) : bool :=
  match e with
  | CopyFromDocker _ _ => true
  | _ => false
  end.

(** The removal of a service other than [sid]. *)
Definition removes_other (sid : string) (e : event) : bool :=
  match e with
  | RemoveService sid' => negb (String.eqb sid' sid)
  | _ => false
  end.

(** [d.get(key)] on a dict kept as an association list. *)
Fixpoint dict_get (key : string) (d : list (string * string)) : option string :=
  match d with
  | [] => None
  | (k, v) :: rest => if String.eqb k key then Some v else dict_get key rest
  end.

(** A character other than the single quote, and an argument written
    between single quotes. *)
Definition no_single_quote (c : ascii) : bool := negb (Ascii.eqb c Shlex.single_quote).

Definition single_quoted (s : string) : string :=
  String Shlex.single_quote (s ++ String Shlex.single_quote "").

(** Further deployments: a client that hands back no service, a service
    whose task list is empty again after the first task was seen, and a
    service that completes with a task that never got a container. *)
Module Scenario.

Definition no_handle : World :=
  {| create_service_resp := fun _ => None;
     tasks_resp := Example.answers "complete";
     inspect_resp := fun c => {| Id := c |};
     logs_resp := Example.batches;
     copy_resp := Example.archive;
     format_command := fun c => inr c;
     get_random_string := "x1y2z3" |}.

Definition vanishing : World :=
  Example.deployment (fun n => match n with 0 => [Example.running] | _ => [] end)
                     Example.batches Example.archive.

Definition unplaced : World :=
  Example.deployment
    (fun _ => [ {| State := "complete"; ContainerID := Some "c1" |};
                {| State := "complete"; ContainerID := None |};
                {| State := "complete"; ContainerID := Some "c3" |} ])
    Example.batches Example.archive.

(** The operator as [__init__] leaves it. *)
Definition constructed (policy : string) (retrieve logging : bool) : state :=
  snd (__init__ (Example.kwargs policy retrieve logging None) Example.start).

(** The same operator constructed with other arguments for the service. *)
Definition with_args (a : args_t) : state :=
  snd (__init__
         {| kw_base := Example.docker_operator "force" false;
            kw_args := a;
            kw_enable_logging := false;
            kw_configs := []; kw_secrets := []; kw_mode := None; kw_networks := [];
            kw_placement := []; kw_container_resources := None;
            kw_service_prefix := "airflow";
            kw_logging_driver := None;
            kw_logging_driver_opts := [] |}
         Example.start).

End Scenario.

(** The records written to the log, in order. *)
Definition log_records (es : list event) : list string :=
  flat_map (fun e => match e with LogInfo msg => [msg] | _ => [] end) es.

(** A line that the line pattern matches and whose time stamp, floored to
    microseconds, is a time [strptime] accepts. *)
Definition parsable (line : string) : Prop :=
  well_formed line
  /\ exists dt,
       Datetime.strptime (Re.re_sub SUBMICROSECOND keep_microseconds (timestamp_of line))
       = inr dt.

(** Successive fetches, each given as the lines it repeats and the lines it
    brings: what a fetch repeats is the end of what the fetches before it
    have brought. *)
Fixpoint overlapping (seen : list string) (rounds : list (list string * list string))
  : Prop :=
  match rounds with
  | [] => True
  | (old, new) :: rest =>
      (exists older, seen = older ++ old) /\ overlapping (seen ++ new) rest
  end.

(** The service created in [Example], watched from its second poll on. *)
Definition watching : state :=
  {| self := self (Example.created "never" false);
     trace := []; polls := 1; fetches := 0 |}.

(** Words, each with the blanks that follow it; only the last word may go
    without. *)
Fixpoint spaced (items : list (string * string)) : string :=
  match items with
  | [] => ""
  | (word, gap) :: rest => word ++ gap ++ spaced rest
  end.

Fixpoint well_spaced (items : list (string * string)) : Prop :=
  match items with
  | [] => True
  | (word, gap) :: rest =>
      Shlex.plain word = true /\ word <> ""
      /\ all_chars Shlex.is_whitespace gap = true
      /\ (gap = "" -> rest = [])
      /\ well_spaced rest
  end.

(* ===================================================================== *)
(** * Properties                                                          *)
(* ===================================================================== *)

(** ** Membership tests *)

Lemma contains_In (x : string) (xs : list string) :
  Py.contains x xs = true <-> In x xs.
Proof.
  induction xs as [|y ys IH]; simpl.
  - split; [discriminate | contradiction].
  - destruct (String.eqb_spec y x) as [->|Hne].
    + split; auto.
    + rewrite IH. split; [auto | intros [H|H]; [contradiction | exact H]].
Qed.

Lemma contains_false (x : string) (xs : list string) :
  Py.contains x xs = false <-> ~ In x xs.
Proof.
  rewrite <- contains_In. destruct (Py.contains x xs); split; congruence.
Qed.

(** ** Running the monad *)

Ltac mred :=
  cbv beta iota delta [bind ret raise spin get_self modify_self emit log_info sleep lift
       negb truthy_service].

Lemma service_status_run (w : World) (st : state) (svc : ServiceHandle) :
  service (self st) = Some svc ->
  _service_status w st =
    match tasks_resp w (polls st) with
    | t :: _ => (Ret (State t), next_poll (add_event (ListTasks (ID svc)) st))
    | [] => (Raise IndexError, next_poll (add_event (ListTasks (ID svc)) st))
    end.
Proof.
  intros Hsvc. unfold _service_status, service_id, cli_tasks.
  mred. rewrite Hsvc. mred. rewrite Hsvc. mred.
  destruct (tasks_resp w (polls st)); reflexivity.
Qed.

Lemma service_status_none (w : World) (st : state) :
  service (self st) = None -> _service_status w st = (Raise not_initialized, st).
Proof.
  intros Hsvc. unfold _service_status. mred. rewrite Hsvc. reflexivity.
Qed.

Lemma has_service_terminated_run (w : World) (st : state) (svc : ServiceHandle) :
  service (self st) = Some svc ->
  _has_service_terminated w st =
    match tasks_resp w (polls st) with
    | t :: _ => (Ret (Py.contains (State t) terminal_states),
                 next_poll (add_event (ListTasks (ID svc)) st))
    | [] => (Raise IndexError, next_poll (add_event (ListTasks (ID svc)) st))
    end.
Proof.
  intros Hsvc. unfold _has_service_terminated. mred.
  rewrite (service_status_run w st svc Hsvc).
  destruct (tasks_resp w (polls st)); reflexivity.
Qed.

(** ** Traces *)

Lemma add_event_events (e : event) (st : state) : add_event e st = add_events [e] st.
Proof. reflexivity. Qed.

Lemma add_events_nil (st : state) : add_events [] st = st.
Proof. destruct st. unfold add_events. cbn. now rewrite app_nil_r. Qed.

Lemma add_events_app (es1 es2 : list event) (st : state) :
  add_events es2 (add_events es1 st) = add_events (es1 ++ es2) st.
Proof. unfold add_events. cbn. now rewrite app_assoc. Qed.

(** ** Terminal-state classification *)

(** C2 (as amended): with a service handle and a non-empty task list, the
    terminal-state check returns true exactly when the state of the first task
    is one of complete, failed, shutdown, rejected, orphaned, remove; pending
    and running are not terminal. *)
Theorem has_service_terminated_iff
        (w : World) (st : state) (svc : ServiceHandle)
        (t : TaskRecord) (ts : list TaskRecord) :
  service (self st) = Some svc ->
  tasks_resp w (polls st) = t :: ts ->
  exists b : bool,
    fst (_has_service_terminated w st) = Ret b
    /\ (b = true <->
        In (State t) ["complete"; "failed"; "shutdown"; "rejected"; "orphaned"; "remove"])
    /\ (State t = "pending" \/ State t = "running" -> b = false).
Proof.
  intros Hsvc Hts.
  exists (Py.contains (State t) terminal_states).
  split; [|split].
  - rewrite (has_service_terminated_run w st svc Hsvc), Hts. reflexivity.
  - apply contains_In.
  - intros [H|H]; rewrite H; reflexivity.
Qed.

Lemma has_service_terminated_iff_witness :
  exists b : bool,
    fst (_has_service_terminated (Example.world "remove") (Example.created "never" false))
    = Ret b
    /\ (b = true <->
        In "remove" ["complete"; "failed"; "shutdown"; "rejected"; "orphaned"; "remove"])
    /\ ("remove" = "pending" \/ "remove" = "running" -> b = false).
Proof.
  exact (@has_service_terminated_iff
           (Example.world "remove") (Example.created "never" false)
           {| ID := "svc1" |}
           {| State := "remove"; ContainerID := Some "c1" |}
           [ {| State := "running"; ContainerID := Some "c2" |} ]
           eq_refl eq_refl).
Defined.

(** C2 (as stated) fails: "removed" is in the claimed set, yet a first task
    in state "removed" is not classified as terminal. *)
Lemma removed_is_not_terminal :
  In "removed" ["complete"; "failed"; "shutdown"; "rejected"; "orphaned"; "removed"]
  /\ fst (_has_service_terminated (Example.world "removed") (Example.created "never" false))
     = Ret false.
Proof.
  split; [simpl; tauto | reflexivity].
Qed.

(** ** Construction-time validation *)

(** C3 (as amended): construction makes no client call and creates no
    service; a non-empty logging driver outside the supported ones raises
    the configuration error, a supported one is accepted and configured, and
    an absent or empty one is accepted with no driver configuration. *)
Theorem init_validates_logging_driver (kw : Kwargs) (st : state) :
  trace (snd (__init__ kw st)) = trace st
  /\ polls (snd (__init__ kw st)) = polls st
  /\ service (self (snd (__init__ kw st))) = None
  /\ (forall d, kw_logging_driver kw = Some d -> d <> "" ->
                ~ In d supported_logging_drivers ->
        fst (__init__ kw st)
        = Raise (AirflowException
                   ("Invalid logging driver provided: " ++ d
                    ++ ". Must be one of: [json-file, gelf]")))
  /\ (forall d, kw_logging_driver kw = Some d -> In d supported_logging_drivers ->
        fst (__init__ kw st) = Ret tt
        /\ log_driver_config (self (snd (__init__ kw st)))
           = Some {| driver_name := d; driver_options := kw_logging_driver_opts kw |})
  /\ (kw_logging_driver kw = None \/ kw_logging_driver kw = Some "" ->
        fst (__init__ kw st) = Ret tt
        /\ log_driver_config (self (snd (__init__ kw st))) = None).
Proof.
  unfold __init__. mred.
  cbn [update_self self logging_driver logging_driver_opts].
  destruct (kw_logging_driver kw) as [d|] eqn:Hd.
  - destruct d as [|c d'].
    + cbn [Py.truthy_str]. mred.
      split; [|split; [|split; [|split; [|split]]]]; try reflexivity.
      * intros d0 [= <-] Hne. contradiction.
      * intros d0 [= <-] [H1|[H2|[]]]; discriminate.
      * intros _. split; reflexivity.
    + cbn [Py.truthy_str].
      destruct (Py.contains (String c d') supported_logging_drivers) eqn:Hin; mred;
        (split; [|split; [|split; [|split; [|split]]]]); try reflexivity.
      * intros d0 [= <-] _ Hnot. apply contains_In in Hin. contradiction.
      * intros d0 [= <-] _. split; reflexivity.
      * intros [H|H]; discriminate.
      * intros d0 [= <-] _ _. reflexivity.
      * intros d0 [= <-] Hsup. apply contains_In in Hsup. congruence.
      * intros [H|H]; discriminate.
  - mred. split; [|split; [|split; [|split; [|split]]]]; try reflexivity.
    + intros d0; discriminate.
    + intros d0; discriminate.
    + intros _. split; reflexivity.
Qed.

Lemma init_validates_logging_driver_witness :
  fst (__init__ (Example.kwargs "never" false true (Some "syslog")) Example.start)
  = Raise (AirflowException
             "Invalid logging driver provided: syslog. Must be one of: [json-file, gelf]")
  /\ fst (__init__ (Example.kwargs "never" false true (Some "gelf")) Example.start) = Ret tt
  /\ fst (__init__ (Example.kwargs "never" false true None) Example.start) = Ret tt.
Proof.
  split; [|split].
  - apply (init_validates_logging_driver
             (Example.kwargs "never" false true (Some "syslog")) Example.start)
      with (d := "syslog").
    + reflexivity.
    + discriminate.
    + cbn. intros [H|[H|[]]]; discriminate.
  - apply (init_validates_logging_driver
             (Example.kwargs "never" false true (Some "gelf")) Example.start)
      with (d := "gelf").
    + reflexivity.
    + cbn. auto.
  - apply (init_validates_logging_driver
             (Example.kwargs "never" false true None) Example.start).
    left. reflexivity.
Defined.

(** C3 (as stated) fails: the empty string is outside the supported drivers,
    yet construction with it succeeds. *)
Lemma empty_logging_driver_is_accepted :
  ~ In "" supported_logging_drivers
  /\ fst (__init__ (Example.kwargs "never" false true (Some "")) Example.start) = Ret tt.
Proof.
  split; [cbn; intros [H|[H|[]]]; discriminate | reflexivity].
Qed.

(** ** Argument normalization *)

Lemma append_assoc (a b c : string) : ((a ++ b) ++ c = a ++ (b ++ c))%string.
Proof. induction a as [|x a IH]; cbn; [reflexivity | now rewrite IH]. Qed.

Lemma append_empty_r (a : string) : (a ++ "" = a)%string.
Proof. induction a as [|x a IH]; cbn; [reflexivity | now rewrite IH]. Qed.

(** Inside a word, plain characters are appended to the token. *)
Lemma read_tokens_word (word : string) :
  forall (quoted : bool) (token rest : string),
    Shlex.plain word = true ->
    Shlex.read_tokens Shlex.Word quoted token (word ++ rest)
    = Shlex.read_tokens Shlex.Word quoted (token ++ word) rest.
Proof.
  induction word as [|c word IH]; intros quoted token rest Hplain.
  - cbn. now rewrite append_empty_r.
  - cbn [Shlex.plain] in Hplain. apply andb_prop in Hplain as [Hc Hword].
    unfold Shlex.plain_char in Hc.
    apply negb_true_iff in Hc. apply orb_false_iff in Hc as [Hc Hesc].
    apply orb_false_iff in Hc as [Hws Hq].
    cbn [String.append Shlex.read_tokens]. rewrite Hws, Hq, Hesc.
    rewrite IH by assumption. unfold Shlex.add.
    rewrite append_assoc. reflexivity.
Qed.

Lemma read_tokens_plain_words (words : list string) :
  Forall (fun word => Shlex.plain word = true /\ word <> "") words ->
  Shlex.read_tokens Shlex.Blank false "" (Py.join " " words) = inr words.
Proof.
  induction words as [|word rest IH]; intros Hall.
  - reflexivity.
  - inversion Hall as [|? ? [Hplain Hne] Hrest]; subst.
    destruct word as [|c word]; [congruence|].
    assert (Hc : Shlex.plain_char c = true /\ Shlex.plain word = true).
    { cbn [Shlex.plain] in Hplain. apply andb_prop in Hplain. exact Hplain. }
    destruct Hc as [Hc Hword].
    assert (Hc' := Hc). unfold Shlex.plain_char in Hc'.
    apply negb_true_iff in Hc'. apply orb_false_iff in Hc' as [Hc' Hesc].
    apply orb_false_iff in Hc' as [Hws Hq].
    destruct rest as [|next rest].
    + cbn [Py.join Shlex.read_tokens]. rewrite Hws, Hesc, Hq.
      rewrite <- (append_empty_r word) at 1.
      rewrite read_tokens_word by assumption. reflexivity.
    + change (Py.join " " (String c word :: next :: rest))
        with (String c word ++ " " ++ Py.join " " (next :: rest))%string.
      cbn [String.append Shlex.read_tokens]. rewrite Hws, Hesc, Hq.
      rewrite read_tokens_word by assumption.
      cbn [String.append Shlex.read_tokens].
      change (Shlex.is_whitespace " ") with true. cbn [Py.truthy_str orb].
      rewrite IH by assumption. reflexivity.
Qed.

(** C8: a string is split into POSIX shell words, a list and None pass
    through unchanged. *)
Theorem format_args_normalizes :
  (forall s, format_args (ArgsStr s)
             = match Shlex.split s with
               | inr xs => inr (ArgsList xs)
               | inl e => inl e
               end)
  /\ format_args (ArgsStr "--flag value") = inr (ArgsList ["--flag"; "value"])
  /\ (forall words,
        Forall (fun word => Shlex.plain word = true /\ word <> "") words ->
        format_args (ArgsStr (Py.join " " words)) = inr (ArgsList words))
  /\ (forall xs, format_args (ArgsList xs) = inr (ArgsList xs))
  /\ format_args ArgsNone = inr ArgsNone.
Proof.
  split; [|split; [|split; [|split]]]; try reflexivity.
  intros words Hall. unfold format_args, Shlex.split.
  now rewrite read_tokens_plain_words.
Qed.

(** ** The precondition on the service handle *)

Lemma steady_bind {A B : Type} (m : M A) (f : A -> M B) :
  steady m -> (forall a, steady (f a)) -> steady (bind m f).
Proof.
  intros Hm Hf st Hsvc. unfold bind.
  destruct (Hm st Hsvc) as [Hself Hraise].
  destruct (m st) as [[a|e|] st']; cbn [fst snd] in *.
  - destruct (Hf a st') as [Hself' Hraise']; [rewrite Hself; exact Hsvc|].
    split; [congruence | exact Hraise'].
  - split; [exact Hself | congruence].
  - split; [exact Hself | discriminate].
Qed.

Lemma steady_ret {A : Type} (a : A) : steady (ret a).
Proof. intros st _. split; [reflexivity | discriminate]. Qed.

Lemma steady_emit (e : event) : steady (emit e).
Proof. intros st _. split; [reflexivity | discriminate]. Qed.

Lemma steady_raise {A : Type} (e : exn) : e <> not_initialized -> steady (@raise A e).
Proof. intros He st _. split; [reflexivity | cbn; congruence]. Qed.

Lemma steady_lift {A : Type} (r : exn + A) :
  (forall e, r = inl e -> e <> not_initialized) -> steady (lift r).
Proof.
  intros Hr. destruct r as [e|a]; cbn [lift].
  - apply steady_raise. apply Hr. reflexivity.
  - apply steady_ret.
Qed.

Lemma steady_get_self : steady get_self.
Proof. intros st _. split; [reflexivity | discriminate]. Qed.

Lemma steady_service_id : steady service_id.
Proof.
  intros st Hsvc. unfold service_id. mred.
  destruct (service (self st)) as [svc|]; [|contradiction].
  split; [reflexivity | discriminate].
Qed.

Lemma steady_cli_tasks (w : World) (sid : string) : steady (cli_tasks w sid).
Proof. intros st _. split; [reflexivity | discriminate]. Qed.

Lemma steady_cli_service_logs (w : World) (sid : string) (t : bool) (c : cursor) :
  steady (cli_service_logs w sid t c).
Proof. intros st _. split; [reflexivity | discriminate]. Qed.

Lemma steady_service_status (w : World) : steady (_service_status w).
Proof.
  intros st Hsvc. destruct (service (self st)) as [svc|] eqn:E; [|contradiction].
  rewrite (service_status_run w st svc E).
  destruct (tasks_resp w (polls st)); split; try reflexivity; discriminate.
Qed.

Lemma steady_has_service_terminated (w : World) : steady (_has_service_terminated w).
Proof.
  unfold _has_service_terminated. apply steady_bind.
  - apply steady_service_status.
  - intros a. apply steady_ret.
Qed.

Lemma steady_log_lines (logs : list string) :
  forall bound, steady (log_lines logs bound).
Proof.
  induction logs as [|line rest IH]; intros bound; cbn [log_lines].
  - apply steady_ret.
  - destruct (Re.re_match LOG_LINE line) as [[groups _]|].
    + apply steady_bind; [apply steady_emit | intros _; apply IH].
    + apply steady_raise. discriminate.
Qed.

Lemma strptime_error (s : string) (e : exn) :
  Datetime.strptime s = inl e -> exists msg, e = ValueError msg.
Proof.
  unfold Datetime.strptime.
  destruct (Re.re_match Datetime.format_regex s) as [[groups rest]|].
  - destruct rest.
    + destruct groups as [|g1 [|g2 [|g3 [|g4 [|g5 [|g6 [|g7 [|g8 gs]]]]]]]];
        cbv beta iota zeta;
        try match goal with |- context [if ?c then _ else _] => destruct c end;
        intros H; inversion H; eauto.
    + intros H; inversion H; eauto.
  - intros H; inversion H; eauto.
Qed.

Lemma drop_seen_error (last : string) (logs : list string) (e : exn) :
  drop_seen last logs = inl e -> exists msg, e = ValueError msg.
Proof.
  unfold drop_seen. destruct (Py.contains last logs).
  - destruct (Py.index last logs); intros H; inversion H; eauto.
  - discriminate.
Qed.

Lemma steady_stream_new_logs (w : World) (last : string) (since : cursor) :
  steady (stream_new_logs w last since).
Proof.
  unfold stream_new_logs.
  apply steady_bind; [apply steady_service_id | intros sid].
  apply steady_bind; [apply steady_get_self | intros o].
  apply steady_bind; [apply steady_cli_service_logs | intros fetched].
  apply steady_bind.
  { apply steady_lift. intros e He. apply drop_seen_error in He as [msg ->]. discriminate. }
  intros logs.
  apply steady_bind; [apply steady_log_lines | intros bound].
  destruct (Nat.eqb (List.length logs) 0); [apply steady_ret|].
  destruct bound as [[line timestamp]|].
  - apply steady_bind; [|intros dt; apply steady_ret].
    apply steady_lift. intros e He. apply strptime_error in He as [msg ->]. discriminate.
  - apply steady_raise. discriminate.
Qed.

Lemma steady_stream_loop (w : World) (fuel : nat) :
  forall last since, steady (stream_loop w fuel last since).
Proof.
  induction fuel as [|fuel IH]; intros last since; cbn [stream_loop].
  - intros st _. split; [reflexivity | discriminate].
  - apply steady_bind; [apply steady_has_service_terminated | intros finished].
    destruct finished; [apply steady_ret|].
    apply steady_bind; [apply steady_emit | intros _].
    apply steady_bind; [apply steady_stream_new_logs | intros [line stamp]].
    apply IH.
Qed.

(** C9: with a null service handle, the status check and the log streamer
    raise the precondition error at once, leaving the state, and so the
    trace of client calls, untouched; with a handle they never raise it. *)
Theorem precondition_fail_fast (w : World) (st : state) (fuel : nat) :
  (service (self st) = None ->
     _service_status w st = (Raise not_initialized, st)
     /\ _stream_logs_to_output w fuel st = (Raise not_initialized, st))
  /\ (service (self st) <> None ->
      fst (_service_status w st) <> Raise not_initialized
      /\ fst (_stream_logs_to_output w fuel st) <> Raise not_initialized).
Proof.
  split.
  - intros Hnone. split; [apply service_status_none; exact Hnone|].
    unfold _stream_logs_to_output. mred. rewrite Hnone. reflexivity.
  - intros Hsome. split; [apply steady_service_status; exact Hsome|].
    unfold _stream_logs_to_output. mred.
    destruct (service (self st)) as [svc|] eqn:E; [|contradiction].
    mred. apply steady_stream_loop. rewrite E. discriminate.
Qed.

Lemma precondition_fail_fast_witness :
  (_service_status (Example.world "complete") Example.start
   = (Raise not_initialized, Example.start)
   /\ _stream_logs_to_output (Example.world "complete") 5 Example.start
      = (Raise not_initialized, Example.start))
  /\ (fst (_service_status (Example.world "complete") (Example.created "never" false))
      <> Raise not_initialized
      /\ fst (_stream_logs_to_output (Example.world "complete") 5
                (Example.created "never" false))
         <> Raise not_initialized).
Proof.
  split.
  - exact (proj1 (precondition_fail_fast (Example.world "complete") Example.start 5)
                 eq_refl).
  - apply (proj2 (precondition_fail_fast (Example.world "complete")
                    (Example.created "never" false) 5)).
    discriminate.
Defined.

(** ** Result retrieval *)

Lemma copy_each_ok (w : World) (cs : list ContainerRecord) :
  forall (vs acc : list pyobj) (st : state),
    Forall2 (fun c v => copy_resp w (Id c) (retrieve_output_path (base (self st))) = inr v)
            cs vs ->
    copy_each w cs acc st
    = (Ret (acc ++ vs),
       add_events (map (copy_event (retrieve_output_path (base (self st)))) cs) st).
Proof.
  induction cs as [|c cs IH]; intros vs acc st Hall; inversion Hall as [|? v ? vs' Hc Hcs]; subst.
  - cbn [copy_each map]. rewrite app_nil_r, add_events_nil. reflexivity.
  - cbn [copy_each map]. unfold _copy_from_docker. mred. rewrite Hc. mred.
    rewrite (IH vs' (acc ++ [v]) (add_event _ st)) by exact Hcs.
    rewrite add_event_events, add_events_app, <- app_assoc. reflexivity.
Qed.

Lemma copy_each_raises (w : World) (pre : list ContainerRecord) :
  forall (vs acc : list pyobj) (c : ContainerRecord) (post : list ContainerRecord)
         (e : exn) (st : state),
    Forall2 (fun c v => copy_resp w (Id c) (retrieve_output_path (base (self st))) = inr v)
            pre vs ->
    copy_resp w (Id c) (retrieve_output_path (base (self st))) = inl e ->
    copy_each w (pre ++ c :: post) acc st
    = (Raise e,
       add_events (map (copy_event (retrieve_output_path (base (self st)))) (pre ++ [c])) st).
Proof.
  induction pre as [|p pre IH]; intros vs acc c post e st Hall Hc;
    inversion Hall as [|? v ? vs' Hp Hpre]; subst.
  - cbn [app copy_each map]. unfold _copy_from_docker. mred. rewrite Hc. reflexivity.
  - cbn [app copy_each map]. unfold _copy_from_docker. mred. rewrite Hp. mred.
    rewrite (IH vs' (acc ++ [v]) c post e (add_event _ st)) by assumption.
    rewrite add_event_events, add_events_app. reflexivity.
Qed.

(** C4: with every copy succeeding, result retrieval returns the copied
    value itself for exactly one harvested container and the list of values
    in harvest order otherwise; when a copy raises an API error the method
    returns None instead of raising, and later containers are not tried. *)
Theorem attempt_to_retrieve_results_returns (w : World) (st : state) :
  (forall c v,
      containers (self st) = [c] ->
      copy_resp w (Id c) (retrieve_output_path (base (self st))) = inr v ->
      fst (_attempt_to_retrieve_results w st) = Ret v)
  /\ (forall vs,
         List.length (containers (self st)) <> 1 ->
         Forall2 (fun c v => copy_resp w (Id c) (retrieve_output_path (base (self st))) = inr v)
                 (containers (self st)) vs ->
         _attempt_to_retrieve_results w st
         = (Ret (PyList vs),
            add_events (map (copy_event (retrieve_output_path (base (self st))))
                            (containers (self st))) st))
  /\ (forall pre c post vs,
         containers (self st) = pre ++ c :: post ->
         Forall2 (fun c v => copy_resp w (Id c) (retrieve_output_path (base (self st))) = inr v)
                 pre vs ->
         copy_resp w (Id c) (retrieve_output_path (base (self st))) = inl APIError ->
         _attempt_to_retrieve_results w st
         = (Ret PyNone,
            add_events (map (copy_event (retrieve_output_path (base (self st))))
                            (pre ++ [c])) st)).
Proof.
  split; [|split].
  - intros c v Hcs Hc. unfold _attempt_to_retrieve_results, except_APIError. mred.
    rewrite Hcs.
    rewrite (copy_each_ok w [c] [v] [] st) by (constructor; [exact Hc | constructor]).
    reflexivity.
  - intros vs Hlen Hall. unfold _attempt_to_retrieve_results, except_APIError. mred.
    rewrite (copy_each_ok w _ vs [] st Hall). cbn [app].
    assert (Hvs : List.length vs <> 1).
    { rewrite <- (Forall2_length Hall). exact Hlen. }
    destruct vs as [|v [|v' vs]]; try reflexivity. cbn in Hvs. congruence.
  - intros pre c post vs Hcs Hall Hc.
    unfold _attempt_to_retrieve_results, except_APIError. mred.
    rewrite Hcs, (copy_each_raises w pre vs [] c post APIError st Hall Hc).
    reflexivity.
Qed.

Lemma attempt_to_retrieve_results_returns_witness :
  fst (_attempt_to_retrieve_results (Example.world "complete")
         (Example.harvested [ {| Id := "c1" |} ]))
  = Ret (PyStr "c1:/out")
  /\ fst (_attempt_to_retrieve_results (Example.world "complete")
            (Example.harvested [ {| Id := "c1" |}; {| Id := "c3" |} ]))
     = Ret (PyList [PyStr "c1:/out"; PyStr "c3:/out"])
  /\ fst (_attempt_to_retrieve_results
            (Example.deployment (Example.answers "complete") Example.batches
                                Example.late_archive)
            (Example.harvested [ {| Id := "c1" |}; {| Id := "c2" |}; {| Id := "c3" |} ]))
     = Ret PyNone.
Proof.
  split; [|split].
  - apply (proj1 (attempt_to_retrieve_results_returns (Example.world "complete")
                    (Example.harvested [ {| Id := "c1" |} ])) {| Id := "c1" |});
      reflexivity.
  - rewrite (proj1 (proj2 (attempt_to_retrieve_results_returns (Example.world "complete")
                    (Example.harvested [ {| Id := "c1" |}; {| Id := "c3" |} ])))
               [PyStr "c1:/out"; PyStr "c3:/out"]).
    + reflexivity.
    + discriminate.
    + repeat constructor.
  - rewrite (proj2 (proj2 (attempt_to_retrieve_results_returns
                    (Example.deployment (Example.answers "complete") Example.batches
                                        Example.late_archive)
                    (Example.harvested [ {| Id := "c1" |}; {| Id := "c2" |}; {| Id := "c3" |} ])))
               [ {| Id := "c1" |} ] {| Id := "c2" |} [ {| Id := "c3" |} ]
               [PyStr "c1:/out"]).
    + reflexivity.
    + reflexivity.
    + repeat constructor.
    + reflexivity.
Defined.

(** ** Only the first task record decides *)

Lemma osim_refl (o : DockerSwarmOperator) : osim o o.
Proof. reflexivity. Qed.

Lemma sim_refl (st : state) : sim st st.
Proof. repeat split. Qed.

Lemma osim_inv (o1 o2 : DockerSwarmOperator) :
  osim o1 o2 -> o1 = set_tasks o2 (tasks o1).
Proof.
  destruct o1, o2. unfold osim, set_tasks. cbn. intros H.
  injection H as -> -> -> -> -> -> -> -> -> -> -> -> -> -> ->. reflexivity.
Qed.

Lemma related_bind {A B : Type} (RA : A -> A -> Prop) (RB : B -> B -> Prop)
      (m1 m2 : M A) (f1 f2 : A -> M B) :
  related RA m1 m2 ->
  (forall a b, RA a b -> related RB (f1 a) (f2 b)) ->
  related RB (bind m1 f1) (bind m2 f2).
Proof.
  intros Hm Hf st1 st2 Hsim. unfold bind.
  destruct (Hm st1 st2 Hsim) as [Hs Ho].
  destruct (m1 st1) as [[a|e1|] st1'], (m2 st2) as [[b|e2|] st2'];
    cbn [fst snd] in *; try contradiction.
  - apply Hf; assumption.
  - split; assumption.
  - split; [assumption | exact I].
Qed.

Lemma related_ret {A : Type} (RA : A -> A -> Prop) (a b : A) :
  RA a b -> related RA (ret a) (ret b).
Proof. intros H st1 st2 Hsim. split; assumption. Qed.

Lemma related_raise {A : Type} (RA : A -> A -> Prop) (e : exn) :
  related RA (raise e) (raise e).
Proof. intros st1 st2 Hsim. split; [assumption | reflexivity]. Qed.

Lemma related_spin {A : Type} (RA : A -> A -> Prop) : related RA spin spin.
Proof. intros st1 st2 Hsim. split; [assumption | exact I]. Qed.

Lemma related_lift {A : Type} (r : exn + A) : related eq (lift r) (lift r).
Proof. destruct r; [apply related_raise | now apply related_ret]. Qed.

Lemma related_emit (e : event) : related eq (emit e) (emit e).
Proof.
  intros st1 st2 (Ho & Ht & Hp & Hf). split; [|reflexivity].
  unfold emit, add_event. cbn. repeat split; try assumption. now rewrite Ht.
Qed.

Lemma related_get_self : related osim get_self get_self.
Proof. intros st1 st2 Hsim. split; [assumption | apply Hsim]. Qed.

Lemma related_modify_self (f1 f2 : DockerSwarmOperator -> DockerSwarmOperator) :
  (forall o1 o2, osim o1 o2 -> osim (f1 o1) (f2 o2)) ->
  related eq (modify_self f1) (modify_self f2).
Proof.
  intros Hf st1 st2 (Ho & Ht & Hp & Hfe). split; [|reflexivity].
  unfold modify_self, update_self. cbn. repeat split; try assumption. now apply Hf.
Qed.

Lemma related_service_id : related eq service_id service_id.
Proof.
  unfold service_id. eapply related_bind; [apply related_get_self|].
  intros o1 o2 Ho. rewrite (osim_inv o1 o2 Ho). cbn [service set_tasks].
  destruct (service o2); [now apply related_ret | apply related_raise].
Qed.

Section Agree.

Variable w : World.
Variable answers : nat -> list TaskRecord.
Hypothesis agree : forall n, same_but_later_states (tasks_resp w n) (answers n).

Lemma related_cli_tasks (sid : string) :
  related same_but_later_states (cli_tasks w sid) (cli_tasks (with_tasks w answers) sid).
Proof.
  intros st1 st2 (Ho & Ht & Hp & Hf). unfold cli_tasks. split.
  - unfold next_poll, add_event. cbn. repeat split; try assumption;
      [now rewrite Ht | now rewrite Hp].
  - cbn. rewrite <- Hp. apply agree.
Qed.

Lemma related_service_status :
  related eq (_service_status w) (_service_status (with_tasks w answers)).
Proof.
  unfold _service_status. eapply related_bind; [apply related_get_self|].
  intros o1 o2 Ho. rewrite (osim_inv o1 o2 Ho). cbn [service set_tasks].
  destruct (negb (truthy_service (service o2))); [apply related_raise|].
  eapply related_bind; [apply related_service_id|]. intros sid ? <-.
  eapply related_bind; [apply related_cli_tasks|]. intros ts1 ts2 Hts.
  destruct ts1 as [|t1 r1], ts2 as [|t2 r2]; cbn in Hts; try contradiction.
  - apply related_raise.
  - destruct Hts as [<- _]. now apply related_ret.
Qed.

Lemma related_has_service_terminated :
  related eq (_has_service_terminated w) (_has_service_terminated (with_tasks w answers)).
Proof.
  unfold _has_service_terminated. eapply related_bind; [apply related_service_status|].
  intros s ? <-. now apply related_ret.
Qed.

Lemma related_cli_service_logs (sid : string) (t : bool) (c : cursor) :
  related eq (cli_service_logs w sid t c) (cli_service_logs (with_tasks w answers) sid t c).
Proof.
  intros st1 st2 (Ho & Ht & Hp & Hf). unfold cli_service_logs. split.
  - unfold next_fetch, add_event. cbn. repeat split; try assumption;
      [now rewrite Ht | now rewrite Hf].
  - cbn. now rewrite Hf.
Qed.

Lemma related_log_lines (logs : list string) :
  forall bound, related eq (log_lines logs bound) (log_lines logs bound).
Proof.
  induction logs as [|line rest IH]; intros bound; cbn [log_lines].
  - now apply related_ret.
  - destruct (Re.re_match LOG_LINE line) as [[groups tail]|]; [|apply related_raise].
    eapply related_bind; [apply related_emit|]. intros _ _ _. apply IH.
Qed.

Lemma related_stream_new_logs (last : string) (since : cursor) :
  related eq (stream_new_logs w last since)
             (stream_new_logs (with_tasks w answers) last since).
Proof.
  unfold stream_new_logs.
  eapply related_bind; [apply related_service_id|]. intros sid ? <-.
  eapply related_bind; [apply related_get_self|]. intros o1 o2 Ho.
  rewrite (osim_inv o1 o2 Ho). cbn [base set_tasks].
  eapply related_bind; [apply related_cli_service_logs|]. intros fetched ? <-.
  eapply related_bind; [apply related_lift|]. intros logs ? <-.
  eapply related_bind; [apply related_log_lines|]. intros bound ? <-.
  destruct (Nat.eqb (List.length logs) 0); [now apply related_ret|].
  destruct bound as [[line timestamp]|]; [|apply related_raise].
  eapply related_bind; [apply related_lift|]. intros dt ? <-. now apply related_ret.
Qed.

Lemma related_stream_loop (fuel : nat) :
  forall last since,
    related eq (stream_loop w fuel last since)
               (stream_loop (with_tasks w answers) fuel last since).
Proof.
  induction fuel as [|fuel IH]; intros last since; cbn [stream_loop].
  - apply related_spin.
  - eapply related_bind; [apply related_has_service_terminated|]. intros finished ? <-.
    destruct finished; [now apply related_ret|].
    eapply related_bind; [apply related_emit|]. intros _ _ _.
    eapply related_bind; [apply related_stream_new_logs|]. intros [line stamp] ? <-.
    apply IH.
Qed.

Lemma related_stream_logs_to_output (fuel : nat) :
  related eq (_stream_logs_to_output w fuel)
             (_stream_logs_to_output (with_tasks w answers) fuel).
Proof.
  unfold _stream_logs_to_output.
  eapply related_bind; [apply related_get_self|]. intros o1 o2 Ho.
  rewrite (osim_inv o1 o2 Ho). cbn [service set_tasks].
  destruct (negb (truthy_service (service o2))); [apply related_raise|].
  apply related_stream_loop.
Qed.

Lemma related_copy_each (cs : list ContainerRecord) :
  forall acc, related eq (copy_each w cs acc) (copy_each (with_tasks w answers) cs acc).
Proof.
  induction cs as [|c cs IH]; intros acc; cbn [copy_each].
  - now apply related_ret.
  - eapply related_bind; [apply related_get_self|]. intros o1 o2 Ho.
    rewrite (osim_inv o1 o2 Ho). cbn [base set_tasks].
    eapply related_bind.
    + unfold _copy_from_docker. eapply related_bind; [apply related_emit|].
      intros _ _ _. apply related_lift.
    + intros v ? <-. apply IH.
Qed.

Lemma related_except_APIError {A : Type} (m1 m2 h1 h2 : M A) :
  related eq m1 m2 -> related eq h1 h2 ->
  related eq (except_APIError m1 h1) (except_APIError m2 h2).
Proof.
  intros Hm Hh st1 st2 Hsim. unfold except_APIError.
  destruct (Hm st1 st2 Hsim) as [Hs Ho].
  destruct (m1 st1) as [[a|e1|] st1'], (m2 st2) as [[b|e2|] st2'];
    cbn [fst snd] in *; try contradiction.
  - split; assumption.
  - subst e2. destruct e1; try (split; [assumption | reflexivity]).
    apply Hh. assumption.
  - split; [assumption | exact I].
Qed.

Lemma related_attempt_to_retrieve_results :
  related eq (_attempt_to_retrieve_results w)
             (_attempt_to_retrieve_results (with_tasks w answers)).
Proof.
  unfold _attempt_to_retrieve_results.
  apply related_except_APIError; [|now apply related_ret].
  eapply related_bind; [apply related_get_self|]. intros o1 o2 Ho.
  rewrite (osim_inv o1 o2 Ho). cbn [containers set_tasks].
  eapply related_bind; [apply related_copy_each|]. intros fc ? <-.
  destruct fc as [|v [|v' fc]]; now apply related_ret.
Qed.

Lemma related_wait_for_tasks (fuel : nat) :
  related eq (wait_for_tasks w fuel) (wait_for_tasks (with_tasks w answers) fuel).
Proof.
  induction fuel as [|fuel IH]; cbn [wait_for_tasks].
  - apply related_spin.
  - eapply related_bind; [apply related_service_id|]. intros sid ? <-.
    eapply related_bind; [apply related_cli_tasks|]. intros ts1 ts2 Hts.
    destruct ts1, ts2; cbn in Hts; try contradiction; [apply IH | now apply related_ret].
Qed.

Lemma related_wait_for_termination (fuel : nat) :
  related eq (wait_for_termination w fuel)
             (wait_for_termination (with_tasks w answers) fuel).
Proof.
  induction fuel as [|fuel IH]; cbn [wait_for_termination].
  - apply related_spin.
  - eapply related_bind; [apply related_has_service_terminated|]. intros finished ? <-.
    destruct finished; [|apply IH].
    eapply related_bind; [apply related_service_status|]. intros status ? <-.
    apply related_emit.
Qed.

Lemma related_harvest (ts1 ts2 : list TaskRecord) :
  Forall2 (fun a b => ContainerID a = ContainerID b) ts1 ts2 ->
  related eq (harvest w ts1) (harvest (with_tasks w answers) ts2).
Proof.
  induction 1 as [|t1 t2 r1 r2 Hc Hr IH]; cbn [harvest].
  - now apply related_ret.
  - rewrite Hc. destruct (ContainerID t2) as [cid|]; [|apply related_raise].
    eapply related_bind.
    { unfold cli_inspect_container. eapply related_bind; [apply related_emit|].
      intros _ _ _. now apply related_ret. }
    intros c ? <-.
    eapply related_bind.
    { apply related_modify_self. intros o1 o2 Ho.
      rewrite (osim_inv o1 o2 Ho). reflexivity. }
    intros _ _ _. apply IH.
Qed.

Lemma same_but_later_states_ids (ts1 ts2 : list TaskRecord) :
  same_but_later_states ts1 ts2 ->
  Forall2 (fun a b => ContainerID a = ContainerID b) ts1 ts2.
Proof.
  destruct ts1 as [|t1 r1], ts2 as [|t2 r2]; cbn; try contradiction.
  - constructor.
  - intros [<- Hr]. constructor; [reflexivity | exact Hr].
Qed.

Lemma related_run_service (fuel : nat) :
  related eq (_run_service w fuel) (_run_service (with_tasks w answers) fuel).
Proof.
  unfold _run_service.
  eapply related_bind; [apply related_get_self|]. intros o1 o2 Ho.
  rewrite (osim_inv o1 o2 Ho).
  cbn [base args enable_logging set_tasks with_tasks format_command].
  eapply related_bind; [apply related_emit|]. intros _ _ _.
  eapply related_bind; [apply related_lift|]. intros command' ? <-.
  eapply related_bind; [apply related_lift|]. intros args' ? <-.
  eapply related_bind.
  { unfold cli_create_service. eapply related_bind; [apply related_emit|].
    intros _ _ _. now apply related_ret. }
  intros created ? <-.
  eapply related_bind.
  { apply related_modify_self. intros p1 p2 Hp.
    rewrite (osim_inv p1 p2 Hp). reflexivity. }
  intros _ _ _.
  destruct created as [svc|]; [|apply related_raise].
  eapply related_bind; [apply related_emit|]. intros _ _ _.
  eapply related_bind; [apply related_wait_for_tasks|]. intros _ _ _.
  eapply related_bind.
  { destruct (enable_logging o2);
      [apply related_stream_logs_to_output | now apply related_ret]. }
  intros _ _ _.
  eapply related_bind; [apply related_wait_for_termination|]. intros _ _ _.
  eapply related_bind; [apply related_get_self|]. intros p1 p2 Hp.
  rewrite (osim_inv p1 p2 Hp). cbn [service set_tasks].
  eapply related_bind.
  { destruct (truthy_service (service p2)); [|now apply related_ret].
    eapply related_bind; [apply related_service_status|]. intros status ? <-.
    destruct (String.eqb status "complete"); [|now apply related_ret].
    eapply related_bind; [apply related_service_id|]. intros sid ? <-.
    eapply related_bind; [apply related_cli_tasks|]. intros ts1 ts2 Hts.
    eapply related_bind.
    { apply related_modify_self. intros q1 q2 Hq.
      rewrite (osim_inv q1 q2 Hq). reflexivity. }
    intros _ _ _. apply related_harvest. now apply same_but_later_states_ids. }
  intros _ _ _.
  eapply related_bind; [apply related_get_self|]. intros q1 q2 Hq.
  rewrite (osim_inv q1 q2 Hq). cbn [base service set_tasks].
  destruct (retrieve_output (base q2)); [apply related_attempt_to_retrieve_results|].
  eapply related_bind; [apply related_emit|]. intros _ _ _.
  eapply related_bind.
  { destruct (truthy_service (service q2)); [|now apply related_ret].
    eapply related_bind; [apply related_service_status|]. intros status ? <-.
    now apply related_ret. }
  intros failed ? <-.
  destruct failed.
  - eapply related_bind; [|intros _ _ _; apply related_raise].
    destruct (String.eqb (auto_remove (base q2)) "force"); [|now apply related_ret].
    eapply related_bind; [apply related_service_id|]. intros sid ? <-.
    apply related_emit.
  - destruct (Py.contains (auto_remove (base q2)) ["success"; "force"]);
      [|now apply related_ret].
    destruct (negb (truthy_service (service q2))); [apply related_raise|].
    eapply related_bind; [apply related_service_id|]. intros sid ? <-.
    eapply related_bind; [apply related_emit|]. intros _ _ _. now apply related_ret.
Qed.

End Agree.

Lemma rel_out_eq {A : Type} (r1 r2 : outcome A * state) :
  rel_out eq r1 r2 -> fst r1 = fst r2 /\ trace (snd r1) = trace (snd r2).
Proof.
  intros [(_ & Ht & _) Ho]. split; [|exact Ht].
  destruct (fst r1), (fst r2); try contradiction; congruence.
Qed.

(** C10: the status is the state of the first task record of the answer,
    and changing the states of the later records of every answer changes
    neither the termination check nor the outcome of a run (value returned or
    exception raised) nor its trace of client calls and log records. *)
Theorem first_task_decides
        (w : World) (answers : nat -> list TaskRecord) (fuel : nat) (st : state) :
  (forall n, same_but_later_states (tasks_resp w n) (answers n)) ->
  (forall svc t ts,
      service (self st) = Some svc -> tasks_resp w (polls st) = t :: ts ->
      fst (_service_status w st) = Ret (State t))
  /\ fst (_has_service_terminated (with_tasks w answers) st)
     = fst (_has_service_terminated w st)
  /\ fst (_run_service (with_tasks w answers) fuel st) = fst (_run_service w fuel st)
  /\ trace (snd (_run_service (with_tasks w answers) fuel st))
     = trace (snd (_run_service w fuel st)).
Proof.
  intros Hagree. split; [|split].
  - intros svc t ts Hsvc Hts. now rewrite (service_status_run w st svc Hsvc), Hts.
  - symmetry.
    apply (rel_out_eq _ _ (related_has_service_terminated w answers Hagree st st (sim_refl st))).
  - destruct (rel_out_eq _ _ (related_run_service w answers Hagree fuel st st (sim_refl st)))
      as [Ho Ht].
    split; symmetry; assumption.
Qed.

Lemma first_task_decides_witness :
  fst (_run_service (with_tasks (Example.world "failed") (Example.answers_later "failed"))
         10 (snd (__init__ (Example.kwargs "force" false true None) Example.start)))
  = fst (_run_service (Example.world "failed")
           10 (snd (__init__ (Example.kwargs "force" false true None) Example.start))).
Proof.
  apply (first_task_decides (Example.world "failed") (Example.answers_later "failed") 10
           (snd (__init__ (Example.kwargs "force" false true None) Example.start))).
  intros [|[|[|n]]]; cbn; repeat constructor.
Defined.

(** ** Executions without result retrieval *)

Lemma polled_polls (sid : string) (k : nat) :
  forall st, polls (polled sid k st) = polls st + k.
Proof.
  induction k as [|k IH]; intros st; cbn [polled]; [lia|].
  rewrite IH. cbn. lia.
Qed.

Lemma polled_self (sid : string) (k : nat) :
  forall st, self (polled sid k st) = self st.
Proof. induction k as [|k IH]; intros st; cbn [polled]; [reflexivity | now rewrite IH]. Qed.

Lemma polled_trace (sid : string) (k : nat) :
  forall st, trace (polled sid k st) = trace st ++ repeat (ListTasks sid) k.
Proof.
  induction k as [|k IH]; intros st; cbn [polled repeat].
  - now rewrite app_nil_r.
  - rewrite IH. cbn. now rewrite <- app_assoc.
Qed.

Lemma polled_succ (sid : string) (k : nat) (st : state) :
  polled sid (S k) st = next_poll (add_event (ListTasks sid) (polled sid k st)).
Proof.
  revert st. induction k as [|k IH]; intros st; [reflexivity|].
  change (polled sid (S (S k)) st)
    with (polled sid (S k) (next_poll (add_event (ListTasks sid) st))).
  rewrite IH. reflexivity.
Qed.

(** Waiting for the first task polls up to and including the poll [first]. *)
Lemma wait_for_tasks_run (w : World) (svc : ServiceHandle) (first : nat) :
  tasks_resp w first <> [] ->
  forall (fuel : nat) (st : state),
    service (self st) = Some svc ->
    (forall m, polls st <= m < first -> tasks_resp w m = []) ->
    polls st <= first -> first < polls st + fuel ->
    wait_for_tasks w fuel st = (Ret tt, polled (ID svc) (S first - polls st) st).
Proof.
  intros Hsome. induction fuel as [|fuel IH]; intros st Hsvc Hnone Hle Hfuel; [lia|].
  cbn [wait_for_tasks]. unfold service_id, cli_tasks. mred. rewrite Hsvc. mred.
  destruct (Nat.eq_dec (polls st) first) as [Heq|Hne].
  - rewrite Heq. destruct (tasks_resp w first) as [|t ts]; [contradiction|].
    replace (S first - first) with 1 by lia. reflexivity.
  - rewrite (Hnone (polls st)) by lia.
    rewrite IH.
    + replace (S first - polls st) with (S (first - polls st)) by lia.
      reflexivity.
    + exact Hsvc.
    + intros m Hm. apply Hnone. cbn in Hm. lia.
    + cbn. lia.
    + cbn. lia.
Qed.

(** Waiting for termination polls up to the poll [done], asks for the
    status once more, and logs it. *)
Lemma wait_for_termination_run (w : World) (svc : ServiceHandle)
      (done : nat) (final : string) :
  In final terminal_states ->
  (forall m, done <= m -> exists t ts, tasks_resp w m = t :: ts /\ State t = final) ->
  forall (fuel : nat) (st : state),
    service (self st) = Some svc ->
    (forall m, polls st <= m < done ->
               exists t ts, tasks_resp w m = t :: ts
                            /\ Py.contains (State t) terminal_states = false) ->
    polls st <= done -> done < polls st + fuel ->
    wait_for_termination w fuel st
    = (Ret tt,
       add_event (LogInfo ("Service status before exiting: " ++ final))
                 (polled (ID svc) (S (S done) - polls st) st)).
Proof.
  intros Hterm Hdone. induction fuel as [|fuel IH]; intros st Hsvc Hlive Hle Hfuel; [lia|].
  cbn [wait_for_termination]. mred.
  rewrite (has_service_terminated_run w st svc Hsvc).
  destruct (Nat.eq_dec (polls st) done) as [Heq|Hne].
  - destruct (Hdone (polls st)) as (t & ts & Ht & Hs); [lia|]. rewrite Ht, Hs.
    rewrite (proj2 (contains_In final terminal_states) Hterm).
    rewrite (service_status_run w _ svc) by exact Hsvc.
    destruct (Hdone (S (polls st))) as (t' & ts' & Ht' & Hs'); [lia|].
    cbn [polls next_poll add_event]. rewrite Ht', Hs'. unfold log_info. mred.
    replace (S (S done) - polls st) with 2 by lia. reflexivity.
  - destruct (Hlive (polls st)) as (t & ts & Ht & Hs); [lia|]. rewrite Ht, Hs.
    rewrite IH.
    + replace (S (S done) - polls st) with (S (S done - polls st)) by lia.
      reflexivity.
    + exact Hsvc.
    + intros m Hm. apply Hlive. cbn in Hm. lia.
    + cbn. lia.
    + cbn. lia.
Qed.

Lemma cleanup_polled (sid : string) (k : nat) (st : state) :
  filter cleanup (trace (polled sid k st)) = filter cleanup (trace st).
Proof.
  rewrite polled_trace, filter_app.
  replace (filter cleanup (repeat (ListTasks sid) k)) with (@nil event).
  - apply app_nil_r.
  - induction k as [|k IH]; [reflexivity | exact IH].
Qed.

Lemma cleanup_add_event (e : event) (st : state) :
  filter cleanup (trace (add_event e st))
  = filter cleanup (trace st) ++ (if cleanup e then [e] else []).
Proof. cbn [trace add_event]. rewrite filter_app. cbn. now destruct (cleanup e). Qed.

(** Harvesting inspects the container of every task, in order. *)
Lemma harvest_run (w : World) (ts : list TaskRecord) :
  forall (cids : list string) (st : state),
    container_ids ts = map Some cids ->
    exists st',
      harvest w ts st = (Ret tt, st')
      /\ service (self st') = service (self st)
      /\ base (self st') = base (self st)
      /\ polls st' = polls st
      /\ trace st' = trace st ++ map InspectContainer cids.
Proof.
  induction ts as [|t ts IH]; intros cids st Hids.
  - destruct cids; [|discriminate]. exists st. cbn. now rewrite app_nil_r.
  - destruct cids as [|cid cids]; [discriminate|].
    cbn [container_ids map] in Hids. injection Hids as Hcid Hrest.
    cbn [harvest]. rewrite Hcid. unfold cli_inspect_container. mred.
    destruct (IH cids
                (update_self
                   (fun o => set_containers o (containers o ++ [inspect_resp w cid]))
                   (add_event (InspectContainer cid) st)) Hrest)
      as (st' & Hrun & Hsvc & Hbase & Hpolls & Htrace).
    exists st'. rewrite Hrun. repeat split; try assumption.
    rewrite Htrace. cbn. now rewrite <- app_assoc.
Qed.

Lemma cleanup_inspections (cids : list string) :
  filter cleanup (map InspectContainer cids) = map InspectContainer cids.
Proof. induction cids as [|c cids IH]; cbn; [reflexivity | now rewrite IH]. Qed.

Section Outcome.

Variable w : World.
Variable st : state.
Variable svc : ServiceHandle.
Variables command' args' : args_t.
Variables first done : nat.
Variable final : string.
Variable fuel : nat.

Hypothesis no_logging : enable_logging (self st) = false.
Hypothesis command_ok : format_command w (command (base (self st))) = inr command'.
Hypothesis args_ok : format_args (args (self st)) = inr args'.
Hypothesis created :
  create_service_resp w (service_spec w (self st) command' args') = Some svc.
Hypothesis observed : history w (polls st) first done final.
Hypothesis terminal : In final terminal_states.
Hypothesis enough : done < polls st + fuel.

(** The run up to the end of the polling loops: the service exists, the
    polls up to [done] and two more are consumed, nothing is inspected or
    removed. *)
Ltac through_the_polls :=
  let Horder := fresh "Horder" in
  let Hnone := fresh "Hnone" in
  let Hsome := fresh "Hsome" in
  let Hlive := fresh "Hlive" in
  let Hdone := fresh "Hdone" in
  destruct observed as [Horder Hnone Hsome Hlive Hdone];
  unfold _run_service; mred; rewrite command_ok; mred; rewrite args_ok; mred;
  unfold cli_create_service; mred; rewrite created; mred;
  rewrite no_logging;
  match goal with
  | |- context [wait_for_tasks w fuel ?s] =>
      let st1 := fresh "st1" in
      let Hself := fresh "Hself" in
      let Hpolls := fresh "Hpolls" in
      let Hclean := fresh "Hclean" in
      set (st1 := s);
      assert (self st1 = set_service (self st) (Some svc)) as Hself by reflexivity;
      assert (polls st1 = polls st) as Hpolls by reflexivity;
      assert (filter cleanup (trace st1) = filter cleanup (trace st)) as Hclean
        by (unfold st1; rewrite cleanup_add_event; cbn [trace add_event update_self];
            rewrite !filter_app; cbn; now rewrite !app_nil_r);
      clearbody st1;
      rewrite (wait_for_tasks_run w svc first Hsome fuel st1)
        by (rewrite ?Hself, ?Hpolls; first [reflexivity | exact Hnone | lia]);
      rewrite (wait_for_termination_run w svc done final terminal Hdone fuel)
        by (rewrite ?polled_self, ?polled_polls, ?Hself, ?Hpolls;
            first [reflexivity | lia | intros; apply Hlive; lia]);
      set (reached := add_event _ (polled _ _ (polled _ _ st1)));
      assert (self reached = set_service (self st) (Some svc)) as Hself'
        by (unfold reached; cbn [self add_event]; now rewrite !polled_self);
      assert (polls reached = S (S done)) as Hpolls'
        by (unfold reached; cbn [polls add_event]; rewrite !polled_polls; lia);
      assert (filter cleanup (trace reached) = filter cleanup (trace st)) as Hclean'
        by (unfold reached; rewrite cleanup_add_event, !cleanup_polled; cbn;
            now rewrite app_nil_r);
      clearbody reached; clear Hself Hpolls Hclean st1
  end.

Ltac status_poll :=
  match goal with
  | Hs : self ?reached = set_service (self st) (Some svc),
    Hp : polls ?reached = S (S done),
    Hd : forall m, done <= m -> _ |- context [_service_status w ?s] =>
      rewrite (service_status_run w s svc)
        by (cbn [self next_poll add_event update_self]; rewrite Hs; reflexivity);
      cbn [polls next_poll add_event update_self]; rewrite ?Hp;
      match goal with
      | |- context [tasks_resp w ?m] =>
          let t := fresh "t" in
          let ts := fresh "ts" in
          let Ht := fresh "Ht" in
          let Hst := fresh "Hst" in
          destruct (Hd m) as (t & ts & Ht & Hst); [lia|];
          rewrite Ht; cbv beta iota; rewrite ?Hst
      end
  end.

(** X1 (what C1 states, on the path without result retrieval): a service
    that ends in a terminal state other than "complete" is removed when the
    policy is "force", and the task-failure error is raised whatever the
    policy. *)
Theorem run_service_failure :
  retrieve_output (base (self st)) = false ->
  final <> "complete" ->
  fst (_run_service w fuel st)
  = Raise (AirflowException ("Service did not complete: " ++ repr_service svc))
  /\ filter cleanup (trace (snd (_run_service w fuel st)))
     = filter cleanup (trace st)
       ++ (if String.eqb (auto_remove (base (self st))) "force"
           then [RemoveService (ID svc)] else []).
Proof.
  intros no_retrieval Hfinal.
  through_the_polls.
  rewrite !Hself'. cbn [service set_service].
  status_poll. destruct (String.eqb_spec final "complete") as [Heq|_]; [contradiction|].
  cbn [self next_poll add_event]. rewrite !Hself'.
  cbn [base service set_service]. rewrite no_retrieval.
  unfold log_info. mred.
  status_poll. destruct (String.eqb_spec final "complete") as [Heq|_]; [contradiction|].
  cbn [negb].
  destruct (String.eqb (auto_remove (base (self st))) "force").
  - unfold service_id, cli_remove_service. mred.
    cbn [self next_poll add_event]. rewrite !Hself'. cbn [service set_service]. mred.
    cbn [fst snd]. split; [reflexivity|].
    rewrite !cleanup_add_event. cbn [trace next_poll].
    rewrite !cleanup_add_event. cbn [trace next_poll].
    rewrite !cleanup_add_event, Hclean'. cbn. now rewrite !app_nil_r.
  - cbn [fst snd]. split; [reflexivity|].
    cbn [trace next_poll].
    rewrite !cleanup_add_event. cbn [trace next_poll].
    rewrite !cleanup_add_event, Hclean'. cbn. now rewrite !app_nil_r.
Qed.

(** X2 (what C5 states, on the path without result retrieval): a service
    that ends in "complete" under the policy "success" or "force" is removed
    exactly once, after the container of every task has been inspected. *)
Theorem run_service_success (cids : list string) :
  retrieve_output (base (self st)) = false ->
  final = "complete" ->
  In (auto_remove (base (self st))) ["success"; "force"] ->
  container_ids (tasks_resp w (S (S (S done)))) = map Some cids ->
  fst (_run_service w fuel st) = Ret PyNone
  /\ filter cleanup (trace (snd (_run_service w fuel st)))
     = filter cleanup (trace st) ++ map InspectContainer cids ++ [RemoveService (ID svc)].
Proof.
  intros no_retrieval Hfinal Hpolicy Hids.
  through_the_polls.
  rewrite !Hself'. cbn [service set_service].
  status_poll. rewrite Hfinal. cbn [String.eqb Ascii.eqb Bool.eqb].
  unfold service_id, cli_tasks. mred.
  cbn [self polls next_poll add_event]. rewrite !Hself'.
  cbn [service set_service]. mred.
  cbn [polls next_poll add_event]. rewrite !Hpolls'.
  match goal with
  | |- context [harvest w _ ?s] =>
      destruct (harvest_run w (tasks_resp w (S (S (S done)))) cids s Hids)
        as (st5 & Hrun & Hsvc5 & Hbase5 & Hpolls5 & Htrace5)
  end.
  rewrite Hrun.
  cbn [self polls trace next_poll add_event update_self service base set_tasks] in *.
  rewrite Hself', Hpolls' in *. cbn [service base set_service] in *.
  rewrite Hsvc5, Hbase5, no_retrieval. unfold log_info. mred.
  rewrite (service_status_run w _ svc) by exact Hsvc5.
  cbn [polls add_event]. rewrite Hpolls5.
  destruct (Hdone (S (S (S (S done))))) as (t' & ts' & Ht' & Hst'); [lia|].
  rewrite Ht'. cbv beta iota. rewrite Hst', Hfinal.
  cbn [String.eqb Ascii.eqb Bool.eqb negb].
  rewrite (proj2 (contains_In _ _) Hpolicy).
  unfold service_id, cli_remove_service. mred.
  cbn [self next_poll add_event]. rewrite Hsvc5. mred.
  cbn [fst snd]. split; [reflexivity|].
  rewrite !cleanup_add_event. cbn [trace next_poll].
  rewrite !cleanup_add_event, Htrace5, !filter_app, cleanup_inspections, Hclean'.
  cbn. now rewrite !app_nil_r, <- app_assoc.
Qed.

(** X3: with result retrieval the same failing service goes unreported: the
    run returns what retrieval returns, here the empty list, raises nothing,
    and removes nothing, whatever the policy. *)
Theorem run_service_failure_with_retrieval :
  retrieve_output (base (self st)) = true ->
  containers (self st) = [] ->
  final <> "complete" ->
  fst (_run_service w fuel st) = Ret (PyList [])
  /\ filter cleanup (trace (snd (_run_service w fuel st))) = filter cleanup (trace st).
Proof.
  intros Hretrieve Hempty Hfinal.
  through_the_polls.
  rewrite !Hself'. cbn [service set_service].
  status_poll. destruct (String.eqb_spec final "complete") as [Heq|_]; [contradiction|].
  cbn [self next_poll add_event]. rewrite !Hself'.
  cbn [base service set_service]. rewrite Hretrieve.
  unfold _attempt_to_retrieve_results, except_APIError. mred.
  cbn [self next_poll add_event]. rewrite !Hself'.
  cbn [containers set_service]. rewrite Hempty. cbn [copy_each]. mred.
  cbn [fst snd]. split; [reflexivity|].
  cbn [trace next_poll]. rewrite cleanup_add_event, Hclean'. cbn. now rewrite app_nil_r.
Qed.

End Outcome.

Lemma example_history (final : string) :
  history (Example.world final) 0 1 3 final.
Proof.
  constructor.
  - lia.
  - intros m Hm. assert (m = 0) as -> by lia. reflexivity.
  - discriminate.
  - intros m Hm. assert (m = 2) as -> by lia. eexists _, _. split; reflexivity.
  - intros m Hm. destruct m as [|[|[|m]]]; try lia. eexists _, _. split; reflexivity.
Defined.

Lemma run_service_failure_witness :
  fst (_run_service (Example.world "failed") 10
         (snd (__init__ (Example.kwargs "force" false false None) Example.start)))
  = Raise (AirflowException "Service did not complete: {'ID': 'svc1'}")
  /\ filter cleanup
       (trace (snd (_run_service (Example.world "failed") 10
                      (snd (__init__ (Example.kwargs "force" false false None)
                                     Example.start)))))
     = [RemoveService "svc1"].
Proof.
  apply (run_service_failure (Example.world "failed")
           (snd (__init__ (Example.kwargs "force" false false None) Example.start))
           {| ID := "svc1" |} ArgsNone (ArgsList ["--flag"; "value"]) 1 3 "failed" 10).
  - reflexivity.
  - reflexivity.
  - reflexivity.
  - reflexivity.
  - apply example_history.
  - cbn. tauto.
  - cbn. lia.
  - reflexivity.
  - discriminate.
Defined.

Lemma run_service_success_witness :
  fst (_run_service (Example.world "complete") 10
         (snd (__init__ (Example.kwargs "success" false false None) Example.start)))
  = Ret PyNone
  /\ filter cleanup
       (trace (snd (_run_service (Example.world "complete") 10
                      (snd (__init__ (Example.kwargs "success" false false None)
                                     Example.start)))))
     = [InspectContainer "c1"; InspectContainer "c2"; RemoveService "svc1"].
Proof.
  apply (run_service_success (Example.world "complete")
           (snd (__init__ (Example.kwargs "success" false false None) Example.start))
           {| ID := "svc1" |} ArgsNone (ArgsList ["--flag"; "value"]) 1 3 "complete" 10)
    with (cids := ["c1"; "c2"]).
  - reflexivity.
  - reflexivity.
  - reflexivity.
  - reflexivity.
  - apply example_history.
  - cbn. tauto.
  - cbn. lia.
  - reflexivity.
  - reflexivity.
  - cbn. tauto.
  - reflexivity.
Defined.

Lemma run_service_failure_with_retrieval_witness :
  fst (_run_service (Example.world "failed") 10
         (snd (__init__ (Example.kwargs "force" true false None) Example.start)))
  = Ret (PyList [])
  /\ filter cleanup
       (trace (snd (_run_service (Example.world "failed") 10
                      (snd (__init__ (Example.kwargs "force" true false None)
                                     Example.start)))))
     = [].
Proof.
  apply (run_service_failure_with_retrieval (Example.world "failed")
           (snd (__init__ (Example.kwargs "force" true false None) Example.start))
           {| ID := "svc1" |} ArgsNone (ArgsList ["--flag"; "value"]) 1 3 "failed" 10).
  - reflexivity.
  - reflexivity.
  - reflexivity.
  - reflexivity.
  - apply example_history.
  - cbn. tauto.
  - cbn. lia.
  - reflexivity.
  - reflexivity.
  - discriminate.
Defined.

(** ** Failure reporting and removal on concrete executions *)

(** C1 (failing input): the first task ends in "failed", the policy is
    "force" and result retrieval is requested.  The run returns the empty
    list of results: no task-failure error is raised and the service is not
    removed.  The same execution without result retrieval removes the
    service and raises. *)
Theorem failed_service_with_retrieval_returns :
  fst (Example.run (Example.world "failed")
         (Example.kwargs "force" true false None) 10)
  = Ret (PyList [])
  /\ filter is_remove
       (trace (snd (Example.run (Example.world "failed")
                      (Example.kwargs "force" true false None) 10)))
     = []
  /\ fst (Example.run (Example.world "failed")
            (Example.kwargs "force" false false None) 10)
     = Raise (AirflowException "Service did not complete: {'ID': 'svc1'}")
  /\ filter is_remove
       (trace (snd (Example.run (Example.world "failed")
                      (Example.kwargs "force" false false None) 10)))
     = [RemoveService "svc1"].
Proof.
  repeat split; vm_compute; reflexivity.
Qed.

(** C5 (failing input): the first task ends in "complete", the policy is
    "force" and result retrieval is requested.  The containers are harvested
    and their results returned, but the service is never removed.  The same
    execution without result retrieval removes it once, after the harvest. *)
Theorem complete_service_with_retrieval_is_kept :
  fst (Example.run (Example.world "complete")
         (Example.kwargs "force" true false None) 10)
  = Ret (PyList [PyStr "c1:/out"; PyStr "c2:/out"])
  /\ filter (fun e => is_inspect e || is_remove e)
       (trace (snd (Example.run (Example.world "complete")
                      (Example.kwargs "force" true false None) 10)))
     = [InspectContainer "c1"; InspectContainer "c2"]
  /\ fst (Example.run (Example.world "complete")
            (Example.kwargs "force" false false None) 10)
     = Ret PyNone
  /\ filter (fun e => is_inspect e || is_remove e)
       (trace (snd (Example.run (Example.world "complete")
                      (Example.kwargs "force" false false None) 10)))
     = [InspectContainer "c1"; InspectContainer "c2"; RemoveService "svc1"].
Proof.
  repeat split; vm_compute; reflexivity.
Qed.

(** ** Log de-duplication *)

Lemma contains_app_here (x : string) (pre post : list string) :
  Py.contains x (pre ++ x :: post) = true.
Proof. apply contains_In, in_or_app. right. left. reflexivity. Qed.

Lemma index_first (x : string) (pre post : list string) :
  ~ In x pre -> Py.index x (pre ++ x :: post) = Some (List.length pre).
Proof.
  induction pre as [|y pre IH]; intros Hnot; cbn [app Py.index List.length].
  - now rewrite String.eqb_refl.
  - destruct (String.eqb_spec y x) as [->|Hne].
    + exfalso. apply Hnot. left. reflexivity.
    + rewrite IH; [reflexivity|]. intros Hin. apply Hnot. right. exact Hin.
Qed.

Lemma drop_seen_first (last : string) (pre post : list string) :
  ~ In last pre -> drop_seen last (pre ++ last :: post) = inr post.
Proof.
  intros Hnot. unfold drop_seen, Py.slice_from.
  rewrite contains_app_here, (index_first last pre post Hnot).
  f_equal. rewrite Nat.add_1_r.
  induction pre as [|y pre IH]; cbn [app List.length skipn]; [reflexivity|].
  apply IH. intros Hin. apply Hnot. right. exact Hin.
Qed.

Lemma drop_seen_absent (last : string) (logs : list string) :
  ~ In last logs -> drop_seen last logs = inr logs.
Proof.
  intros Hnot. unfold drop_seen.
  now rewrite (proj2 (contains_false last logs) Hnot).
Qed.

(** The variables [line], [timestamp] left bound by the loop over [logs]. *)
Lemma log_lines_run (logs : list string) :
  Forall well_formed logs ->
  forall bound st,
    log_lines logs bound st
    = (Ret (fold_left (fun _ line => Some (line, timestamp_of line)) logs bound),
       add_events (map (fun line => LogInfo (message_of line)) logs) st).
Proof.
  induction 1 as [|line rest Hline Hrest IH]; intros bound st.
  - cbn. now rewrite add_events_nil.
  - cbn [log_lines fold_left map]. unfold well_formed in Hline.
    destruct (Re.re_match LOG_LINE line) as [[groups tail]|] eqn:E; [|congruence].
    assert (Hm : message_of line = nth 1 groups "") by (unfold message_of; now rewrite E).
    assert (Ht : timestamp_of line = nth 0 groups "") by (unfold timestamp_of; now rewrite E).
    rewrite Hm, Ht. unfold log_info. mred.
    rewrite IH, add_event_events, add_events_app. reflexivity.
Qed.

(** C6 (as amended): when the line logged last occurs in the new batch, the
    batch is cut after the first occurrence of that line, and the records
    logged for the fetch are exactly the messages of the lines that follow. *)
Theorem stream_new_logs_drops_seen
        (w : World) (st : state) (svc : ServiceHandle)
        (last : string) (since : cursor) (pre post : list string) :
  service (self st) = Some svc ->
  logs_resp w (fetches st) = pre ++ last :: post ->
  ~ In last pre ->
  Forall well_formed post ->
  drop_seen last (pre ++ last :: post) = inr post
  /\ trace (snd (stream_new_logs w last since st))
     = trace st
       ++ ServiceLogs (ID svc) (tty (base (self st))) since
       :: map (fun line => LogInfo (message_of line)) post.
Proof.
  intros Hsvc Hlogs Hnot Hpost.
  split; [exact (drop_seen_first last pre post Hnot)|].
  unfold stream_new_logs, service_id, cli_service_logs. mred.
  rewrite Hsvc. mred. rewrite Hlogs, (drop_seen_first last pre post Hnot). mred.
  rewrite (log_lines_run post Hpost).
  assert (Htrace : forall st0, trace (add_events (map (fun line => LogInfo (message_of line)) post)
                          (next_fetch (add_event (ServiceLogs (ID svc) (tty (base (self st))) since) st0)))
                 = trace st0 ++ ServiceLogs (ID svc) (tty (base (self st))) since
                   :: map (fun line => LogInfo (message_of line)) post).
  { intros st0. cbn. now rewrite <- app_assoc. }
  destruct (Nat.eqb (List.length post) 0); [apply Htrace|].
  destruct (fold_left _ post None) as [[line timestamp]|]; [|apply Htrace].
  destruct (Datetime.strptime _); apply Htrace.
Qed.

Lemma stream_new_logs_drops_seen_witness :
  drop_seen Example.hello ([] ++ Example.hello :: [Example.world_line])
  = inr [Example.world_line]
  /\ trace (snd (stream_new_logs (Example.world "complete") Example.hello CursorZero
                   (next_fetch (Example.created "never" false))))
     = trace (next_fetch (Example.created "never" false))
       ++ ServiceLogs "svc1" false CursorZero
       :: map (fun line => LogInfo (message_of line)) [Example.world_line].
Proof.
  apply (stream_new_logs_drops_seen
           (Example.world "complete") (next_fetch (Example.created "never" false))
           {| ID := "svc1" |} Example.hello CursorZero [] [Example.world_line]).
  - reflexivity.
  - reflexivity.
  - intros [].
  - constructor; [|constructor]. unfold well_formed. vm_compute. discriminate.
Defined.

(** C6 (as stated) fails: the line logged last occurs twice in the new
    batch; only its first occurrence is dropped and the line is logged again. *)
Lemma repeated_line_is_logged_again :
  logs_resp Example.stutter 0 = [Example.hello; Example.hello]
  /\ message_of Example.hello = "hello"
  /\ fst (stream_new_logs Example.stutter Example.hello CursorZero
            (Example.created "never" false))
     = Ret (Example.hello,
            CursorAt (Datetime.mk_datetime 2024 1 1 0 0 0 123456))
  /\ trace (snd (stream_new_logs Example.stutter Example.hello CursorZero
                   (Example.created "never" false)))
     = [ServiceLogs "svc1" false CursorZero; LogInfo "hello"].
Proof.
  split; [reflexivity | split; [reflexivity | split; vm_compute; reflexivity]].
Qed.

(** ** Matching, compositionally *)

Lemma length_append (a b : string) :
  String.length (a ++ b) = String.length a + String.length b.
Proof. induction a as [|c a IH]; cbn; [reflexivity | now rewrite IH]. Qed.

Lemma substring_prefix (a b : string) : substring 0 (String.length a) (a ++ b) = a.
Proof. induction a as [|c a IH]; cbn; [now destruct b | now rewrite IH]. Qed.

Lemma consumed_app (a rest : string) : Re.consumed (a ++ rest) rest = a.
Proof.
  unfold Re.consumed. rewrite length_append.
  replace (String.length a + String.length rest - String.length rest)
    with (String.length a) by lia.
  apply substring_prefix.
Qed.

Lemma takes_lit (c : ascii) : takes (Re.Lit c) (String c "") [] anything.
Proof.
  intros R rest caps k x _ Hk. cbn. rewrite Ascii.eqb_refl.
  now rewrite app_nil_r in Hk.
Qed.

Lemma takes_cls (p : ascii -> bool) (c : ascii) :
  p c = true -> takes (Re.Cls p) (String c "") [] anything.
Proof.
  intros Hp R rest caps k x _ Hk. cbn. rewrite Hp.
  now rewrite app_nil_r in Hk.
Qed.

Lemma rep_greedy_takes (R : Type) (p : ascii -> bool) (ds : string) :
  all_chars p ds = true ->
  forall (lo : nat) (hi : option nat) (rest : string) (k : string -> option R) (x : R),
    lo <= String.length ds ->
    match hi with Some h => String.length ds <= h | None => True end ->
    hi = Some (String.length ds) \/ stops p rest ->
    k rest = Some x ->
    Re.rep_greedy p lo hi (ds ++ rest) k = Some x.
Proof.
  induction ds as [|c ds IH]; intros Hall lo hi rest k x Hlo Hhi Hstop Hk.
  - cbn in Hlo. assert (lo = 0) by lia. subst lo. cbn [String.append].
    destruct rest as [|c rest]; cbn.
    + destruct hi as [[|h]|]; exact Hk.
    + destruct hi as [[|h]|]; try exact Hk.
      * destruct Hstop as [Hhi'|Hp]; [discriminate|]. cbn in Hp. now rewrite Hp.
      * destruct Hstop as [Hhi'|Hp]; [discriminate|]. cbn in Hp. now rewrite Hp.
  - cbn in Hall. apply andb_prop in Hall as [Hc Hds].
    cbn [String.append String.length] in *.
    destruct hi as [[|h]|]; cbv beta iota in Hhi; [lia| |].
    + cbn. rewrite Hc.
      rewrite (IH Hds (pred lo) (Some h) rest k x); try reflexivity; try lia.
      * destruct Hstop as [Hhi'|Hp];
          [left; injection Hhi' as ->; reflexivity | right; exact Hp].
      * exact Hk.
    + cbn. rewrite Hc.
      rewrite (IH Hds (pred lo) None rest k x); try reflexivity; try lia.
      * destruct Hstop as [Hhi'|Hp]; [discriminate | right; exact Hp].
      * exact Hk.
Qed.

(** An exact count takes its characters whatever follows. *)
Lemma takes_exactly (p : ascii -> bool) (ds : string) :
  all_chars p ds = true ->
  takes (Re.Rep p (String.length ds) (Some (String.length ds))) ds [] anything.
Proof.
  intros Hall R rest caps k x _ Hk. cbn [Re.mtch].
  apply rep_greedy_takes; auto. now rewrite app_nil_r in Hk.
Qed.

(** An open count takes its characters when no further one follows. *)
Lemma takes_greedy (p : ascii -> bool) (lo : nat) (hi : option nat) (ds : string) :
  all_chars p ds = true ->
  lo <= String.length ds ->
  match hi with Some h => String.length ds <= h | None => True end ->
  takes (Re.Rep p lo hi) ds [] (stops p).
Proof.
  intros Hall Hlo Hhi R rest caps k x Hstop Hk. cbn [Re.mtch].
  apply rep_greedy_takes; auto. now rewrite app_nil_r in Hk.
Qed.

Lemma takes_seq (r1 r2 : Re.regex) (a b : string) (g1 g2 : list string)
      (P1 P2 : string -> Prop) :
  takes r1 a g1 P1 -> takes r2 b g2 P2 ->
  (forall rest, P2 rest -> P1 (b ++ rest)%string) ->
  takes (Re.Seq r1 r2) (a ++ b) (g1 ++ g2) P2.
Proof.
  intros H1 H2 HP R rest caps k x Hrest Hk. cbn [Re.mtch].
  rewrite append_assoc. apply H1; [now apply HP|].
  apply H2; [exact Hrest|]. now rewrite <- app_assoc.
Qed.

Lemma takes_group (r : Re.regex) (a : string) (P : string -> Prop) :
  takes r a [] P -> takes (Re.Grp r) a [a] P.
Proof.
  intros H R rest caps k x Hrest Hk. cbn [Re.mtch].
  apply H; [exact Hrest|]. now rewrite app_nil_r, consumed_app.
Qed.

Lemma takes_weaken (r : Re.regex) (a : string) (gs : list string)
      (P Q : string -> Prop) :
  (forall rest, Q rest -> P rest) -> takes r a gs P -> takes r a gs Q.
Proof. intros HPQ H R rest caps k x Hrest Hk. apply H; auto. Qed.

(** What [re.match] returns for a pattern that takes [a]. *)
Lemma takes_match (r : Re.regex) (a rest : string) (gs : list string)
      (P : string -> Prop) :
  takes r a gs P -> P rest -> Re.re_match r (a ++ rest) = Some (gs, rest).
Proof. intros H Hrest. unfold Re.re_match. now apply H. Qed.

(** ** Decimal digits *)

Lemma digit_cases (x : Z) (P : Z -> Prop) :
  P 0%Z -> P 1%Z -> P 2%Z -> P 3%Z -> P 4%Z -> P 5%Z -> P 6%Z -> P 7%Z -> P 8%Z -> P 9%Z ->
  P (x mod 10)%Z.
Proof.
  intros H0 H1 H2 H3 H4 H5 H6 H7 H8 H9.
  pose proof (Z.mod_pos_bound x 10 eq_refl) as Hb.
  assert (Hc : (x mod 10 = 0 \/ x mod 10 = 1 \/ x mod 10 = 2 \/ x mod 10 = 3
                \/ x mod 10 = 4 \/ x mod 10 = 5 \/ x mod 10 = 6 \/ x mod 10 = 7
                \/ x mod 10 = 8 \/ x mod 10 = 9)%Z) by lia.
  destruct Hc as [E|[E|[E|[E|[E|[E|[E|[E|[E|E]]]]]]]]]; rewrite E; assumption.
Qed.

Lemma is_digit_digit_char (x : Z) : Py.is_digit (Stamp.digit_char (x mod 10)) = true.
Proof. apply (digit_cases x (fun d => Py.is_digit (Stamp.digit_char d) = true)); reflexivity. Qed.

Lemma digit_char_not_dot (x : Z) : Ascii.eqb "." (Stamp.digit_char (x mod 10)) = false.
Proof.
  apply (digit_cases x (fun d => Ascii.eqb "." (Stamp.digit_char d) = false)); reflexivity.
Qed.

Lemma digit_value_digit_char (x : Z) :
  Py.digit_value (Stamp.digit_char (x mod 10)) = (x mod 10)%Z.
Proof.
  apply (digit_cases x (fun d => Py.digit_value (Stamp.digit_char d) = d)); reflexivity.
Qed.

Lemma all_chars_pad (w : nat) (n : Z) : all_chars Py.is_digit (Stamp.pad w n) = true.
Proof.
  induction w as [|w IH]; cbn [Stamp.pad all_chars]; [reflexivity|].
  now rewrite is_digit_digit_char, IH.
Qed.

Lemma length_pad (w : nat) (n : Z) : String.length (Stamp.pad w n) = w.
Proof. induction w as [|w IH]; cbn [Stamp.pad String.length]; [reflexivity | now rewrite IH]. Qed.

Lemma pad_split (a b : nat) (n : Z) :
  Stamp.pad (a + b) n = (Stamp.pad a (n / 10 ^ Z.of_nat b) ++ Stamp.pad b n)%string.
Proof.
  induction a as [|a IH]; cbn [Nat.add Stamp.pad String.append]; [reflexivity|].
  rewrite IH. f_equal. f_equal. f_equal.
  assert (Ha : (0 < 10 ^ Z.of_nat a)%Z) by (apply Z.pow_pos_nonneg; lia).
  assert (Hb : (0 < 10 ^ Z.of_nat b)%Z) by (apply Z.pow_pos_nonneg; lia).
  rewrite Z.div_div by lia.
  rewrite <- Z.pow_add_r by lia. f_equal. f_equal. lia.
Qed.

Lemma int_acc_pad (w : nat) :
  forall (acc n : Z),
    Py.int_acc acc (Stamp.pad w n) = (acc * 10 ^ Z.of_nat w + n mod 10 ^ Z.of_nat w)%Z.
Proof.
  induction w as [|w IH]; intros acc n; cbn [Stamp.pad Py.int_acc].
  - cbn. rewrite Z.mod_1_r. lia.
  - rewrite IH, digit_value_digit_char.
    replace (Z.of_nat (S w)) with (Z.of_nat w + 1)%Z by lia.
    rewrite Z.pow_add_r by lia. change (10 ^ 1)%Z with 10%Z.
    assert (Hpos : (0 < 10 ^ Z.of_nat w)%Z) by (apply Z.pow_pos_nonneg; lia).
    rewrite (Z.rem_mul_r n (10 ^ Z.of_nat w) 10) by lia. lia.
Qed.

Lemma int_pad (w : nat) (n : Z) :
  (0 <= n < 10 ^ Z.of_nat w)%Z -> Py.int (Stamp.pad w n) = n.
Proof.
  intros Hn. unfold Py.int. rewrite int_acc_pad, Z.mod_small by exact Hn. lia.
Qed.

(** ** The line pattern on a printed stamp *)

Lemma takes_seq0 (r1 r2 : Re.regex) (a b : string) (gs : list string)
      (P1 P2 : string -> Prop) :
  takes r1 a [] P1 -> takes r2 b gs P2 ->
  (forall rest, P2 rest -> P1 (b ++ rest)%string) ->
  takes (Re.Seq r1 r2) (a ++ b) gs P2.
Proof. intros H1 H2 HP. exact (takes_seq r1 r2 a b [] gs P1 P2 H1 H2 HP). Qed.

Lemma takes_seq1 (r1 r2 : Re.regex) (a b g : string) (gs : list string)
      (P1 P2 : string -> Prop) :
  takes r1 a [g] P1 -> takes r2 b gs P2 ->
  (forall rest, P2 rest -> P1 (b ++ rest)%string) ->
  takes (Re.Seq r1 r2) (a ++ b) (g :: gs) P2.
Proof. intros H1 H2 HP. exact (takes_seq r1 r2 a b [g] gs P1 P2 H1 H2 HP). Qed.

Lemma takes_digits (w : nat) (n : Z) : takes (Re.digits w) (Stamp.pad w n) [] anything.
Proof.
  pose proof (takes_exactly Py.is_digit (Stamp.pad w n) (all_chars_pad w n)) as H.
  rewrite length_pad in H. exact H.
Qed.

Lemma anything_holds (s : string) : anything s.
Proof. exact I. Qed.

#[local] Hint Resolve anything_holds : core.

Lemma takes_stamp (fraction : string) (s : Stamp.stamp) :
  all_chars Py.is_digit fraction = true ->
  6 <= String.length fraction ->
  takes (Re.seq [Re.digits 4; Re.Lit "-"; Re.digits 2; Re.Lit "-"; Re.digits 2;
                 Re.Lit "T"; Re.digits 2; Re.Lit ":"; Re.digits 2; Re.Lit ":";
                 Re.digits 2; Re.Cls Py.not_newline; Re.digits_from 6; Re.Lit "Z"])
        (Stamp.text fraction s) [] anything.
Proof.
  intros Hall Hlen. unfold Stamp.text. cbn [Re.seq].
  repeat (first
    [ eapply takes_seq0;
      [ first [ apply takes_digits | apply takes_lit
              | apply takes_cls; reflexivity
              | apply (takes_greedy Py.is_digit 6 None fraction Hall Hlen I) ]
      | | try (intros; exact I); try (intros rest _; reflexivity) ]
    | apply takes_lit ]).
Qed.

Lemma first_line_split (s : string) : (first_line s ++ after_first_line s)%string = s.
Proof.
  induction s as [|c s IH]; cbn; [reflexivity|].
  destruct (Py.not_newline c); cbn; [now rewrite IH | reflexivity].
Qed.

Lemma all_chars_first_line (s : string) : all_chars Py.not_newline (first_line s) = true.
Proof.
  induction s as [|c s IH]; cbn; [reflexivity|].
  destruct (Py.not_newline c) eqn:E; cbn; [now rewrite E, IH | reflexivity].
Qed.

Lemma stops_after_first_line (s : string) : stops Py.not_newline (after_first_line s).
Proof.
  induction s as [|c s IH]; cbn; [exact I|].
  destruct (Py.not_newline c) eqn:E; [exact IH | exact E].
Qed.

(** A line made of a printed stamp, a space and a body matches the line
    pattern: the first group is the stamp, the second the body up to its
    first line feed. *)
Lemma match_log_line (fraction : string) (s : Stamp.stamp) (body : string) :
  all_chars Py.is_digit fraction = true ->
  6 <= String.length fraction ->
  Re.re_match LOG_LINE (Stamp.text fraction s ++ " " ++ body)
  = Some ([Stamp.text fraction s; first_line body], after_first_line body).
Proof.
  intros Hall Hlen.
  rewrite <- (first_line_split body) at 1.
  assert (H : takes LOG_LINE (Stamp.text fraction s ++ " " ++ first_line body)
                    [Stamp.text fraction s; first_line body] (stops Py.not_newline)).
  { unfold LOG_LINE. cbn [Re.seq].
    eapply takes_seq1; [apply takes_group, takes_stamp; assumption | | intros; exact I].
    eapply takes_seq0; [apply takes_lit | | intros; exact I].
    apply takes_group, takes_greedy; [apply all_chars_first_line | lia | exact I]. }
  pose proof (takes_match _ _ (after_first_line body) _ _ H (stops_after_first_line body)) as Hm.
  rewrite !append_assoc in Hm. exact Hm.
Qed.

(** ** Flooring to microseconds *)

Lemma submicrosecond_starts_with_dot (c : ascii) (s : string) :
  Ascii.eqb "." c = false -> Re.re_match SUBMICROSECOND (String c s) = None.
Proof.
  intros Hc. unfold Re.re_match, SUBMICROSECOND. cbn [Re.seq Re.mtch].
  now rewrite Hc.
Qed.

Lemma sub_from_prefix (repl : list string -> string) (pre : string) :
  all_chars no_dot pre = true ->
  forall rest,
    Re.sub_from SUBMICROSECOND repl 0 (pre ++ rest)
    = (pre ++ Re.sub_from SUBMICROSECOND repl 0 rest)%string.
Proof.
  induction pre as [|c pre IH]; intros Hall rest; [reflexivity|].
  cbn [all_chars] in Hall. apply andb_prop in Hall as [Hc Hpre].
  unfold no_dot in Hc. apply negb_true_iff in Hc.
  cbn [String.append Re.sub_from].
  rewrite (submicrosecond_starts_with_dot c (pre ++ rest) Hc).
  now rewrite IH.
Qed.

Lemma sub_from_skip_all (r : Re.regex) (repl : list string -> string) (s : string) :
  Re.re_match r "" = None ->
  Re.sub_from r repl (String.length s) s = "".
Proof.
  intros Hnone. induction s as [|c s IH]; cbn [String.length Re.sub_from].
  - now rewrite Hnone.
  - exact IH.
Qed.

Lemma sub_from_whole (r : Re.regex) (repl : list string -> string)
      (c : ascii) (s : string) (gs : list string) :
  Re.re_match r (String c s) = Some (gs, "") ->
  Re.re_match r "" = None ->
  Re.sub_from r repl 0 (String c s) = repl gs.
Proof.
  intros Hm Hnone. cbn [Re.sub_from]. rewrite Hm. cbn [String.length Nat.sub].
  now rewrite (sub_from_skip_all r repl s Hnone), append_empty_r.
Qed.

Lemma no_dot_pad (w : nat) (n : Z) : all_chars no_dot (Stamp.pad w n) = true.
Proof.
  induction w as [|w IH]; cbn [Stamp.pad all_chars]; [reflexivity|].
  unfold no_dot at 1. now rewrite digit_char_not_dot, IH.
Qed.

Lemma match_submicrosecond (ns : Z) :
  Re.re_match SUBMICROSECOND ("." ++ Stamp.pad 9 ns ++ "Z")
  = Some (["." ++ Stamp.pad 6 (ns / 1000)], "")%string.
Proof.
  change 9 with (6 + 3). rewrite pad_split. change (10 ^ Z.of_nat 3)%Z with 1000%Z.
  assert (H : takes SUBMICROSECOND
                    (("." ++ Stamp.pad 6 (ns / 1000)) ++ Stamp.pad 3 ns ++ "Z")
                    ["." ++ Stamp.pad 6 (ns / 1000)]%string anything).
  { unfold SUBMICROSECOND. cbn [Re.seq].
    eapply takes_seq1.
    - apply takes_group. eapply takes_seq0; [apply takes_lit | apply takes_digits | auto].
    - eapply takes_seq0.
      + apply takes_greedy; [apply all_chars_pad | rewrite length_pad; lia | exact I].
      + apply takes_lit.
      + intros rest _. reflexivity.
    - intros; exact I. }
  pose proof (takes_match _ _ "" _ _ H I) as Hm.
  rewrite append_empty_r, !append_assoc in Hm. exact Hm.
Qed.

(** The nine printed digits are cut to six. *)
Lemma floor_nanos (s : Stamp.stamp) :
  Re.re_sub SUBMICROSECOND keep_microseconds (Stamp.nanos s) = Stamp.micros s.
Proof.
  unfold Re.re_sub, Stamp.nanos, Stamp.micros, Stamp.text.
  repeat (rewrite sub_from_prefix by (first [apply no_dot_pad | reflexivity])).
  cbn [String.append].
  rewrite (sub_from_whole SUBMICROSECOND keep_microseconds "."
             (Stamp.pad 9 (Stamp.s_nanosecond s) ++ "Z")
             ["." ++ Stamp.pad 6 (Stamp.s_nanosecond s / 1000)]%string
             (match_submicrosecond (Stamp.s_nanosecond s)) eq_refl).
  reflexivity.
Qed.

(** ** Parsing the floored stamp *)

Lemma in_range (n : nat) (v : Z) :
  (0 <= v < Z.of_nat n)%Z -> In v (map Z.of_nat (seq 0 n)).
Proof.
  intros Hv. apply in_map_iff. exists (Z.to_nat v). split; [lia|].
  apply in_seq. lia.
Qed.

Ltac by_cases_below n v Hv :=
  assert (0 <= v < Z.of_nat n)%Z by (cbn; lia);
  revert Hv; pattern v;
  apply (proj1 (Forall_forall _ (map Z.of_nat (seq 0 n))));
  [ cbn [map seq Z.of_nat Pos.of_succ_nat Pos.succ];
    repeat apply Forall_cons; try apply Forall_nil
  | apply in_range; cbn; lia ].

Ltac field_case :=
  intros R rest caps k x _ Hk; rewrite app_nil_r in Hk;
  cbn; rewrite ?Hk; reflexivity.

Lemma takes_year (y : Z) :
  takes Datetime.re_Y (Stamp.pad 4 y) [Stamp.pad 4 y] anything.
Proof.
  unfold Datetime.re_Y. apply takes_group.
  intros R rest caps k x _ Hk. rewrite app_nil_r in Hk.
  cbn [Re.seq Re.mtch Re.digit Stamp.pad String.append].
  now rewrite !is_digit_digit_char.
Qed.

Lemma takes_month (m : Z) :
  (1 <= m <= 12)%Z -> takes Datetime.re_m (Stamp.pad 2 m) [Stamp.pad 2 m] anything.
Proof.
  intros Hm. unfold Datetime.re_m. apply takes_group.
  by_cases_below 13%nat m Hm; intros Hm; try lia; field_case.
Qed.

Lemma takes_day (d : Z) :
  (1 <= d <= 31)%Z -> takes Datetime.re_d (Stamp.pad 2 d) [Stamp.pad 2 d] anything.
Proof.
  intros Hd. unfold Datetime.re_d. apply takes_group.
  by_cases_below 32%nat d Hd; intros Hd; try lia; field_case.
Qed.

Lemma takes_hour (h : Z) :
  (0 <= h <= 23)%Z -> takes Datetime.re_H (Stamp.pad 2 h) [Stamp.pad 2 h] anything.
Proof.
  intros Hh. unfold Datetime.re_H. apply takes_group.
  by_cases_below 24%nat h Hh; intros Hh; field_case.
Qed.

Lemma takes_minute (m : Z) :
  (0 <= m <= 59)%Z -> takes Datetime.re_M (Stamp.pad 2 m) [Stamp.pad 2 m] anything.
Proof.
  intros Hm. unfold Datetime.re_M. apply takes_group.
  by_cases_below 60%nat m Hm; intros Hm; field_case.
Qed.

Lemma takes_second (s : Z) :
  (0 <= s <= 59)%Z -> takes Datetime.re_S (Stamp.pad 2 s) [Stamp.pad 2 s] anything.
Proof.
  intros Hs. unfold Datetime.re_S. apply takes_group.
  by_cases_below 60%nat s Hs; intros Hs; field_case.
Qed.

Lemma days_in_month_le_31 (y m : Z) : (Datetime.days_in_month y m <= 31)%Z.
Proof.
  unfold Datetime.days_in_month.
  destruct (m =? 2)%Z; [destruct (Datetime.is_leap y); lia|].
  destruct ((m =? 4) || (m =? 6) || (m =? 9) || (m =? 11))%Z; lia.
Qed.

Lemma match_format (s : Stamp.stamp) :
  Stamp.valid s ->
  Re.re_match Datetime.format_regex (Stamp.micros s)
  = Some ([Stamp.pad 4 (Stamp.s_year s); Stamp.pad 2 (Stamp.s_month s);
           Stamp.pad 2 (Stamp.s_day s); Stamp.pad 2 (Stamp.s_hour s);
           Stamp.pad 2 (Stamp.s_minute s); Stamp.pad 2 (Stamp.s_second s);
           Stamp.pad 6 (Stamp.s_nanosecond s / 1000)], "").
Proof.
  intros (Hy & Hm & Hd & Hh & Hmi & Hs & Hn).
  pose proof (days_in_month_le_31 (Stamp.s_year s) (Stamp.s_month s)) as Hd31.
  assert (H : takes Datetime.format_regex (Stamp.micros s)
                [Stamp.pad 4 (Stamp.s_year s); Stamp.pad 2 (Stamp.s_month s);
                 Stamp.pad 2 (Stamp.s_day s); Stamp.pad 2 (Stamp.s_hour s);
                 Stamp.pad 2 (Stamp.s_minute s); Stamp.pad 2 (Stamp.s_second s);
                 Stamp.pad 6 (Stamp.s_nanosecond s / 1000)] anything).
  { unfold Datetime.format_regex, Stamp.micros, Stamp.text. cbn [Re.seq].
    repeat (first
      [ eapply takes_seq1;
        [ first [ apply takes_year | apply takes_month; lia | apply takes_day; lia
                | apply takes_hour; lia | apply takes_minute; lia
                | apply takes_second; lia
                | apply takes_group;
                  apply (takes_greedy (Py.char_in "0" "9") 1 (Some 6)
                           (Stamp.pad 6 (Stamp.s_nanosecond s / 1000)));
                  [ exact (all_chars_pad 6 (Stamp.s_nanosecond s / 1000))
                  | rewrite length_pad; lia | rewrite length_pad; lia ] ]
        | | first [ intros; exact I | intros rest _; reflexivity ] ]
      | eapply takes_seq0;
        [ first [ apply takes_lit | apply takes_cls; reflexivity ]
        | | intros; exact I ]
      | apply takes_cls; reflexivity ]). }
  pose proof (takes_match _ _ "" _ _ H I) as Hmatch.
  now rewrite append_empty_r in Hmatch.
Qed.

Lemma int_field_pad (w : nat) (n : Z) :
  Datetime.int_field (Stamp.pad (S w) n) = Py.int (Stamp.pad (S w) n).
Proof.
  cbn [Stamp.pad].
  apply (digit_cases (n / 10 ^ Z.of_nat w)
           (fun d => Datetime.int_field (String (Stamp.digit_char d) (Stamp.pad w n))
                     = Py.int (String (Stamp.digit_char d) (Stamp.pad w n))));
    reflexivity.
Qed.

(** The floored stamp parses, to the fields it was printed from. *)
Lemma strptime_micros (s : Stamp.stamp) :
  Stamp.valid s ->
  Datetime.strptime (Stamp.micros s) = inr (Stamp.to_datetime s).
Proof.
  intros Hvalid. unfold Datetime.strptime. rewrite (match_format s Hvalid).
  destruct Hvalid as (Hy & Hm & Hd & Hh & Hmi & Hs & Hn).
  cbv beta iota zeta.
  rewrite !int_field_pad, length_pad.
  cbn [Nat.sub Py.repeat_char]. rewrite append_empty_r.
  pose proof (days_in_month_le_31 (Stamp.s_year s) (Stamp.s_month s)) as Hd31.
  change (10 ^ 9)%Z with 1000000000%Z in Hn.
  assert (Hus : (0 <= Stamp.s_nanosecond s / 1000 < 1000000)%Z).
  { split; [apply Z.div_pos; lia | apply Z.div_lt_upper_bound; lia]. }
  rewrite (int_pad 4 (Stamp.s_year s)) by (change (10 ^ Z.of_nat 4)%Z with 10000%Z; lia).
  rewrite !(int_pad 2) by (change (10 ^ Z.of_nat 2)%Z with 100%Z; lia).
  rewrite (int_pad 6) by (change (10 ^ Z.of_nat 6)%Z with 1000000%Z; lia).
  replace (1 <=? Stamp.s_year s)%Z with true by (symmetry; apply Z.leb_le; lia).
  replace (Stamp.s_day s <=? _)%Z with true by (symmetry; apply Z.leb_le; lia).
  replace (Stamp.s_second s <=? 59)%Z with true by (symmetry; apply Z.leb_le; lia).
  reflexivity.
Qed.

(** ** The cursor after a fetch *)

Lemma drop_seen_cons (last e : string) (rest : list string) :
  e <> last ->
  drop_seen last (e :: rest)
  = if Py.contains last rest then drop_seen last rest else inr (e :: rest).
Proof.
  intros Hne. unfold drop_seen. cbn [Py.contains Py.index].
  destruct (String.eqb_spec e last) as [Heq|_]; [contradiction|].
  destruct (Py.contains last rest); [|reflexivity].
  destruct (Py.index last rest) as [i|]; reflexivity.
Qed.

(** Unless it is the line logged last, the final line of a batch survives
    the cut, together with a part of the lines before it. *)
Lemma drop_seen_keeps_last (last line : string) (earlier : list string) :
  last <> line ->
  exists kept,
    drop_seen last (earlier ++ [line]) = inr (kept ++ [line])
    /\ (forall P : string -> Prop, Forall P earlier -> Forall P kept).
Proof.
  intros Hne. induction earlier as [|e es (kept & Hkept & Hall)].
  - exists []. split; [|auto]. cbn [app]. apply drop_seen_absent.
    intros [H|[]]. congruence.
  - destruct (String.eqb_spec e last) as [->|Hne'].
    + exists es. split.
      * exact (drop_seen_first last [] (es ++ [line]) (fun H => H)).
      * intros P HP. now inversion HP.
    + cbn [app]. rewrite (drop_seen_cons last e (es ++ [line]) Hne').
      destruct (Py.contains last (es ++ [line])) eqn:Hin.
      * exists kept. split; [exact Hkept|]. intros P HP. inversion HP. auto.
      * exists (e :: kept). split.
        -- unfold drop_seen in Hkept. rewrite Hin in Hkept.
           injection Hkept as ->. reflexivity.
        -- intros P HP. inversion HP. constructor; auto.
Qed.



(** ** What an execution can add to the trace *)

Lemma bind_run {A B : Type} (m : M A) (f : A -> M B) (st st' : state) (a : A) :
  m st = (Ret a, st') -> bind m f st = f a st'.
Proof. intros H. unfold bind. now rewrite H. Qed.

Lemma filter_none {A : Type} (p : A -> bool) (l : list A) :
  List.length (filter p l) <= 0 -> filter p l = [].
Proof. destruct (filter p l); cbn; [reflexivity | lia]. Qed.

Lemma adds_weaken {A : Type} (J : DockerSwarmOperator -> Prop) (p : event -> bool)
      (n n' : nat) (m : M A) :
  n <= n' -> adds J p n m -> adds J p n' m.
Proof.
  intros Hle Hm st HJ. destruct (Hm st HJ) as (Hb & es & Ht & Hn).
  split; [exact Hb|]. exists es. split; [exact Ht | lia].
Qed.

Lemma adds_bind {A B : Type} (J : DockerSwarmOperator -> Prop) (p : event -> bool)
      (n1 n2 : nat) (m : M A) (f : A -> M B) :
  adds J p n1 m -> (forall a, adds J p n2 (f a)) -> adds J p (n1 + n2) (bind m f).
Proof.
  intros Hm Hf st HJ. unfold bind.
  destruct (Hm st HJ) as (Hb & es & Ht & Hn).
  destruct (m st) as [[a|e|] st1]; cbn [fst snd] in *.
  - destruct (Hf a st1 Hb) as (Hb' & es' & Ht' & Hn').
    split; [exact Hb'|]. exists (es ++ es'). split.
    + rewrite Ht', Ht. now rewrite app_assoc.
    + rewrite filter_app, length_app. lia.
  - split; [exact Hb|]. exists es. split; [exact Ht | lia].
  - split; [exact Hb|]. exists es. split; [exact Ht | lia].
Qed.

(** Sequencing when one of the two parts adds nothing of the class. *)
Lemma adds_then {A B : Type} (J : DockerSwarmOperator -> Prop) (p : event -> bool)
      (n : nat) (m : M A) (f : A -> M B) :
  adds J p 0 m -> (forall a, adds J p n (f a)) -> adds J p n (bind m f).
Proof. intros Hm Hf. exact (adds_bind J p 0 n m f Hm Hf). Qed.

Lemma adds_first {A B : Type} (J : DockerSwarmOperator -> Prop) (p : event -> bool)
      (n : nat) (m : M A) (f : A -> M B) :
  adds J p n m -> (forall a, adds J p 0 (f a)) -> adds J p n (bind m f).
Proof.
  intros Hm Hf. apply (adds_weaken J p (n + 0) n); [lia|].
  exact (adds_bind J p n 0 m f Hm Hf).
Qed.

Lemma adds_nothing {A : Type} (J : DockerSwarmOperator -> Prop) (p : event -> bool)
      (n : nat) (m : M A) :
  (forall st, snd (m st) = st) -> adds J p n m.
Proof.
  intros Hm st HJ. rewrite Hm. split; [exact HJ|].
  exists []. split; [now rewrite app_nil_r | cbn; lia].
Qed.

Lemma adds_ret {A : Type} (J : DockerSwarmOperator -> Prop) (p : event -> bool)
      (n : nat) (a : A) : adds J p n (ret a).
Proof. now apply adds_nothing. Qed.

Lemma adds_raise {A : Type} (J : DockerSwarmOperator -> Prop) (p : event -> bool)
      (n : nat) (e : exn) : adds J p n (@raise A e).
Proof. now apply adds_nothing. Qed.

Lemma adds_spin {A : Type} (J : DockerSwarmOperator -> Prop) (p : event -> bool)
      (n : nat) : adds J p n (@spin A).
Proof. now apply adds_nothing. Qed.

Lemma adds_lift {A : Type} (J : DockerSwarmOperator -> Prop) (p : event -> bool)
      (n : nat) (r : exn + A) : adds J p n (lift r).
Proof. destruct r; [apply adds_raise | apply adds_ret]. Qed.

(** What follows a read of [self] may rely on the invariant. *)
Lemma adds_self {B : Type} (J : DockerSwarmOperator -> Prop) (p : event -> bool)
      (n : nat) (f : DockerSwarmOperator -> M B) :
  (forall o, J o -> adds J p n (f o)) -> adds J p n (bind get_self f).
Proof. intros Hf st HJ. exact (Hf (self st) HJ st HJ). Qed.

Lemma adds_emit (J : DockerSwarmOperator -> Prop) (p : event -> bool) (e : event) :
  adds J p (if p e then 1 else 0) (emit e).
Proof.
  intros st HJ. split; [exact HJ|]. exists [e]. split; [reflexivity|].
  cbn. destruct (p e); cbn; lia.
Qed.

Lemma adds_emit0 (J : DockerSwarmOperator -> Prop) (p : event -> bool) (n : nat)
      (e : event) :
  p e = false -> adds J p n (emit e).
Proof.
  intros He. apply (adds_weaken J p 0 n); [lia|].
  pose proof (adds_emit J p e) as H. now rewrite He in H.
Qed.

Lemma adds_modify_self (J : DockerSwarmOperator -> Prop) (p : event -> bool) (n : nat)
      (f : DockerSwarmOperator -> DockerSwarmOperator) :
  (forall o, J o -> J (f o)) -> adds J p n (modify_self f).
Proof.
  intros Hf st HJ. split; [apply Hf, HJ|].
  exists []. split; [cbn; now rewrite app_nil_r | cbn; lia].
Qed.

Lemma adds_service_id (J : DockerSwarmOperator -> Prop) (p : event -> bool) (n : nat) :
  adds J p n service_id.
Proof.
  apply adds_nothing. intros st. unfold service_id. mred.
  now destruct (service (self st)).
Qed.

Lemma adds_except {A : Type} (J : DockerSwarmOperator -> Prop) (p : event -> bool)
      (n : nat) (m h : M A) :
  adds J p n m -> adds J p 0 h -> adds J p n (except_APIError m h).
Proof.
  intros Hm Hh st HJ. unfold except_APIError.
  destruct (Hm st HJ) as (Hb & es & Ht & Hn).
  destruct (m st) as [[a|e|] st1]; cbn [fst snd] in *;
    try (split; [exact Hb|]; exists es; split; [exact Ht | lia]).
  destruct e; try (split; [exact Hb|]; exists es; split; [exact Ht | lia]).
  destruct (Hh st1 Hb) as (Hb' & es' & Ht' & Hn').
  split; [exact Hb'|]. exists (es ++ es'). split.
  - rewrite Ht', Ht. now rewrite app_assoc.
  - rewrite filter_app, length_app. lia.
Qed.

Section Adds.

Variable J : DockerSwarmOperator -> Prop.
Variable p : event -> bool.
Variable w : World.

Hypothesis p_tasks : forall sid, p (ListTasks sid) = false.
Hypothesis p_logs : forall sid t c, p (ServiceLogs sid t c) = false.
Hypothesis p_info : forall msg, p (LogInfo msg) = false.
Hypothesis p_sleep : forall z, p (Sleep z) = false.
Hypothesis p_inspect : forall cid, p (InspectContainer cid) = false.
Hypothesis J_tasks : forall o ts, J o -> J (set_tasks o ts).
Hypothesis J_containers : forall o cs, J o -> J (set_containers o cs).

Lemma adds_cli_tasks (sid : string) : adds J p 0 (cli_tasks w sid).
Proof.
  intros st HJ. split; [exact HJ|]. exists [ListTasks sid].
  split; [reflexivity|]. cbn. now rewrite p_tasks.
Qed.

Lemma adds_cli_service_logs (sid : string) (t : bool) (c : cursor) :
  adds J p 0 (cli_service_logs w sid t c).
Proof.
  intros st HJ. split; [exact HJ|]. exists [ServiceLogs sid t c].
  split; [reflexivity|]. cbn. now rewrite p_logs.
Qed.

Lemma adds_service_status : adds J p 0 (_service_status w).
Proof.
  unfold _service_status. apply adds_self. intros o _.
  destruct (negb (truthy_service (service o))); [apply adds_raise|].
  apply adds_then; [apply adds_service_id | intros sid].
  apply adds_then; [apply adds_cli_tasks | intros ts].
  destruct ts; [apply adds_raise | apply adds_ret].
Qed.

Lemma adds_has_service_terminated : adds J p 0 (_has_service_terminated w).
Proof.
  unfold _has_service_terminated.
  apply adds_then; [apply adds_service_status | intros s; apply adds_ret].
Qed.

Lemma adds_log_lines (logs : list string) :
  forall bound, adds J p 0 (log_lines logs bound).
Proof.
  induction logs as [|line rest IH]; intros bound; cbn [log_lines].
  - apply adds_ret.
  - destruct (Re.re_match LOG_LINE line) as [[groups tail]|]; [|apply adds_raise].
    apply adds_then; [apply adds_emit0, p_info | intros _; apply IH].
Qed.

Lemma adds_stream_new_logs (last : string) (since : cursor) :
  adds J p 0 (stream_new_logs w last since).
Proof.
  unfold stream_new_logs.
  apply adds_then; [apply adds_service_id | intros sid].
  apply adds_self. intros o _.
  apply adds_then; [apply adds_cli_service_logs | intros fetched].
  apply adds_then; [apply adds_lift | intros logs].
  apply adds_then; [apply adds_log_lines | intros bound].
  destruct (Nat.eqb (List.length logs) 0); [apply adds_ret|].
  destruct bound as [[line timestamp]|]; [|apply adds_raise].
  apply adds_then; [apply adds_lift | intros dt; apply adds_ret].
Qed.

Lemma adds_stream_loop (fuel : nat) :
  forall last since, adds J p 0 (stream_loop w fuel last since).
Proof.
  induction fuel as [|fuel IH]; intros last since; cbn [stream_loop].
  - apply adds_spin.
  - apply adds_then; [apply adds_has_service_terminated | intros finished].
    destruct finished; [apply adds_ret|].
    apply adds_then; [apply adds_emit0, p_sleep | intros _].
    apply adds_then; [apply adds_stream_new_logs | intros [line stamp]].
    apply IH.
Qed.

Lemma adds_stream_logs_to_output (fuel : nat) :
  adds J p 0 (_stream_logs_to_output w fuel).
Proof.
  unfold _stream_logs_to_output. apply adds_self. intros o _.
  destruct (negb (truthy_service (service o))); [apply adds_raise|].
  apply adds_stream_loop.
Qed.

Lemma adds_wait_for_tasks (fuel : nat) : adds J p 0 (wait_for_tasks w fuel).
Proof.
  induction fuel as [|fuel IH]; cbn [wait_for_tasks].
  - apply adds_spin.
  - apply adds_then; [apply adds_service_id | intros sid].
    apply adds_then; [apply adds_cli_tasks | intros ts].
    destruct ts; [apply IH | apply adds_ret].
Qed.

Lemma adds_wait_for_termination (fuel : nat) :
  adds J p 0 (wait_for_termination w fuel).
Proof.
  induction fuel as [|fuel IH]; cbn [wait_for_termination].
  - apply adds_spin.
  - apply adds_then; [apply adds_has_service_terminated | intros finished].
    destruct finished; [|apply IH].
    apply adds_then; [apply adds_service_status | intros status].
    apply adds_emit0, p_info.
Qed.

Lemma adds_harvest (ts : list TaskRecord) : adds J p 0 (harvest w ts).
Proof.
  induction ts as [|t ts IH]; cbn [harvest].
  - apply adds_ret.
  - destruct (ContainerID t) as [cid|]; [|apply adds_raise].
    apply adds_then.
    { unfold cli_inspect_container.
      apply adds_then; [apply adds_emit0, p_inspect | intros _; apply adds_ret]. }
    intros c. apply adds_then; [|intros _; apply IH].
    apply adds_modify_self. intros o Ho. apply J_containers, Ho.
Qed.

Lemma adds_copy_each (n : nat) (cs : list ContainerRecord) :
  (forall cid path, p (CopyFromDocker cid path) = false) ->
  forall acc, adds J p n (copy_each w cs acc).
Proof.
  intros p_copy. induction cs as [|c cs IH]; intros acc; cbn [copy_each].
  - apply adds_ret.
  - apply adds_self. intros o _.
    apply adds_then; [|intros v; apply IH].
    unfold _copy_from_docker.
    apply adds_then; [apply adds_emit0, p_copy | intros _; apply adds_lift].
Qed.

Lemma adds_attempt_to_retrieve_results (n : nat) :
  (forall cid path, p (CopyFromDocker cid path) = false) ->
  adds J p n (_attempt_to_retrieve_results w).
Proof.
  intros p_copy. unfold _attempt_to_retrieve_results.
  apply adds_except; [|apply adds_ret].
  apply adds_self. intros o _.
  apply adds_then; [apply adds_copy_each, p_copy | intros vs].
  destruct vs as [|v [|v' vs]]; apply adds_ret.
Qed.

End Adds.

Section AfterCreation.

Variable w : World.
Variable p : event -> bool.
Variable svc : ServiceHandle.
Variable b : DockerOperator.
Variable r : nat.

Hypothesis p_tasks : forall sid, p (ListTasks sid) = false.
Hypothesis p_logs : forall sid t c, p (ServiceLogs sid t c) = false.
Hypothesis p_info : forall msg, p (LogInfo msg) = false.
Hypothesis p_sleep : forall z, p (Sleep z) = false.
Hypothesis p_inspect : forall cid, p (InspectContainer cid) = false.
Hypothesis p_copy :
  retrieve_output b = true -> forall cid path, p (CopyFromDocker cid path) = false.
Hypothesis p_remove :
  retrieve_output b = false -> (if p (RemoveService (ID svc)) then 1 else 0) <= r.

(** After the creation the operator holds the handle it was given, and the
    inherited attributes stay as they are. *)
Let J (o : DockerSwarmOperator) : Prop := service o = Some svc /\ base o = b.

Lemma adds_own_service_id {B : Type} (n : nat) (f : string -> M B) :
  adds J p n (f (ID svc)) -> adds J p n (bind service_id f).
Proof.
  intros Hf st HJ. unfold service_id, bind, get_self.
  destruct HJ as [Hs Hb]. rewrite Hs. apply Hf. split; assumption.
Qed.

Lemma adds_remove_own :
  retrieve_output b = false -> adds J p r (cli_remove_service (ID svc)).
Proof.
  intros Hr. apply (adds_weaken J p (if p (RemoveService (ID svc)) then 1 else 0) r).
  - exact (p_remove Hr).
  - apply adds_emit.
Qed.

Lemma run_service_after_creation (fuel : nat) (st : state) (c a : args_t) :
  base (self st) = b ->
  format_command w (command (base (self st))) = inr c ->
  format_args (args (self st)) = inr a ->
  create_service_resp w (service_spec w (self st) c a) = Some svc ->
  J (self (snd (_run_service w fuel st)))
  /\ exists es,
       trace (snd (_run_service w fuel st))
       = trace st
         ++ LogInfo ("Starting docker service from image " ++ image (base (self st)))
         :: CreateService (service_spec w (self st) c a)
         :: LogInfo ("Service started: " ++ repr_service svc)
         :: es
       /\ List.length (filter p es) <= r.
Proof.
  intros Hb Hc Ha Hcreate. unfold _run_service.
  rewrite (bind_run get_self _ st st (self st) eq_refl).
  erewrite (bind_run (log_info _)); [|reflexivity].
  rewrite Hc. erewrite (bind_run (lift _)); [|reflexivity].
  rewrite Ha. erewrite (bind_run (lift _)); [|reflexivity].
  erewrite (bind_run (cli_create_service _ _)); [|reflexivity].
  rewrite Hcreate.
  erewrite (bind_run (modify_self _)); [|reflexivity].
  erewrite (bind_run (log_info _)); [|reflexivity].
  match goal with
  | |- context [snd (bind ?m ?f ?s)] =>
      assert (Hadds : adds J p r (bind m f)); [|destruct (Hadds s) as (HJ & es & Ht & Hn)]
  end.
  - assert (J_tasks : forall o ts, J o -> J (set_tasks o ts)) by (intros o ts Ho; exact Ho).
    assert (J_containers : forall o cs, J o -> J (set_containers o cs))
      by (intros o cs Ho; exact Ho).
    apply adds_then; [now apply adds_wait_for_tasks | intros _].
    apply adds_then.
    { destruct (enable_logging (self st));
        [now apply adds_stream_logs_to_output | apply adds_ret]. }
    intros _.
    apply adds_then; [now apply adds_wait_for_termination | intros _].
    apply adds_self. intros o2 _.
    apply adds_then.
    { destruct (truthy_service (service o2)); [|apply adds_ret].
      apply adds_then; [now apply adds_service_status | intros status].
      destruct (String.eqb status "complete"); [|apply adds_ret].
      apply adds_then; [apply adds_service_id | intros sid].
      apply adds_then; [now apply adds_cli_tasks | intros ts].
      apply adds_then; [apply adds_modify_self; intros o Ho; exact Ho | intros _].
      now apply adds_harvest. }
    intros _. apply adds_self. intros o3 [Hs3 Hb3]. rewrite Hb3.
    case_eq (retrieve_output b); intros Hr.
    + apply adds_attempt_to_retrieve_results; auto.
    + apply adds_then; [apply adds_emit0, p_info | intros _].
      apply adds_then.
      { destruct (truthy_service (service o3)); [|apply adds_ret].
        apply adds_then; [now apply adds_service_status | intros status; apply adds_ret]. }
      intros failed. destruct failed.
      * apply adds_first; [|intros _; apply adds_raise].
        destruct (String.eqb (auto_remove b) "force"); [|apply adds_ret].
        apply adds_own_service_id. now apply adds_remove_own.
      * destruct (Py.contains (auto_remove b) ["success"; "force"]); [|apply adds_ret].
        destruct (negb (truthy_service (service o3))); [apply adds_raise|].
        apply adds_own_service_id.
        apply adds_first; [now apply adds_remove_own | intros _; apply adds_ret].
  - split; [reflexivity | exact Hb].
  - split; [exact HJ|]. exists es. split; [|exact Hn].
    rewrite Ht. cbn [trace add_event update_self]. rewrite <- !app_assoc. reflexivity.
Qed.

End AfterCreation.

Lemma bind_raise {A B : Type} (m : M A) (f : A -> M B) (st st' : state) (e : exn) :
  m st = (Raise e, st') -> bind m f st = (Raise e, st').
Proof. intros H. unfold bind. now rewrite H. Qed.

(** What [_run_service] does when the command or the arguments cannot be
    formatted, or when the client hands back no service. *)
Lemma run_service_no_command (w : World) (fuel : nat) (st : state) (e : exn) :
  format_command w (command (base (self st))) = inl e ->
  _run_service w fuel st
  = (Raise e,
     add_event (LogInfo ("Starting docker service from image " ++ image (base (self st))))
               st).
Proof.
  intros Hc. unfold _run_service.
  rewrite (bind_run get_self _ st st (self st) eq_refl).
  erewrite (bind_run (log_info _)); [|reflexivity].
  rewrite Hc. erewrite (bind_raise (lift _)); [|reflexivity]. reflexivity.
Qed.

Lemma run_service_no_args (w : World) (fuel : nat) (st : state) (c : args_t) (e : exn) :
  format_command w (command (base (self st))) = inr c ->
  format_args (args (self st)) = inl e ->
  _run_service w fuel st
  = (Raise e,
     add_event (LogInfo ("Starting docker service from image " ++ image (base (self st))))
               st).
Proof.
  intros Hc Ha. unfold _run_service.
  rewrite (bind_run get_self _ st st (self st) eq_refl).
  erewrite (bind_run (log_info _)); [|reflexivity].
  rewrite Hc. erewrite (bind_run (lift _)); [|reflexivity].
  rewrite Ha. erewrite (bind_raise (lift _)); [|reflexivity]. reflexivity.
Qed.

Lemma run_service_no_handle (w : World) (fuel : nat) (st : state) (c a : args_t) :
  format_command w (command (base (self st))) = inr c ->
  format_args (args (self st)) = inr a ->
  create_service_resp w (service_spec w (self st) c a) = None ->
  _run_service w fuel st
  = (Raise (RuntimeError "Service should be set here"),
     update_self (fun o => set_service o None)
       (add_events
          [LogInfo ("Starting docker service from image " ++ image (base (self st)));
           CreateService (service_spec w (self st) c a)] st)).
Proof.
  intros Hc Ha Hcreate. unfold _run_service.
  rewrite (bind_run get_self _ st st (self st) eq_refl).
  erewrite (bind_run (log_info _)); [|reflexivity].
  rewrite Hc. erewrite (bind_run (lift _)); [|reflexivity].
  rewrite Ha. erewrite (bind_run (lift _)); [|reflexivity].
  erewrite (bind_run (cli_create_service _ _)); [|reflexivity].
  rewrite Hcreate.
  erewrite (bind_run (modify_self _)); [|reflexivity].
  unfold raise, update_self, add_events, add_event. cbn [self trace polls fetches].
  now rewrite <- app_assoc.
Qed.

Lemma removes_only (sid : string) (es : list event) :
  List.length (filter is_remove es) <= 1 ->
  List.length (filter (removes_other sid) es) <= 0 ->
  filter is_remove es = [] \/ filter is_remove es = [RemoveService sid].
Proof.
  intros Hone Hother. apply filter_none in Hother.
  destruct (filter is_remove es) as [|e [|e' rest]] eqn:Hf; cbn in Hone; try lia.
  - now left.
  - right. assert (Hin : In e (filter is_remove es)) by (rewrite Hf; now left).
    apply filter_In in Hin as [Hin He].
    assert (Hno : removes_other sid e = false).
    { destruct (removes_other sid e) eqn:Hr; [|reflexivity].
      assert (Hin' : In e (filter (removes_other sid) es))
        by (apply filter_In; split; assumption).
      rewrite Hother in Hin'. destruct Hin'. }
    destruct e; try discriminate He.
    cbn [removes_other] in Hno. apply negb_false_iff, String.eqb_eq in Hno. now subst.
Qed.

(** X4: whatever the orchestrator answers and however the run ends, one
    execution of [_run_service] creates at most one service, and the only
    service it may remove, at most once and after the creation, is the one
    the client returned for that creation. *)
Theorem run_service_touches_only_its_service (w : World) (fuel : nat) (st : state) :
  exists es,
    trace (snd (_run_service w fuel st))
    = trace st
      ++ LogInfo ("Starting docker service from image " ++ image (base (self st))) :: es
    /\ (es = []
        \/ exists spec es',
             es = CreateService spec :: es'
             /\ filter is_create es' = []
             /\ (filter is_remove es' = []
                 \/ exists svc,
                      create_service_resp w spec = Some svc
                      /\ filter is_remove es' = [RemoveService (ID svc)])).
Proof.
  destruct (format_command w (command (base (self st)))) as [e|c] eqn:Hc.
  { exists []. rewrite (run_service_no_command w fuel st e Hc). split; [reflexivity | now left]. }
  destruct (format_args (args (self st))) as [e|a] eqn:Ha.
  { exists []. rewrite (run_service_no_args w fuel st c e Hc Ha).
    split; [reflexivity | now left]. }
  destruct (create_service_resp w (service_spec w (self st) c a)) as [svc|] eqn:Hcreate.
  - assert (Hown : (if removes_other (ID svc) (RemoveService (ID svc)) then 1 else 0) <= 0).
    { cbn [removes_other]. now rewrite String.eqb_refl. }
    destruct (run_service_after_creation w is_create svc (base (self st)) 0
                (fun _ => eq_refl) (fun _ _ _ => eq_refl) (fun _ => eq_refl)
                (fun _ => eq_refl) (fun _ => eq_refl) (fun _ _ _ => eq_refl)
                (fun _ => le_n 0) fuel st c a eq_refl Hc Ha Hcreate)
      as (_ & es & Ht & Hn1).
    destruct (run_service_after_creation w is_remove svc (base (self st)) 1
                (fun _ => eq_refl) (fun _ _ _ => eq_refl) (fun _ => eq_refl)
                (fun _ => eq_refl) (fun _ => eq_refl) (fun _ _ _ => eq_refl)
                (fun _ => le_n 1) fuel st c a eq_refl Hc Ha Hcreate)
      as (_ & es2 & Ht2 & Hn2).
    destruct (run_service_after_creation w (removes_other (ID svc)) svc (base (self st)) 0
                (fun _ => eq_refl) (fun _ _ _ => eq_refl) (fun _ => eq_refl)
                (fun _ => eq_refl) (fun _ => eq_refl) (fun _ _ _ => eq_refl)
                (fun _ => Hown) fuel st c a eq_refl Hc Ha Hcreate)
      as (_ & es3 & Ht3 & Hn3).
    assert (es2 = es) as ->.
    { rewrite Ht in Ht2. apply app_inv_head in Ht2. congruence. }
    assert (es3 = es) as ->.
    { rewrite Ht in Ht3. apply app_inv_head in Ht3. congruence. }
    eexists. split; [exact Ht|]. right. eexists. eexists. split; [reflexivity|].
    split; [exact (filter_none _ _ Hn1)|].
    cbn [filter is_remove].
    destruct (removes_only (ID svc) es Hn2 Hn3) as [Hnone|Hone]; [now left|].
    right. exists svc. split; [exact Hcreate | exact Hone].
  - exists [CreateService (service_spec w (self st) c a)].
    rewrite (run_service_no_handle w fuel st c a Hc Ha Hcreate).
    split; [reflexivity|]. right. exists (service_spec w (self st) c a), [].
    split; [reflexivity|]. split; [reflexivity | now left].
Qed.

(** X5: result retrieval and removal exclude each other.  With
    [retrieve_output] set, no execution of [_run_service] ever removes a
    service, whatever the policy and however the service ended; without it,
    nothing is ever copied out of a container. *)
Theorem run_service_retrieves_or_removes (w : World) (fuel : nat) (st : state) :
  exists es,
    trace (snd (_run_service w fuel st)) = trace st ++ es
    /\ if retrieve_output (base (self st))
       then filter is_remove es = []
       else filter is_copy es = [].
Proof.
  destruct (format_command w (command (base (self st)))) as [e|c] eqn:Hc.
  { eexists. rewrite (run_service_no_command w fuel st e Hc). split; [reflexivity|].
    now destruct (retrieve_output _). }
  destruct (format_args (args (self st))) as [e|a] eqn:Ha.
  { eexists. rewrite (run_service_no_args w fuel st c e Hc Ha). split; [reflexivity|].
    now destruct (retrieve_output _). }
  destruct (create_service_resp w (service_spec w (self st) c a)) as [svc|] eqn:Hcreate.
  - destruct (retrieve_output (base (self st))) eqn:Hr.
    + assert (Hrem : retrieve_output (base (self st)) = false ->
                     (if is_remove (RemoveService (ID svc)) then 1 else 0) <= 0)
        by (intros Hf; congruence).
      destruct (run_service_after_creation w is_remove svc (base (self st)) 0
                  (fun _ => eq_refl) (fun _ _ _ => eq_refl) (fun _ => eq_refl)
                  (fun _ => eq_refl) (fun _ => eq_refl) (fun _ _ _ => eq_refl)
                  Hrem fuel st c a eq_refl Hc Ha Hcreate)
        as (_ & es & Ht & Hn).
      eexists. split; [exact Ht|]. cbn [filter is_remove]. exact (filter_none _ _ Hn).
    + assert (Hcopy : retrieve_output (base (self st)) = true ->
                      forall cid path, is_copy (CopyFromDocker cid path) = false)
        by (intros Hf; congruence).
      destruct (run_service_after_creation w is_copy svc (base (self st)) 0
                  (fun _ => eq_refl) (fun _ _ _ => eq_refl) (fun _ => eq_refl)
                  (fun _ => eq_refl) (fun _ => eq_refl) Hcopy
                  (fun _ => le_0_n 0) fuel st c a eq_refl Hc Ha Hcreate)
        as (_ & es & Ht & Hn).
      eexists. split; [exact Ht|]. cbn [filter is_copy]. exact (filter_none _ _ Hn).
  - eexists. rewrite (run_service_no_handle w fuel st c a Hc Ha Hcreate).
    split; [reflexivity|]. now destruct (retrieve_output _).
Qed.

(** X6: killing the task after a run that created a service removes that
    service, however the run ended: returned, raised, or was still polling
    when it was interrupted. *)
Theorem on_kill_removes_created_service
        (w : World) (fuel : nat) (st : state) (c a : args_t) (svc : ServiceHandle) :
  client_created (base (self st)) = true ->
  format_command w (command (base (self st))) = inr c ->
  format_args (args (self st)) = inr a ->
  create_service_resp w (service_spec w (self st) c a) = Some svc ->
  on_kill (snd (_run_service w fuel st))
  = (Ret tt,
     add_events [LogInfo ("Removing docker service: " ++ ID svc); RemoveService (ID svc)]
                (snd (_run_service w fuel st))).
Proof.
  intros Hclient Hc Ha Hcreate.
  destruct (run_service_after_creation w (fun _ => false) svc (base (self st)) 0
              (fun _ => eq_refl) (fun _ _ _ => eq_refl) (fun _ => eq_refl)
              (fun _ => eq_refl) (fun _ => eq_refl) (fun _ _ _ => eq_refl)
              (fun _ => le_n 0) fuel st c a eq_refl Hc Ha Hcreate)
    as ((Hs & Hb) & _).
  unfold on_kill, service_id, cli_remove_service. mred.
  rewrite Hb, Hclient, Hs. cbn [self add_event]. rewrite Hs.
  unfold add_events, add_event. cbn [self trace polls fetches].
  now rewrite <- app_assoc.
Qed.

Lemma on_kill_removes_created_service_witness :
  on_kill (snd (_run_service (Example.world "failed") 2
                  (snd (__init__ (Example.kwargs "never" false false None) Example.start))))
  = (Ret tt,
     add_events [LogInfo "Removing docker service: svc1"; RemoveService "svc1"]
       (snd (_run_service (Example.world "failed") 2
               (snd (__init__ (Example.kwargs "never" false false None) Example.start))))).
Proof.
  apply (on_kill_removes_created_service (Example.world "failed") 2
           (snd (__init__ (Example.kwargs "never" false false None) Example.start))
           ArgsNone (ArgsList ["--flag"; "value"]) {| ID := "svc1" |});
    reflexivity.
Defined.

Lemma only_passive (es : list event) :
  List.length (filter (fun e => negb (passive e)) es) <= 0 ->
  Forall (fun e => passive e = true) es.
Proof.
  intros H. apply filter_none in H. apply Forall_forall. intros e He.
  destruct (passive e) eqn:Hp; [reflexivity|].
  assert (Hin : In e (filter (fun e => negb (passive e)) es))
    by (apply filter_In; split; [exact He | now rewrite Hp]).
  rewrite H in Hin. destruct Hin.
Qed.

(** X7: streaming the logs only polls the tasks, fetches logs, sleeps and
    writes to the log.  It never creates or removes a service, inspects a
    container or copies from one, and it leaves every field of the operator
    as it was, however it ends. *)
Theorem stream_logs_only_observes (w : World) (fuel : nat) (st : state) :
  self (snd (_stream_logs_to_output w fuel st)) = self st
  /\ exists es,
       trace (snd (_stream_logs_to_output w fuel st)) = trace st ++ es
       /\ Forall (fun e => passive e = true) es.
Proof.
  destruct (adds_stream_logs_to_output (fun o => o = self st)
              (fun e => negb (passive e)) w
              (fun _ => eq_refl) (fun _ _ _ => eq_refl) (fun _ => eq_refl)
              (fun _ => eq_refl) fuel st eq_refl) as (Hself & es & Ht & Hn).
  split; [exact Hself|]. exists es. split; [exact Ht | exact (only_passive es Hn)].
Qed.

(** ** The service specification *)

Lemma dict_get_set_same (key value : string) (d : list (string * string)) :
  dict_get key (dict_set key value d) = Some value.
Proof.
  induction d as [|[k v] d IH]; cbn.
  - now rewrite String.eqb_refl.
  - destruct (String.eqb k key) eqn:Hk; cbn; rewrite Hk; [reflexivity | exact IH].
Qed.

Lemma dict_get_set_other (key value other : string) (d : list (string * string)) :
  other <> key -> dict_get other (dict_set key value d) = dict_get other d.
Proof.
  intros Hne. induction d as [|[k v] d IH]; cbn.
  - destruct (String.eqb key other) eqn:Hk; [|reflexivity].
    apply String.eqb_eq in Hk. congruence.
  - destruct (String.eqb k key) eqn:Hk; cbn.
    + apply String.eqb_eq in Hk. subst k.
      destruct (String.eqb key other) eqn:Hk'; [|reflexivity].
      apply String.eqb_eq in Hk'. congruence.
    + now rewrite IH.
Qed.

(** The events of a run start with the creation of the service described by
    the operator's fields. *)
Lemma run_service_submits (w : World) (fuel : nat) (st : state) (c a : args_t) :
  format_command w (command (base (self st))) = inr c ->
  format_args (args (self st)) = inr a ->
  exists es,
    trace (snd (_run_service w fuel st))
    = trace st
      ++ LogInfo ("Starting docker service from image " ++ image (base (self st)))
      :: CreateService (service_spec w (self st) c a) :: es.
Proof.
  intros Hc Ha.
  destruct (create_service_resp w (service_spec w (self st) c a)) as [svc|] eqn:Hcreate.
  - destruct (run_service_after_creation w (fun _ => false) svc (base (self st)) 0
                (fun _ => eq_refl) (fun _ _ _ => eq_refl) (fun _ => eq_refl)
                (fun _ => eq_refl) (fun _ => eq_refl) (fun _ _ _ => eq_refl)
                (fun _ => le_n 0) fuel st c a eq_refl Hc Ha Hcreate)
      as (_ & es & Ht & _).
    eexists. exact Ht.
  - exists []. now rewrite (run_service_no_handle w fuel st c a Hc Ha Hcreate).
Qed.

(** X8: [execute] hands the temporary directory to the service.  The
    environment of the service it creates maps [AIRFLOW_TMP_DIR] to the
    operator's [tmp_dir], also when the environment already had that key,
    and every other key to what it was mapped to before. *)
Theorem execute_passes_tmp_dir (w : World) (fuel : nat) (st : state) (c a : args_t) :
  format_command w (command (base (self st))) = inr c ->
  format_args (args (self st)) = inr a ->
  exists spec es,
    trace (snd (execute w fuel st))
    = trace st
      ++ LogInfo ("Starting docker service from image " ++ image (base (self st)))
      :: CreateService spec :: es
    /\ dict_get "AIRFLOW_TMP_DIR" (spec_env spec) = Some (tmp_dir (base (self st)))
    /\ (forall key, key <> "AIRFLOW_TMP_DIR" ->
          dict_get key (spec_env spec) = dict_get key (environment (base (self st))))
    /\ spec_command spec = c
    /\ spec_args spec = a.
Proof.
  intros Hc Ha. unfold execute.
  erewrite (bind_run (modify_self _)); [|reflexivity].
  match goal with
  | |- context [_run_service w fuel ?s] =>
      destruct (run_service_submits w fuel s c a Hc Ha) as (es & Ht)
  end.
  eexists. exists es. split; [exact Ht|].
  cbn [spec_env spec_command spec_args service_spec update_self self set_base base
       set_environment environment].
  split; [apply dict_get_set_same|]. split; [|split; reflexivity].
  intros key Hkey. now apply dict_get_set_other.
Qed.

Lemma execute_passes_tmp_dir_witness :
  exists spec es,
    trace (snd (execute (Example.world "complete") 0
                  (snd (__init__ (Example.kwargs "never" false false None) Example.start))))
    = [] ++ LogInfo "Starting docker service from image busybox"
         :: CreateService spec :: es
    /\ dict_get "AIRFLOW_TMP_DIR" (spec_env spec) = Some "/tmp/airflow"
    /\ (forall key, key <> "AIRFLOW_TMP_DIR" -> dict_get key (spec_env spec) = dict_get key [])
    /\ spec_command spec = ArgsNone
    /\ spec_args spec = ArgsList ["--flag"; "value"].
Proof.
  apply (execute_passes_tmp_dir (Example.world "complete") 0
           (snd (__init__ (Example.kwargs "never" false false None) Example.start)));
    reflexivity.
Defined.

(** X9: a supported logging driver given to the constructor is the log
    driver of the service that [execute] creates, with the options given. *)
Theorem logging_driver_reaches_the_service
        (w : World) (fuel : nat) (kw : Kwargs) (st : state) (d : string) (c a : args_t) :
  kw_logging_driver kw = Some d ->
  In d supported_logging_drivers ->
  format_command w (command (kw_base kw)) = inr c ->
  format_args (kw_args kw) = inr a ->
  exists spec es,
    trace (snd ((__init__ kw;; execute w fuel) st))
    = trace st
      ++ LogInfo ("Starting docker service from image " ++ image (kw_base kw))
      :: CreateService spec :: es
    /\ spec_log_driver spec
       = Some {| driver_name := d; driver_options := kw_logging_driver_opts kw |}
    /\ spec_name spec = (kw_service_prefix kw ++ "-" ++ get_random_string w)%string.
Proof.
  intros Hd Hin Hc Ha.
  assert (Hne : Py.truthy_str d = true).
  { destruct Hin as [<-|[<-|[]]]; reflexivity. }
  assert (Hsup : Py.contains d supported_logging_drivers = true) by now apply contains_In.
  assert (Hinit : exists st1,
             __init__ kw st = (Ret tt, st1)
             /\ trace st1 = trace st
             /\ base (self st1) = kw_base kw /\ args (self st1) = kw_args kw
             /\ service_prefix (self st1) = kw_service_prefix kw
             /\ log_driver_config (self st1)
                = Some {| driver_name := d; driver_options := kw_logging_driver_opts kw |}).
  { eexists. unfold __init__. mred. cbn [self update_self logging_driver].
    rewrite Hd, Hne, Hsup. cbn [negb]. split; [reflexivity|].
    cbn. repeat split; reflexivity. }
  destruct Hinit as (st1 & Hrun & Htr & Hb & Hargs & Hprefix & Hcfg).
  rewrite (bind_run (__init__ kw) _ st st1 tt Hrun).
  unfold execute. erewrite (bind_run (modify_self _)); [|reflexivity].
  match goal with
  | |- context [_run_service w fuel ?s] =>
      destruct (run_service_submits w fuel s c a) as (es & Ht)
  end.
  { cbn [update_self self set_base base set_environment command]. now rewrite Hb. }
  { cbn [update_self self set_base args]. now rewrite Hargs. }
  eexists. exists es. split.
  - rewrite Ht. cbn [update_self self set_base base set_environment image trace].
    now rewrite Htr, Hb.
  - cbn [spec_log_driver spec_name service_spec update_self self set_base
         log_driver_config service_prefix].
    now rewrite Hcfg, Hprefix.
Qed.

Lemma logging_driver_reaches_the_service_witness :
  exists spec es,
    trace (snd ((__init__ (Example.kwargs "never" false false (Some "gelf"));;
                 execute (Example.world "complete") 0) Example.start))
    = [] ++ LogInfo "Starting docker service from image busybox"
         :: CreateService spec :: es
    /\ spec_log_driver spec = Some {| driver_name := "gelf"; driver_options := [] |}
    /\ spec_name spec = "airflow-x1y2z3".
Proof.
  apply (logging_driver_reaches_the_service (Example.world "complete") 0
           (Example.kwargs "never" false false (Some "gelf")) Example.start "gelf"
           ArgsNone (ArgsList ["--flag"; "value"])).
  - reflexivity.
  - right. left. reflexivity.
  - reflexivity.
  - reflexivity.
Defined.

(** ** Runs that end early *)

(** X10: when the client hands back no service, [_run_service] raises a
    RuntimeError right after the creation call: it polls nothing, fetches
    nothing, removes nothing, and the operator holds no service. *)
Theorem run_service_without_handle
        (w : World) (fuel : nat) (st : state) (c a : args_t) :
  format_command w (command (base (self st))) = inr c ->
  format_args (args (self st)) = inr a ->
  create_service_resp w (service_spec w (self st) c a) = None ->
  fst (_run_service w fuel st) = Raise (RuntimeError "Service should be set here")
  /\ trace (snd (_run_service w fuel st))
     = trace st
       ++ [LogInfo ("Starting docker service from image " ++ image (base (self st)));
           CreateService (service_spec w (self st) c a)]
  /\ polls (snd (_run_service w fuel st)) = polls st
  /\ fetches (snd (_run_service w fuel st)) = fetches st
  /\ service (self (snd (_run_service w fuel st))) = None.
Proof.
  intros Hc Ha Hcreate. rewrite (run_service_no_handle w fuel st c a Hc Ha Hcreate).
  repeat split; reflexivity.
Qed.

Lemma run_service_without_handle_witness :
  fst (_run_service Scenario.no_handle 5 (Scenario.constructed "force" false true))
  = Raise (RuntimeError "Service should be set here")
  /\ trace (snd (_run_service Scenario.no_handle 5 (Scenario.constructed "force" false true)))
     = trace (Scenario.constructed "force" false true)
       ++ [LogInfo ("Starting docker service from image "
                    ++ image (base (self (Scenario.constructed "force" false true))));
           CreateService (service_spec Scenario.no_handle
                            (self (Scenario.constructed "force" false true))
                            ArgsNone (ArgsList ["--flag"; "value"]))]
  /\ polls (snd (_run_service Scenario.no_handle 5 (Scenario.constructed "force" false true)))
     = polls (Scenario.constructed "force" false true)
  /\ fetches (snd (_run_service Scenario.no_handle 5 (Scenario.constructed "force" false true)))
     = fetches (Scenario.constructed "force" false true)
  /\ service (self (snd (_run_service Scenario.no_handle 5
                           (Scenario.constructed "force" false true)))) = None.
Proof.
  apply (run_service_without_handle Scenario.no_handle 5
           (Scenario.constructed "force" false true)); reflexivity.
Defined.

(** Inside single quotes every character but the single quote is taken as
    it is. *)
Lemma read_tokens_quoted (body : string) :
  forall (quoted : bool) (token rest : string),
    all_chars no_single_quote body = true ->
    Shlex.read_tokens (Shlex.Quote Shlex.single_quote) quoted token
                      (body ++ String Shlex.single_quote rest)
    = Shlex.read_tokens Shlex.Word true (token ++ body) rest.
Proof.
  induction body as [|c body IH]; intros quoted token rest Hbody.
  - cbn. now rewrite append_empty_r.
  - cbn [all_chars] in Hbody. apply andb_prop in Hbody as [Hc Hbody].
    unfold no_single_quote in Hc. apply negb_true_iff in Hc.
    cbn [String.append Shlex.read_tokens]. rewrite Hc.
    replace (Shlex.is_escape c && Shlex.is_escapedquote Shlex.single_quote) with false
      by (now rewrite andb_false_r).
    rewrite IH by assumption. unfold Shlex.add. now rewrite append_assoc.
Qed.

Lemma read_tokens_unclosed (body : string) :
  forall (quoted : bool) (token : string),
    all_chars no_single_quote body = true ->
    Shlex.read_tokens (Shlex.Quote Shlex.single_quote) quoted token body
    = inl (ValueError "No closing quotation").
Proof.
  induction body as [|c body IH]; intros quoted token Hbody.
  - reflexivity.
  - cbn [all_chars] in Hbody. apply andb_prop in Hbody as [Hc Hbody].
    unfold no_single_quote in Hc. apply negb_true_iff in Hc.
    cbn [Shlex.read_tokens]. rewrite Hc.
    replace (Shlex.is_escape c && Shlex.is_escapedquote Shlex.single_quote) with false
      by (now rewrite andb_false_r).
    now apply IH.
Qed.

Lemma split_unclosed (words : list string) (body : string) :
  Forall (fun word => Shlex.plain word = true /\ word <> "") words ->
  all_chars no_single_quote body = true ->
  Shlex.split (Py.join " " (words ++ [String Shlex.single_quote body]))
  = inl (ValueError "No closing quotation").
Proof.
  intros Hwords Hbody. unfold Shlex.split.
  induction Hwords as [|word rest [Hplain Hne] Hrest IH].
  - cbn [app Py.join Shlex.read_tokens].
    change (Shlex.is_whitespace Shlex.single_quote) with false.
    change (Shlex.is_escape Shlex.single_quote) with false.
    change (Shlex.is_quote Shlex.single_quote) with true. cbn iota.
    now apply read_tokens_unclosed.
  - destruct word as [|c word]; [congruence|].
    cbn [Shlex.plain] in Hplain. apply andb_prop in Hplain as [Hc Hword].
    unfold Shlex.plain_char in Hc.
    apply negb_true_iff in Hc. apply orb_false_iff in Hc as [Hc Hesc].
    apply orb_false_iff in Hc as [Hws Hq].
    replace (Py.join " " ((String c word :: rest) ++ [String Shlex.single_quote body]))
      with (String c word ++ " "
            ++ Py.join " " (rest ++ [String Shlex.single_quote body]))%string
      by (destruct rest; reflexivity).
    cbn [String.append Shlex.read_tokens]. rewrite Hws, Hesc, Hq.
    rewrite read_tokens_word by assumption.
    cbn [String.append Shlex.read_tokens].
    change (Shlex.is_whitespace " ") with true. cbn [Py.truthy_str orb].
    now rewrite IH.
Qed.

(** X11: arguments whose last word opens a single quote that is never
    closed stop the run before the orchestrator is contacted:
    [_run_service] raises the ValueError of [shlex.split] after its first
    log record, and no client call is made. *)
Theorem run_service_rejects_unclosed_quote
        (w : World) (fuel : nat) (st : state) (c : args_t)
        (words : list string) (body : string) :
  format_command w (command (base (self st))) = inr c ->
  args (self st) = ArgsStr (Py.join " " (words ++ [String Shlex.single_quote body])) ->
  Forall (fun word => Shlex.plain word = true /\ word <> "") words ->
  all_chars no_single_quote body = true ->
  _run_service w fuel st
  = (Raise (ValueError "No closing quotation"),
     add_event (LogInfo ("Starting docker service from image " ++ image (base (self st))))
               st).
Proof.
  intros Hc Hargs Hwords Hbody.
  apply (run_service_no_args w fuel st c _ Hc).
  rewrite Hargs. unfold format_args. now rewrite split_unclosed.
Qed.

Lemma run_service_rejects_unclosed_quote_witness :
  _run_service (Example.world "complete") 5
               (Scenario.with_args (ArgsStr "--name 'my job"))
  = (Raise (ValueError "No closing quotation"),
     add_event (LogInfo "Starting docker service from image busybox")
               (Scenario.with_args (ArgsStr "--name 'my job"))).
Proof.
  apply (run_service_rejects_unclosed_quote (Example.world "complete") 5
           (Scenario.with_args (ArgsStr "--name 'my job")) ArgsNone ["--name"] "my job").
  - reflexivity.
  - reflexivity.
  - constructor; [split; [reflexivity | discriminate] | constructor].
  - reflexivity.
Defined.

Lemma split_single_quoted (xs : list string) :
  Forall (fun x => all_chars no_single_quote x = true) xs ->
  Shlex.split (Py.join " " (map single_quoted xs)) = inr xs.
Proof.
  unfold Shlex.split. induction 1 as [|x rest Hx Hrest IH].
  - reflexivity.
  - destruct rest as [|y rest].
    + cbn [map Py.join]. unfold single_quoted. cbn [Shlex.read_tokens].
      change (Shlex.is_whitespace Shlex.single_quote) with false.
      change (Shlex.is_escape Shlex.single_quote) with false.
      change (Shlex.is_quote Shlex.single_quote) with true. cbn iota.
      rewrite read_tokens_quoted by assumption.
      cbn [String.append Shlex.read_tokens]. now rewrite orb_true_r.
    + change (Py.join " " (map single_quoted (x :: y :: rest)))
        with (single_quoted x ++ " " ++ Py.join " " (map single_quoted (y :: rest)))%string.
      unfold single_quoted at 1. cbn [String.append Shlex.read_tokens].
      change (Shlex.is_whitespace Shlex.single_quote) with false.
      change (Shlex.is_escape Shlex.single_quote) with false.
      change (Shlex.is_quote Shlex.single_quote) with true. cbn iota.
      rewrite append_assoc. cbn [String.append].
      rewrite read_tokens_quoted by assumption.
      cbn [String.append Shlex.read_tokens].
      change (Shlex.is_whitespace " ") with true. cbn iota. rewrite orb_true_r.
      now rewrite IH.
Qed.

(** X12: single quotes protect an argument.  A string of arguments written
    between single quotes and separated by spaces is split into exactly
    those arguments, whatever blanks, backslashes or double quotes they
    contain, and an empty pair of quotes gives an empty argument. *)
Theorem format_args_single_quoted (xs : list string) :
  Forall (fun x => all_chars no_single_quote x = true) xs ->
  format_args (ArgsStr (Py.join " " (map single_quoted xs))) = inr (ArgsList xs).
Proof.
  intros Hxs. unfold format_args. now rewrite split_single_quoted.
Qed.

Lemma format_args_single_quoted_witness :
  format_args (ArgsStr "'echo' 'a  b' '' 'back\slash' 'say hi'")
  = inr (ArgsList ["echo"; "a  b"; ""; "back\slash"; "say hi"]).
Proof.
  apply (format_args_single_quoted ["echo"; "a  b"; ""; "back\slash"; "say hi"]).
  repeat constructor.
Defined.

(** ** Fetches that bring nothing new, and lines without a time stamp *)

(** X13: a fetch that brings nothing new changes nothing.  When the batch is
    empty, or ends with the line logged last, [stream_new_logs] logs no
    record and returns the last line and the cursor it was given. *)
Theorem stream_new_logs_nothing_new
        (w : World) (st : state) (svc : ServiceHandle)
        (last : string) (since : cursor) (pre : list string) :
  service (self st) = Some svc ->
  logs_resp w (fetches st) = []
  \/ (logs_resp w (fetches st) = pre ++ [last] /\ ~ In last pre) ->
  stream_new_logs w last since st
  = (Ret (last, since),
     next_fetch (add_event (ServiceLogs (ID svc) (tty (base (self st))) since) st)).
Proof.
  intros Hsvc Hlogs.
  assert (Hdrop : drop_seen last (logs_resp w (fetches st)) = inr []).
  { destruct Hlogs as [-> | [-> Hnot]]; [reflexivity|].
    exact (drop_seen_first last pre [] Hnot). }
  unfold stream_new_logs, service_id, cli_service_logs. mred.
  rewrite Hsvc. mred. rewrite Hdrop. reflexivity.
Qed.

Lemma stream_new_logs_nothing_new_witness :
  stream_new_logs (Example.world "complete") Example.world_line CursorZero
                  (next_fetch (Example.created "never" false))
  = (Ret (Example.world_line, CursorZero),
     next_fetch (add_event (ServiceLogs "svc1" false CursorZero)
                           (next_fetch (Example.created "never" false)))).
Proof.
  apply (stream_new_logs_nothing_new (Example.world "complete")
           (next_fetch (Example.created "never" false)) {| ID := "svc1" |}
           Example.world_line CursorZero [Example.hello]).
  - reflexivity.
  - right. split; [reflexivity|].
    intros [H|[]]. discriminate H.
Defined.

(** The loop over a batch stops at the first line the pattern does not
    match, after logging the lines before it. *)
Lemma log_lines_stops (pre : list string) (bad : string) (post : list string) :
  Forall well_formed pre ->
  ~ well_formed bad ->
  forall bound st,
    log_lines (pre ++ bad :: post) bound st
    = (Raise (AttributeError "'NoneType' object has no attribute 'groups'"),
       add_events (map (fun line => LogInfo (message_of line)) pre) st).
Proof.
  intros Hpre Hbad. induction Hpre as [|line rest Hline Hrest IH]; intros bound st.
  - cbn [app log_lines map]. unfold well_formed in Hbad.
    destruct (Re.re_match LOG_LINE bad) as [[groups tail]|] eqn:E.
    + exfalso. apply Hbad. discriminate.
    + now rewrite add_events_nil.
  - cbn [app log_lines map]. unfold well_formed in Hline.
    destruct (Re.re_match LOG_LINE line) as [[groups tail]|] eqn:E; [|congruence].
    assert (Hm : message_of line = nth 1 groups "") by (unfold message_of; now rewrite E).
    rewrite Hm. unfold log_info. mred.
    rewrite IH, add_event_events, add_events_app. reflexivity.
Qed.



(** ** Tasks without a container, and tasks that vanish *)

(** X15: a task that has no container status stops the harvest.  [harvest]
    raises a KeyError at the first such task; the containers of the tasks
    before it have been inspected and appended, those after it are not
    looked at. *)
Theorem harvest_stops_at_unplaced_task
        (w : World) (pre : list TaskRecord) (t : TaskRecord) (post : list TaskRecord)
        (cids : list string) (st : state) :
  container_ids pre = map Some cids ->
  ContainerID t = None ->
  fst (harvest w (pre ++ t :: post) st) = Raise (KeyError "ContainerStatus")
  /\ trace (snd (harvest w (pre ++ t :: post) st))
     = trace st ++ map InspectContainer cids
  /\ containers (self (snd (harvest w (pre ++ t :: post) st)))
     = containers (self st) ++ map (inspect_resp w) cids.
Proof.
  revert cids st. induction pre as [|p pre IH]; intros cids st Hids Ht.
  - destruct cids; [|discriminate]. cbn [app harvest]. rewrite Ht.
    cbn. now rewrite !app_nil_r.
  - destruct cids as [|cid cids]; [discriminate|].
    cbn [container_ids map] in Hids. injection Hids as Hcid Hrest.
    cbn [app harvest]. rewrite Hcid. unfold cli_inspect_container. mred.
    destruct (IH cids
                (update_self
                   (fun o => set_containers o (containers o ++ [inspect_resp w cid]))
                   (add_event (InspectContainer cid) st)) Hrest Ht)
      as (Hout & Htrace & Hcs).
    split; [exact Hout|]. split.
    + rewrite Htrace. cbn. now rewrite <- app_assoc.
    + rewrite Hcs. cbn. now rewrite <- app_assoc.
Qed.

Lemma harvest_stops_at_unplaced_task_witness :
  fst (harvest Scenario.unplaced
         ([ {| State := "complete"; ContainerID := Some "c1" |} ]
          ++ {| State := "complete"; ContainerID := None |}
          :: [ {| State := "complete"; ContainerID := Some "c3" |} ])
         (Example.created "force" false))
  = Raise (KeyError "ContainerStatus")
  /\ trace (snd (harvest Scenario.unplaced
         ([ {| State := "complete"; ContainerID := Some "c1" |} ]
          ++ {| State := "complete"; ContainerID := None |}
          :: [ {| State := "complete"; ContainerID := Some "c3" |} ])
         (Example.created "force" false)))
     = trace (Example.created "force" false) ++ map InspectContainer ["c1"]
  /\ containers (self (snd (harvest Scenario.unplaced
         ([ {| State := "complete"; ContainerID := Some "c1" |} ]
          ++ {| State := "complete"; ContainerID := None |}
          :: [ {| State := "complete"; ContainerID := Some "c3" |} ])
         (Example.created "force" false))))
     = containers (self (Example.created "force" false))
       ++ map (inspect_resp Scenario.unplaced) ["c1"].
Proof.
  apply (harvest_stops_at_unplaced_task Scenario.unplaced
           [ {| State := "complete"; ContainerID := Some "c1" |} ]
           {| State := "complete"; ContainerID := None |}
           [ {| State := "complete"; ContainerID := Some "c3" |} ]
           ["c1"] (Example.created "force" false)); reflexivity.
Defined.

(** X16: result retrieval swallows API errors only.  Any other error raised
    by a copy leaves [_attempt_to_retrieve_results] as it is, after the
    copies before it; the containers after it are not tried. *)
Theorem attempt_to_retrieve_results_propagates
        (w : World) (st : state) (pre : list ContainerRecord) (c : ContainerRecord)
        (post : list ContainerRecord) (vs : list pyobj) (e : exn) :
  containers (self st) = pre ++ c :: post ->
  Forall2 (fun c v => copy_resp w (Id c) (retrieve_output_path (base (self st))) = inr v)
          pre vs ->
  copy_resp w (Id c) (retrieve_output_path (base (self st))) = inl e ->
  e <> APIError ->
  _attempt_to_retrieve_results w st
  = (Raise e,
     add_events (map (copy_event (retrieve_output_path (base (self st)))) (pre ++ [c])) st).
Proof.
  intros Hcs Hall Hc He.
  unfold _attempt_to_retrieve_results, except_APIError. mred.
  rewrite Hcs, (copy_each_raises w pre vs [] c post e st Hall Hc).
  destruct e; try reflexivity. congruence.
Qed.

Lemma attempt_to_retrieve_results_propagates_witness :
  _attempt_to_retrieve_results
    (Example.deployment (Example.answers "complete") Example.batches
       (fun c p => if String.eqb c "c2" then inl (OtherError "TimeoutError")
                   else Example.archive c p))
    (Example.harvested [ {| Id := "c1" |}; {| Id := "c2" |}; {| Id := "c3" |} ])
  = (Raise (OtherError "TimeoutError"),
     add_events (map (copy_event "/out") ([ {| Id := "c1" |} ] ++ [ {| Id := "c2" |} ]))
       (Example.harvested [ {| Id := "c1" |}; {| Id := "c2" |}; {| Id := "c3" |} ])).
Proof.
  apply (attempt_to_retrieve_results_propagates
           (Example.deployment (Example.answers "complete") Example.batches
              (fun c p => if String.eqb c "c2" then inl (OtherError "TimeoutError")
                          else Example.archive c p))
           (Example.harvested [ {| Id := "c1" |}; {| Id := "c2" |}; {| Id := "c3" |} ])
           [ {| Id := "c1" |} ] {| Id := "c2" |} [ {| Id := "c3" |} ] [PyStr "c1:/out"]).
  - reflexivity.
  - repeat constructor.
  - reflexivity.
  - discriminate.
Defined.

(** ** Streaming the logs to the end *)

Lemma log_records_app (es1 es2 : list event) :
  log_records (es1 ++ es2) = log_records es1 ++ log_records es2.
Proof. unfold log_records. apply flat_map_app. Qed.

Lemma log_records_infos (msgs : list string) :
  log_records (map LogInfo msgs) = msgs.
Proof.
  unfold log_records. induction msgs as [|m msgs IH]; cbn; [reflexivity | now f_equal].
Qed.

Lemma fold_left_last (new : list string) :
  new <> [] ->
  forall bound last,
    fold_left (fun _ line => Some (line, timestamp_of line)) new bound
    = Some (List.last new last, timestamp_of (List.last new last)).
Proof.
  induction new as [|x [|y rest] IH]; intros Hne bound last; [congruence|reflexivity|].
  change (fold_left _ (x :: y :: rest) bound)
    with (fold_left (fun _ line => Some (line, timestamp_of line)) (y :: rest)
                    (Some (x, timestamp_of x))).
  rewrite (IH ltac:(discriminate) _ last). reflexivity.
Qed.

(** One fetch whose new lines are all parsable. *)
Lemma stream_new_logs_run (w : World) (st : state) (svc : ServiceHandle)
      (last : string) (since : cursor) (new : list string) :
  service (self st) = Some svc ->
  drop_seen last (logs_resp w (fetches st)) = inr new ->
  Forall parsable new ->
  exists since',
    stream_new_logs w last since st
    = (Ret (List.last new last, since'),
       add_events (map (fun line => LogInfo (message_of line)) new)
         (next_fetch (add_event (ServiceLogs (ID svc) (tty (base (self st))) since) st))).
Proof.
  intros Hsvc Hdrop Hnew.
  assert (Hwf : Forall well_formed new).
  { apply Forall_forall. intros x Hx. rewrite Forall_forall in Hnew. now apply Hnew. }
  unfold stream_new_logs, service_id, cli_service_logs. mred.
  rewrite Hsvc. mred. rewrite Hdrop. mred.
  rewrite (log_lines_run new Hwf).
  destruct new as [|x rest].
  - exists since. reflexivity.
  - rewrite (fold_left_last (x :: rest) ltac:(discriminate) None last).
    assert (Hin : In (List.last (x :: rest) last) (x :: rest)).
    { clear. revert x. induction rest as [|y rest IH]; intros x; [now left|].
      right. apply IH. }
    rewrite Forall_forall in Hnew. destruct (Hnew _ Hin) as (_ & dt & Hdt).
    exists (CursorAt dt). cbn [List.length Nat.eqb]. cbv iota beta.
    rewrite Hdt. reflexivity.
Qed.

Lemma last_app_default (a b : list string) (d : string) :
  List.last (a ++ b) d = List.last b (List.last a d).
Proof.
  destruct b as [|x b] using rev_ind.
  - now rewrite app_nil_r.
  - now rewrite app_assoc, !last_last.
Qed.

Lemma empty_not_well_formed : ~ well_formed "".
Proof. unfold well_formed. vm_compute. intros H. now apply H. Qed.

(** What is cut from a batch that repeats the end of the lines seen so far
    and goes on with new lines: exactly the repeated part. *)
Lemma drop_seen_overlap (older old new : list string) :
  NoDup ((older ++ old) ++ new) ->
  ~ In "" new ->
  drop_seen (List.last (older ++ old) "") (old ++ new) = inr new.
Proof.
  intros Hnodup Hempty.
  destruct old as [|x old' _] using rev_ind.
  - rewrite app_nil_r in *. cbn [app]. apply drop_seen_absent.
    destruct older as [|y older _] using rev_ind; [exact Hempty|].
    rewrite last_last. intros Hin.
    rewrite <- app_assoc in Hnodup. cbn [app] in Hnodup.
    apply NoDup_remove_2 in Hnodup. apply Hnodup, in_or_app. now right.
  - rewrite app_assoc, last_last. rewrite <- app_assoc. cbn [app].
    apply drop_seen_first. intros Hin.
    rewrite app_assoc in Hnodup. rewrite <- app_assoc in Hnodup. cbn [app] in Hnodup.
    apply NoDup_remove_2 in Hnodup. apply Hnodup, in_or_app. left.
    apply in_or_app. now right.
Qed.

Lemma stream_loop_run (w : World) (svc : ServiceHandle)
      (rounds : list (list string * list string)) :
  forall (seen : list string) (fuel : nat) (st : state) (since : cursor),
    service (self st) = Some svc ->
    (forall i, i < List.length rounds ->
       exists t ts, tasks_resp w (polls st + i) = t :: ts
                    /\ Py.contains (State t) terminal_states = false) ->
    (exists t ts, tasks_resp w (polls st + List.length rounds) = t :: ts
                  /\ Py.contains (State t) terminal_states = true) ->
    (forall i old new, nth_error rounds i = Some (old, new) ->
       logs_resp w (fetches st + i) = old ++ new) ->
    overlapping seen rounds ->
    NoDup (seen ++ List.concat (map snd rounds)) ->
    Forall parsable (List.concat (map snd rounds)) ->
    List.length rounds < fuel ->
    exists st',
      stream_loop w fuel (List.last seen "") since st = (Ret tt, st')
      /\ self st' = self st
      /\ polls st' = polls st + List.length rounds + 1
      /\ fetches st' = fetches st + List.length rounds
      /\ log_records (trace st')
         = log_records (trace st) ++ map message_of (List.concat (map snd rounds)).
Proof.
  induction rounds as [|[old new] rest IH];
    intros seen fuel st since Hsvc Hlive Hdone Hlogs Hover Hnodup Hpars Hfuel;
    (destruct fuel as [|fuel]; [cbn in Hfuel; lia|]); cbn [stream_loop].
  - destruct Hdone as (t & ts & Ht & Hterm).
    cbn [List.length] in Ht. rewrite Nat.add_0_r in Ht.
    assert (H1 : _has_service_terminated w st
                 = (Ret true, next_poll (add_event (ListTasks (ID svc)) st))).
    { rewrite (has_service_terminated_run w st svc Hsvc), Ht, Hterm. reflexivity. }
    rewrite (bind_run _ _ _ _ _ H1). cbv beta iota.
    eexists. split; [reflexivity|]. cbn [self polls fetches trace next_poll add_event
                                         List.length concat map].
    repeat split; try lia.
    rewrite log_records_app. cbn. reflexivity.
  - destruct (Hlive 0) as (t & ts & Ht & Hterm); [cbn; lia|].
    rewrite Nat.add_0_r in Ht.
    assert (H1 : _has_service_terminated w st
                 = (Ret false, next_poll (add_event (ListTasks (ID svc)) st))).
    { rewrite (has_service_terminated_run w st svc Hsvc), Ht, Hterm. reflexivity. }
    rewrite (bind_run _ _ _ _ _ H1). cbv beta iota.
    erewrite (bind_run (sleep 2)); [|reflexivity].
    set (st2 := add_event (Sleep 2) (next_poll (add_event (ListTasks (ID svc)) st))).
    cbn [overlapping] in Hover. destruct Hover as [[older Hseen] Hover].
    cbn [map List.concat snd] in Hnodup, Hpars.
    apply Forall_app in Hpars as [Hnew Hrest].
    assert (Hempty : ~ In "" new).
    { intros Hin. rewrite Forall_forall in Hnew.
      destruct (Hnew _ Hin) as [Hwf _]. exact (empty_not_well_formed Hwf). }
    assert (Hdrop : drop_seen (List.last seen "") (logs_resp w (fetches st2)) = inr new).
    { change (fetches st2) with (fetches st).
      rewrite <- (Nat.add_0_r (fetches st)), (Hlogs 0 old new eq_refl), Hseen.
      apply drop_seen_overlap; [|exact Hempty].
      rewrite <- Hseen. rewrite app_assoc in Hnodup.
      exact (NoDup_app_remove_r _ _ Hnodup). }
    destruct (stream_new_logs_run w st2 svc (List.last seen "") since new Hsvc Hdrop Hnew)
      as (since' & Hfetch).
    rewrite (bind_run _ _ _ _ _ Hfetch). cbv beta iota.
    rewrite <- last_app_default.
    match goal with
    | |- context [stream_loop w fuel _ since' ?s] => set (st3 := s)
    end.
    destruct (IH (seen ++ new) fuel st3 since') as (st' & Hrun & Hself & Hpolls & Hfetches & Hrec).
    + exact Hsvc.
    + intros i Hi. replace (polls st3 + i) with (polls st + S i) by (cbn; lia).
      apply Hlive. cbn [List.length]. lia.
    + replace (polls st3 + List.length rest) with (polls st + List.length ((old, new) :: rest))
        by (cbn; lia).
      exact Hdone.
    + intros i old' new' Hnth.
      replace (fetches st3 + i) with (fetches st + S i) by (cbn; lia).
      now apply Hlogs.
    + exact Hover.
    + now rewrite <- app_assoc.
    + exact Hrest.
    + cbn [List.length] in Hfuel. lia.
    + exists st'. split; [exact Hrun|]. split; [rewrite Hself; reflexivity|].
      split; [rewrite Hpolls; cbn; lia|]. split; [rewrite Hfetches; cbn; lia|].
      rewrite Hrec. cbn [map List.concat snd trace st3 add_events next_fetch add_event st2 next_poll].
      rewrite !log_records_app, map_app, <- !app_assoc. cbn [log_records flat_map app].
      rewrite <- (map_map message_of LogInfo new).
      change (flat_map _ (map LogInfo (map message_of new)))
        with (log_records (map LogInfo (map message_of new))).
      now rewrite log_records_infos.
Qed.

Lemma log_records_add_event (e : event) (st : state) :
  log_records (trace (add_event e st)) = log_records (trace st) ++ log_records [e].
Proof. cbn [trace add_event]. apply log_records_app. Qed.

Lemma log_records_polled (sid : string) (k : nat) (st : state) :
  log_records (trace (polled sid k st)) = log_records (trace st).
Proof.
  rewrite polled_trace, log_records_app.
  replace (log_records (repeat (ListTasks sid) k)) with (@nil string).
  - apply app_nil_r.
  - induction k as [|k IH]; [reflexivity | exact IH].
Qed.

(** Streaming to the end: the outcome, the counters, the records written,
    and nothing inspected or removed. *)
Lemma stream_logs_run (w : World) (fuel : nat) (st : state) (svc : ServiceHandle)
      (rounds : list (list string * list string)) :
  service (self st) = Some svc ->
  (forall i, i < List.length rounds ->
     exists t ts, tasks_resp w (polls st + i) = t :: ts
                  /\ Py.contains (State t) terminal_states = false) ->
  (exists t ts, tasks_resp w (polls st + List.length rounds) = t :: ts
                /\ Py.contains (State t) terminal_states = true) ->
  (forall i old new, nth_error rounds i = Some (old, new) ->
     logs_resp w (fetches st + i) = old ++ new) ->
  overlapping [] rounds ->
  NoDup (List.concat (map snd rounds)) ->
  Forall parsable (List.concat (map snd rounds)) ->
  List.length rounds < fuel ->
  exists st',
    _stream_logs_to_output w fuel st = (Ret tt, st')
    /\ self st' = self st
    /\ polls st' = polls st + List.length rounds + 1
    /\ fetches st' = fetches st + List.length rounds
    /\ log_records (trace st')
       = log_records (trace st) ++ map message_of (List.concat (map snd rounds))
    /\ filter cleanup (trace st') = filter cleanup (trace st).
Proof.
  intros Hsvc Hlive Hdone Hlogs Hover Hnodup Hpars Hfuel.
  destruct (stream_loop_run w svc rounds [] fuel st CursorZero
              Hsvc Hlive Hdone Hlogs Hover Hnodup Hpars Hfuel)
    as (st' & Hrun & Hself & Hpolls & Hfetches & Hrec).
  assert (Hout : _stream_logs_to_output w fuel st = (Ret tt, st')).
  { unfold _stream_logs_to_output.
    rewrite (bind_run get_self _ st st (self st) eq_refl).
    rewrite Hsvc. cbn [truthy_service negb]. exact Hrun. }
  exists st'. repeat (split; [assumption|]).
  destruct (adds_stream_logs_to_output (fun _ => True) cleanup w
              (fun _ => eq_refl) (fun _ _ _ => eq_refl) (fun _ => eq_refl)
              (fun _ => eq_refl) fuel st I) as (_ & es & Ht & Hn).
  rewrite Hout in Ht. cbn [snd] in Ht.
  rewrite Ht, filter_app, (filter_none _ _ Hn). apply app_nil_r.
Qed.



(** ** Executions with log streaming *)

Lemma bind_assoc {A B C : Type} (m : M A) (g : A -> M B) (f : B -> M C) (st : state) :
  bind (bind m g) f st = bind m (fun a => bind (g a) f) st.
Proof. unfold bind. destruct (m st) as [[a|e|] st1]; reflexivity. Qed.

Lemma cleanup_passive (es : list event) :
  Forall (fun e => passive e = true) es -> filter cleanup es = [].
Proof.
  induction 1 as [|e es He Hes IH]; [reflexivity|].
  cbn [filter]. rewrite IH. now destruct e.
Qed.

Lemma polled_fetches (sid : string) (k : nat) :
  forall st, fetches (polled sid k st) = fetches st.
Proof. induction k as [|k IH]; intros st; cbn [polled]; [reflexivity | now rewrite IH]. Qed.

Ltac flatten_apps :=
  repeat (progress (rewrite <- ?app_assoc, ?app_nil_r; cbn [app])).

Section LoggedOutcome.

Variable w : World.
Variable st : state.
Variable svc : ServiceHandle.
Variables command' args' : args_t.
Variables first done : nat.
Variable final : string.
Variable fuel : nat.
Variable rounds : list (list string * list string).

Hypothesis logging : enable_logging (self st) = true.
Hypothesis command_ok : format_command w (command (base (self st))) = inr command'.
Hypothesis args_ok : format_args (args (self st)) = inr args'.
Hypothesis created :
  create_service_resp w (service_spec w (self st) command' args') = Some svc.
Hypothesis observed : history w (polls st) first done final.
Hypothesis terminal : In final terminal_states.
Hypothesis in_step : List.length rounds = done - first - 1.
Hypothesis fetched :
  forall i old new, nth_error rounds i = Some (old, new) ->
                    logs_resp w (fetches st + i) = old ++ new.
Hypothesis overlap : overlapping [] rounds.
Hypothesis distinct : NoDup (List.concat (map snd rounds)).
Hypothesis readable : Forall parsable (List.concat (map snd rounds)).
Hypothesis enough : done < polls st + fuel.

(** The run up to the end of the polling loops and of the streaming: the
    service exists, the polls up to [done] and three more are consumed, the
    new lines of every fetch are logged, nothing is inspected or removed. *)
Ltac through_the_stream :=
  destruct observed as [Horder Hnone Hsome Hlive Hdone];
  unfold _run_service;
  rewrite (bind_run get_self _ st st (self st) eq_refl);
  (erewrite (bind_run (log_info _)); [|reflexivity]);
  rewrite command_ok; (erewrite (bind_run (lift _)); [|reflexivity]);
  rewrite args_ok; (erewrite (bind_run (lift _)); [|reflexivity]);
  (erewrite (bind_run (cli_create_service _ _)); [|reflexivity]);
  rewrite created;
  (erewrite (bind_run (modify_self _)); [|reflexivity]);
  (erewrite (bind_run (log_info _)); [|reflexivity]);
  match goal with |- context [bind (wait_for_tasks w fuel) _ ?s] => set (st3 := s);
  assert (Hself3 : self st3 = set_service (self st) (Some svc)) by reflexivity;
  assert (Hpolls3 : polls st3 = polls st) by reflexivity;
  assert (Hfetch3 : fetches st3 = fetches st) by reflexivity;
  assert (Hrec3 : log_records (trace st3)
                  = log_records (trace st)
                    ++ [("Starting docker service from image " ++ image (base (self st)))%string;
                        ("Service started: " ++ repr_service svc)%string])
    by (unfold st3; cbn [trace add_event update_self]; rewrite !log_records_app;
        cbn [log_records flat_map app]; rewrite <- !app_assoc; reflexivity);
  assert (Hclean3 : filter cleanup (trace st3) = filter cleanup (trace st))
    by (unfold st3; cbn [trace add_event update_self]; rewrite !filter_app; cbn;
        now rewrite !app_nil_r);
  clearbody st3;
  rewrite (bind_run _ _ _ _ _ (wait_for_tasks_run w svc first Hsome fuel st3
             ltac:(now rewrite Hself3)
             ltac:(intros m Hm; apply Hnone; lia) ltac:(lia) ltac:(lia)));
  rewrite logging; cbv iota;
  set (st4 := polled (ID svc) (S first - polls st3) st3);
  assert (Hself4 : self st4 = set_service (self st) (Some svc))
    by (unfold st4; now rewrite polled_self);
  assert (Hpolls4 : polls st4 = S first) by (unfold st4; rewrite polled_polls; lia);
  assert (Hfetch4 : fetches st4 = fetches st)
    by (unfold st4; now rewrite polled_fetches);
  assert (Hrec4 : log_records (trace st4) = log_records (trace st3))
    by (unfold st4; apply log_records_polled);
  assert (Hclean4 : filter cleanup (trace st4) = filter cleanup (trace st3))
    by (unfold st4; apply cleanup_polled);
  clearbody st4;
  destruct (stream_logs_run w fuel st4 svc rounds) as
    (st5 & Hrun5 & Hself5 & Hpolls5 & Hfetch5 & Hrec5 & Hclean5);
    [ now rewrite Hself4
    | intros i Hi; rewrite Hpolls4; apply Hlive; lia
    | rewrite Hpolls4;
      destruct (Hdone (S first + List.length rounds)) as (t & ts & Ht & Hs); [lia|];
      exists t, ts; split; [exact Ht|]; rewrite Hs; now apply contains_In
    | intros i old new Hnth; rewrite Hfetch4; now apply fetched
    | exact overlap | exact distinct | exact readable | lia |];
  rewrite (bind_run _ _ _ _ _ Hrun5);
  rewrite (bind_run _ _ _ _ _
             (wait_for_termination_run w svc (polls st5) final terminal
                ltac:(intros m Hm; apply Hdone; lia) fuel st5
                ltac:(now rewrite Hself5, Hself4)
                ltac:(intros m Hm; lia) ltac:(lia) ltac:(lia)));
  replace (S (S (polls st5)) - polls st5) with 2 by lia;
  match goal with |- context [bind get_self _ ?s] => set (st6 := s);
  assert (Hself6 : self st6 = set_service (self st) (Some svc))
    by (unfold st6; cbn [self add_event]; now rewrite polled_self, Hself5, Hself4);
  assert (Hpolls6 : polls st6 = done + 3)
    by (unfold st6; cbn [polls add_event]; rewrite polled_polls; lia);
  assert (Hrec6 : log_records (trace st6)
                  = log_records (trace st)
                    ++ [("Starting docker service from image " ++ image (base (self st)))%string;
                        ("Service started: " ++ repr_service svc)%string]
                    ++ map message_of (List.concat (map snd rounds))
                    ++ [("Service status before exiting: " ++ final)%string])
    by (unfold st6; rewrite log_records_add_event, log_records_polled, Hrec5, Hrec4, Hrec3;
        cbn [log_records flat_map app]; now rewrite <- !app_assoc);
  assert (Hclean6 : filter cleanup (trace st6) = filter cleanup (trace st))
    by (unfold st6; rewrite cleanup_add_event, cleanup_polled, Hclean5, Hclean4, Hclean3;
        cbn; apply app_nil_r);
  clearbody st6;
  clear st3 Hself3 Hpolls3 Hfetch3 Hrec3 Hclean3 st4 Hself4 Hpolls4 Hfetch4 Hrec4 Hclean4
        st5 Hrun5 Hself5 Hpolls5 Hfetch5 Hrec5 Hclean5;
  rewrite (bind_run get_self _ st6 st6 (self st6) eq_refl);
  rewrite Hself6; cbn [service set_service truthy_service base]; cbv iota;
  rewrite bind_assoc
  end end.



End LoggedOutcome.



(** ** Services that lose their tasks, or never show one *)

Lemma bind_spin {A B : Type} (m : M A) (f : A -> M B) (st st' : state) :
  m st = (Spin, st') -> bind m f st = (Spin, st').
Proof. intros H. unfold bind. now rewrite H. Qed.

Lemma wait_for_tasks_empty (w : World) (svc : ServiceHandle) (fuel : nat) :
  forall st,
    service (self st) = Some svc ->
    (forall n, polls st <= n -> tasks_resp w n = []) ->
    wait_for_tasks w fuel st = (Spin, polled (ID svc) fuel st).
Proof.
  induction fuel as [|fuel IH]; intros st Hsvc Hnone; [reflexivity|].
  cbn [wait_for_tasks polled]. unfold service_id, cli_tasks. mred. rewrite Hsvc. mred.
  rewrite (Hnone (polls st)) by lia.
  apply IH; [exact Hsvc|]. intros n Hn. apply Hnone. cbn in Hn. lia.
Qed.

(** X20: no timeout on the first task.  If the task list of the created
    service stays empty, [_run_service] never gets past its first loop:
    whatever the number of polls allowed, it is still polling, and all it
    has done after the creation is list the tasks, without pause. *)
Theorem run_service_waits_for_first_task
        (w : World) (fuel : nat) (st : state) (c a : args_t) (svc : ServiceHandle) :
  format_command w (command (base (self st))) = inr c ->
  format_args (args (self st)) = inr a ->
  create_service_resp w (service_spec w (self st) c a) = Some svc ->
  (forall n, polls st <= n -> tasks_resp w n = []) ->
  fst (_run_service w fuel st) = Spin
  /\ trace (snd (_run_service w fuel st))
     = trace st
       ++ [LogInfo ("Starting docker service from image " ++ image (base (self st)));
           CreateService (service_spec w (self st) c a);
           LogInfo ("Service started: " ++ repr_service svc)]
       ++ repeat (ListTasks (ID svc)) fuel.
Proof.
  intros Hc Ha Hcreate Hnone. unfold _run_service.
  rewrite (bind_run get_self _ st st (self st) eq_refl).
  erewrite (bind_run (log_info _)); [|reflexivity].
  rewrite Hc. erewrite (bind_run (lift _)); [|reflexivity].
  rewrite Ha. erewrite (bind_run (lift _)); [|reflexivity].
  erewrite (bind_run (cli_create_service _ _)); [|reflexivity].
  rewrite Hcreate.
  erewrite (bind_run (modify_self _)); [|reflexivity].
  erewrite (bind_run (log_info _)); [|reflexivity].
  match goal with |- context [bind (wait_for_tasks w fuel) _ ?s] => set (st3 := s) end.
  rewrite (bind_spin _ _ _ _ (wait_for_tasks_empty w svc fuel st3 eq_refl Hnone)).
  cbn [fst snd]. split; [reflexivity|].
  rewrite polled_trace. unfold st3. cbn [trace add_event update_self].
  now rewrite <- !app_assoc.
Qed.

Lemma run_service_waits_for_first_task_witness :
  fst (_run_service (Example.deployment (fun _ => []) Example.batches Example.archive) 7
         (Scenario.constructed "force" false true)) = Spin
  /\ trace (snd (_run_service
                   (Example.deployment (fun _ => []) Example.batches Example.archive) 7
                   (Scenario.constructed "force" false true)))
     = trace (Scenario.constructed "force" false true)
       ++ [LogInfo ("Starting docker service from image "
                    ++ image (base (self (Scenario.constructed "force" false true))));
           CreateService
             (service_spec (Example.deployment (fun _ => []) Example.batches Example.archive)
                (self (Scenario.constructed "force" false true))
                ArgsNone (ArgsList ["--flag"; "value"]));
           LogInfo ("Service started: " ++ repr_service {| ID := "svc1" |})]
       ++ repeat (ListTasks (ID {| ID := "svc1" |})) 7.
Proof.
  apply (run_service_waits_for_first_task
           (Example.deployment (fun _ => []) Example.batches Example.archive) 7
           (Scenario.constructed "force" false true)); reflexivity.
Defined.

(** X21: a service whose task list is empty again after its first task was
    seen makes the run fail with an IndexError at the next status check,
    with or without log streaming, and the service is not removed. *)
Theorem run_service_tasks_vanish
        (w : World) (fuel : nat) (st : state) (c a : args_t) (svc : ServiceHandle)
        (t : TaskRecord) (ts : list TaskRecord) :
  format_command w (command (base (self st))) = inr c ->
  format_args (args (self st)) = inr a ->
  create_service_resp w (service_spec w (self st) c a) = Some svc ->
  tasks_resp w (polls st) = t :: ts ->
  tasks_resp w (S (polls st)) = [] ->
  fst (_run_service w (S fuel) st) = Raise IndexError
  /\ trace (snd (_run_service w (S fuel) st))
     = trace st
       ++ [LogInfo ("Starting docker service from image " ++ image (base (self st)));
           CreateService (service_spec w (self st) c a);
           LogInfo ("Service started: " ++ repr_service svc);
           ListTasks (ID svc);
           ListTasks (ID svc)].
Proof.
  intros Hc Ha Hcreate Hfirst Hgone. unfold _run_service.
  rewrite (bind_run get_self _ st st (self st) eq_refl).
  erewrite (bind_run (log_info _)); [|reflexivity].
  rewrite Hc. erewrite (bind_run (lift _)); [|reflexivity].
  rewrite Ha. erewrite (bind_run (lift _)); [|reflexivity].
  erewrite (bind_run (cli_create_service _ _)); [|reflexivity].
  rewrite Hcreate.
  erewrite (bind_run (modify_self _)); [|reflexivity].
  erewrite (bind_run (log_info _)); [|reflexivity].
  match goal with |- context [bind (wait_for_tasks w _) _ ?s] => set (st3 := s) end.
  assert (Hwait : wait_for_tasks w (S fuel) st3
                  = (Ret tt, next_poll (add_event (ListTasks (ID svc)) st3))).
  { rewrite (wait_for_tasks_run w svc (polls st) ltac:(now rewrite Hfirst) (S fuel) st3
               eq_refl ltac:(intros m Hm; change (polls st3) with (polls st) in Hm; lia)
               (le_n _) ltac:(change (polls st3) with (polls st); lia)).
    change (polls st3) with (polls st). now rewrite Nat.sub_succ_l, Nat.sub_diag. }
  rewrite (bind_run _ _ _ _ _ Hwait).
  set (st4 := next_poll (add_event (ListTasks (ID svc)) st3)).
  assert (Hcheck : _has_service_terminated w st4
                   = (Raise IndexError, next_poll (add_event (ListTasks (ID svc)) st4))).
  { rewrite (has_service_terminated_run w st4 svc eq_refl).
    change (polls st4) with (S (polls st)). now rewrite Hgone. }
  assert (Htrace : trace (next_poll (add_event (ListTasks (ID svc)) st4))
                   = trace st
                     ++ [LogInfo ("Starting docker service from image "
                                  ++ image (base (self st)));
                         CreateService (service_spec w (self st) c a);
                         LogInfo ("Service started: " ++ repr_service svc);
                         ListTasks (ID svc);
                         ListTasks (ID svc)]).
  { unfold st4, st3. cbn [trace next_poll add_event update_self].
    now rewrite <- !app_assoc. }
  destruct (enable_logging (self st)).
  - assert (Hstream : _stream_logs_to_output w (S fuel) st4
                      = (Raise IndexError, next_poll (add_event (ListTasks (ID svc)) st4))).
    { unfold _stream_logs_to_output.
      rewrite (bind_run get_self _ st4 st4 (self st4) eq_refl).
      cbn [stream_loop]. exact (bind_raise _ _ _ _ _ Hcheck). }
    rewrite (bind_raise _ _ _ _ _ Hstream). cbn [fst snd].
    split; [reflexivity | exact Htrace].
  - erewrite (bind_run (ret tt)); [|reflexivity].
    assert (Hterm : wait_for_termination w (S fuel) st4
                    = (Raise IndexError, next_poll (add_event (ListTasks (ID svc)) st4))).
    { cbn [wait_for_termination]. exact (bind_raise _ _ _ _ _ Hcheck). }
    rewrite (bind_raise _ _ _ _ _ Hterm). cbn [fst snd].
    split; [reflexivity | exact Htrace].
Qed.

Lemma run_service_tasks_vanish_witness :
  fst (_run_service Scenario.vanishing 5 (Scenario.constructed "force" false true))
  = Raise IndexError
  /\ trace (snd (_run_service Scenario.vanishing 5 (Scenario.constructed "force" false true)))
     = trace (Scenario.constructed "force" false true)
       ++ [LogInfo ("Starting docker service from image "
                    ++ image (base (self (Scenario.constructed "force" false true))));
           CreateService (service_spec Scenario.vanishing
                            (self (Scenario.constructed "force" false true))
                            ArgsNone (ArgsList ["--flag"; "value"]));
           LogInfo ("Service started: " ++ repr_service {| ID := "svc1" |});
           ListTasks (ID {| ID := "svc1" |});
           ListTasks (ID {| ID := "svc1" |})].
Proof.
  apply (run_service_tasks_vanish Scenario.vanishing 4
           (Scenario.constructed "force" false true) ArgsNone (ArgsList ["--flag"; "value"])
           {| ID := "svc1" |} Example.running []); reflexivity.
Defined.

(** X22: killing a task whose operator was constructed but never run does
    nothing: no service exists yet, so [on_kill] makes no client call and
    writes no record. *)
Theorem on_kill_before_run (kw : Kwargs) (st : state) :
  snd ((__init__ kw;; on_kill) st) = snd (__init__ kw st).
Proof.
  unfold __init__, on_kill. mred. cbn [self update_self logging_driver].
  destruct (kw_logging_driver kw) as [d|].
  - destruct (Py.truthy_str d).
    + destruct (Py.contains d supported_logging_drivers); cbn;
        try reflexivity; now destruct (client_created (kw_base kw)).
    + cbn. now destruct (client_created (kw_base kw)).
  - cbn. now destruct (client_created (kw_base kw)).
Qed.

(** ** Stamps of any precision *)

Lemma all_chars_append (p : ascii -> bool) (a b : string) :
  all_chars p (a ++ b) = all_chars p a && all_chars p b.
Proof.
  induction a as [|c a IH]; cbn [String.append all_chars]; [reflexivity|].
  now rewrite IH, andb_assoc.
Qed.

(** A repetition with equal bounds takes its characters and goes on; there
    is nothing to give back. *)
Lemma rep_exact (R : Type) (p : ascii -> bool) (ds : string) :
  all_chars p ds = true ->
  forall (rest : string) (k : string -> option R),
    Re.rep_greedy p (String.length ds) (Some (String.length ds)) (ds ++ rest) k = k rest.
Proof.
  induction ds as [|c ds IH]; intros Hall rest k.
  - destruct rest; reflexivity.
  - cbn [all_chars] in Hall. apply andb_prop in Hall as [Hc Hds].
    cbn [String.length String.append Re.rep_greedy Re.dec_hi pred]. rewrite Hc.
    rewrite IH by assumption. now destruct (k rest).
Qed.

(** A repetition that finds fewer characters than it must take fails. *)
Lemma rep_short (R : Type) (p : ascii -> bool) (ds : string) :
  all_chars p ds = true ->
  forall (lo : nat) (rest : string) (k : string -> option R),
    String.length ds < lo ->
    stops p rest ->
    Re.rep_greedy p lo None (ds ++ rest) k = None.
Proof.
  induction ds as [|c ds IH]; intros Hall lo rest k Hlen Hstop.
  - destruct lo as [|lo]; [cbn in Hlen; lia|].
    destruct rest as [|c rest]; [reflexivity|].
    cbn in Hstop. cbn [String.append Re.rep_greedy]. now rewrite Hstop.
  - cbn [all_chars] in Hall. apply andb_prop in Hall as [Hc Hds].
    destruct lo as [|lo]; [cbn in Hlen; lia|].
    cbn [String.append Re.rep_greedy Re.dec_hi pred]. rewrite Hc.
    rewrite IH; [reflexivity | assumption | cbn in Hlen; lia | assumption].
Qed.

Lemma mtch_digits (R : Type) (w : nat) (n : Z) (rest : string) (caps : list string)
      (k : string -> list string -> option R) :
  Re.mtch (Re.digits w) (Stamp.pad w n ++ rest) caps k = k rest caps.
Proof.
  unfold Re.digits. cbn [Re.mtch].
  pose proof (rep_exact R Py.is_digit (Stamp.pad w n) (all_chars_pad w n) rest
                (fun s' => k s' caps)) as H.
  rewrite length_pad in H. exact H.
Qed.

Lemma mtch_seq_digits (R : Type) (w : nat) (n : Z) (r : Re.regex) (rest : string)
      (caps : list string) (k : string -> list string -> option R) :
  Re.mtch (Re.Seq (Re.digits w) r) (Stamp.pad w n ++ rest) caps k = Re.mtch r rest caps k.
Proof.
  change (Re.mtch (Re.Seq (Re.digits w) r) (Stamp.pad w n ++ rest) caps k)
    with (Re.mtch (Re.digits w) (Stamp.pad w n ++ rest) caps
            (fun s' caps' => Re.mtch r s' caps' k)).
  now rewrite mtch_digits.
Qed.

Lemma mtch_seq_lit (R : Type) (c : ascii) (r : Re.regex) (rest : string)
      (caps : list string) (k : string -> list string -> option R) :
  Re.mtch (Re.Seq (Re.Lit c) r) (String c "" ++ rest) caps k = Re.mtch r rest caps k.
Proof. cbn [Re.mtch String.append]. now rewrite Ascii.eqb_refl. Qed.

Lemma mtch_seq_cls (R : Type) (p : ascii -> bool) (c : ascii) (r : Re.regex)
      (rest : string) (caps : list string) (k : string -> list string -> option R) :
  p c = true ->
  Re.mtch (Re.Seq (Re.Cls p) r) (String c "" ++ rest) caps k = Re.mtch r rest caps k.
Proof. intros Hc. cbn [Re.mtch String.append]. now rewrite Hc. Qed.

(** The line pattern asks for six digits after the seconds. *)
Lemma short_fraction_no_match (fraction : string) (s : Stamp.stamp) (body : string) :
  all_chars Py.is_digit fraction = true ->
  String.length fraction < 6 ->
  Re.re_match LOG_LINE (Stamp.text fraction s ++ " " ++ body) = None.
Proof.
  intros Hall Hlen. unfold Re.re_match, LOG_LINE, Stamp.text.
  rewrite !append_assoc. cbn [Re.seq].
  match goal with
  | |- Re.mtch (Re.Seq (Re.Grp ?r) ?r2) ?s ?caps ?k = None =>
      change (Re.mtch r s caps
                (fun s1 caps1 =>
                   Re.mtch r2 s1 (caps1 ++ [Re.consumed s s1]) k) = None)
  end.
  rewrite mtch_seq_digits, mtch_seq_lit, mtch_seq_digits, mtch_seq_lit, mtch_seq_digits,
    mtch_seq_lit, mtch_seq_digits, mtch_seq_lit, mtch_seq_digits, mtch_seq_lit,
    mtch_seq_digits.
  rewrite mtch_seq_cls by reflexivity.
  unfold Re.digits_from.
  match goal with
  | |- Re.mtch (Re.Seq (Re.Rep ?p ?lo ?hi) ?r2) ?s ?caps ?k = None =>
      change (Re.rep_greedy p lo hi s (fun s' => Re.mtch r2 s' caps k) = None)
  end.
  apply rep_short; [exact Hall | exact Hlen | reflexivity].
Qed.

(** X23: which stamped lines the loop over a batch can read.  A line made
    of a stamp with fixed-width fields and a fraction of digits, a space and
    a body is matched by the line pattern exactly when the fraction has at
    least six digits; the time read off it is then the stamp, and the
    message logged is the body up to its first line feed. *)
Theorem stamped_line_is_read (fraction : string) (s : Stamp.stamp) (body : string) :
  all_chars Py.is_digit fraction = true ->
  (well_formed (Stamp.text fraction s ++ " " ++ body) <-> 6 <= String.length fraction)
  /\ (6 <= String.length fraction ->
      timestamp_of (Stamp.text fraction s ++ " " ++ body) = Stamp.text fraction s
      /\ message_of (Stamp.text fraction s ++ " " ++ body) = first_line body).
Proof.
  intros Hall. split; [split|].
  - intros Hwf. destruct (Nat.le_gt_cases 6 (String.length fraction)) as [Hle|Hlt];
      [exact Hle|].
    exfalso. apply Hwf. now apply short_fraction_no_match.
  - intros Hlen. unfold well_formed.
    now rewrite (match_log_line fraction s body Hall Hlen).
  - intros Hlen. unfold timestamp_of, message_of.
    rewrite (match_log_line fraction s body Hall Hlen). split; reflexivity.
Qed.

Lemma stamped_line_is_read_witness :
  (well_formed (Stamp.text "123456789" new_year_stamp ++ " " ++ "hello" ++ Example.line_feed)
   <-> 6 <= String.length "123456789")
  /\ (6 <= String.length "123456789" ->
      timestamp_of (Stamp.text "123456789" new_year_stamp ++ " "
                    ++ "hello" ++ Example.line_feed)
      = Stamp.text "123456789" new_year_stamp
      /\ message_of (Stamp.text "123456789" new_year_stamp ++ " "
                     ++ "hello" ++ Example.line_feed)
         = first_line ("hello" ++ Example.line_feed)).
Proof.
  apply (stamped_line_is_read "123456789" new_year_stamp ("hello" ++ Example.line_feed)).
  reflexivity.
Defined.

Lemma match_submicrosecond_longer (u : Z) (extra : string) :
  all_chars Py.is_digit extra = true ->
  1 <= String.length extra ->
  Re.re_match SUBMICROSECOND ("." ++ (Stamp.pad 6 u ++ extra) ++ "Z")
  = Some (["." ++ Stamp.pad 6 u], "")%string.
Proof.
  intros Hall Hlen.
  assert (H : takes SUBMICROSECOND
                    (("." ++ Stamp.pad 6 u) ++ extra ++ "Z")
                    ["." ++ Stamp.pad 6 u]%string anything).
  { unfold SUBMICROSECOND. cbn [Re.seq].
    eapply takes_seq1.
    - apply takes_group. eapply takes_seq0; [apply takes_lit | apply takes_digits | auto].
    - eapply takes_seq0.
      + apply takes_greedy; [exact Hall | exact Hlen | exact I].
      + apply takes_lit.
      + intros rest _. reflexivity.
    - intros; exact I. }
  pose proof (takes_match _ _ "" _ _ H I) as Hm.
  rewrite append_empty_r, !append_assoc in Hm. rewrite !append_assoc. exact Hm.
Qed.

Lemma match_submicrosecond_exact (u : Z) :
  Re.re_match SUBMICROSECOND (String "." (Stamp.pad 6 u ++ "Z")) = None.
Proof.
  change (String "." (Stamp.pad 6 u ++ "Z")) with ("." ++ Stamp.pad 6 u ++ "Z")%string.
  unfold Re.re_match, SUBMICROSECOND. cbn [Re.seq].
  match goal with
  | |- Re.mtch (Re.Seq (Re.Grp ?r) ?r2) ?s ?caps ?k = None =>
      change (Re.mtch r s caps
                (fun s1 caps1 =>
                   Re.mtch r2 s1 (caps1 ++ [Re.consumed s s1]) k) = None)
  end.
  rewrite mtch_seq_lit.
  match goal with
  | |- Re.mtch (Re.digits 6) ?s ?caps ?k = None =>
      rewrite (mtch_digits _ 6 u "Z" caps k)
  end.
  reflexivity.
Qed.

(** Six digits stay, whatever follows them. *)
Lemma floor_any (s : Stamp.stamp) (extra : string) :
  all_chars Py.is_digit extra = true ->
  Re.re_sub SUBMICROSECOND keep_microseconds
            (Stamp.text (Stamp.pad 6 (Stamp.s_nanosecond s / 1000) ++ extra) s)
  = Stamp.micros s.
Proof.
  intros Hall. unfold Re.re_sub, Stamp.micros, Stamp.text.
  repeat (rewrite sub_from_prefix by (first [apply no_dot_pad | reflexivity])).
  cbn [String.append].
  destruct extra as [|c extra].
  - rewrite append_empty_r. cbn [Re.sub_from].
    rewrite (match_submicrosecond_exact (Stamp.s_nanosecond s / 1000)).
    rewrite sub_from_prefix by apply no_dot_pad. reflexivity.
  - rewrite (sub_from_whole SUBMICROSECOND keep_microseconds "."
               ((Stamp.pad 6 (Stamp.s_nanosecond s / 1000) ++ String c extra) ++ "Z")
               ["." ++ Stamp.pad 6 (Stamp.s_nanosecond s / 1000)]%string
               (match_submicrosecond_longer _ (String c extra) Hall
                  ltac:(cbn; lia)) eq_refl).
    reflexivity.
Qed.



(** ** Completed services: retrieval, and policies that keep the service *)

Lemma harvest_containers (w : World) (ts : list TaskRecord) :
  forall (cids : list string) (st : state),
    container_ids ts = map Some cids ->
    containers (self (snd (harvest w ts st)))
    = containers (self st) ++ map (inspect_resp w) cids.
Proof.
  induction ts as [|t ts IH]; intros cids st Hids.
  - destruct cids; [|discriminate]. cbn. now rewrite app_nil_r.
  - destruct cids as [|cid cids]; [discriminate|].
    cbn [container_ids map] in Hids. injection Hids as Hcid Hrest.
    cbn [harvest]. rewrite Hcid. unfold cli_inspect_container. mred.
    rewrite (IH cids _ Hrest). cbn. now rewrite <- app_assoc.
Qed.

Lemma copies_of_polled (sid : string) (k : nat) (st : state) :
  filter is_copy (trace (polled sid k st)) = filter is_copy (trace st).
Proof.
  rewrite polled_trace, filter_app.
  replace (filter is_copy (repeat (ListTasks sid) k)) with (@nil event).
  - apply app_nil_r.
  - induction k as [|k IH]; [reflexivity | exact IH].
Qed.

Lemma cleanup_copies (path : string) (cs : list ContainerRecord) :
  filter cleanup (map (copy_event path) cs) = [].
Proof. induction cs as [|c cs IH]; [reflexivity | exact IH]. Qed.

Lemma copies_of_copies (path : string) (cs : list ContainerRecord) :
  filter is_copy (map (copy_event path) cs) = map (copy_event path) cs.
Proof. induction cs as [|c cs IH]; cbn; [reflexivity | now rewrite IH]. Qed.

Lemma copies_of_inspections (cids : list string) :
  filter is_copy (map InspectContainer cids) = [].
Proof. induction cids as [|c cids IH]; [reflexivity | exact IH]. Qed.

Section Completed.

Variable w : World.
Variable st : state.
Variable svc : ServiceHandle.
Variables command' args' : args_t.
Variables first done : nat.
Variable fuel : nat.
Variable cids : list string.

Hypothesis no_logging : enable_logging (self st) = false.
Hypothesis command_ok : format_command w (command (base (self st))) = inr command'.
Hypothesis args_ok : format_args (args (self st)) = inr args'.
Hypothesis created :
  create_service_resp w (service_spec w (self st) command' args') = Some svc.
Hypothesis observed : history w (polls st) first done "complete".
Hypothesis enough : done < polls st + fuel.
Hypothesis placed : container_ids (tasks_resp w (S (S (S done)))) = map Some cids.

(** The run up to the end of the harvest: the polls up to [done] and three
    more are consumed, the container of every task has been inspected and
    appended, nothing is copied or removed. *)
Ltac through_the_harvest :=
  destruct observed as [Horder Hnone Hsome Hlive Hdone];
  unfold _run_service;
  rewrite (bind_run get_self _ st st (self st) eq_refl);
  (erewrite (bind_run (log_info _)); [|reflexivity]);
  rewrite command_ok; (erewrite (bind_run (lift _)); [|reflexivity]);
  rewrite args_ok; (erewrite (bind_run (lift _)); [|reflexivity]);
  (erewrite (bind_run (cli_create_service _ _)); [|reflexivity]);
  rewrite created;
  (erewrite (bind_run (modify_self _)); [|reflexivity]);
  (erewrite (bind_run (log_info _)); [|reflexivity]);
  match goal with |- context [bind (wait_for_tasks w fuel) _ ?s] => set (st3 := s);
  assert (Hself3 : self st3 = set_service (self st) (Some svc)) by reflexivity;
  assert (Hpolls3 : polls st3 = polls st) by reflexivity;
  assert (Hclean3 : filter cleanup (trace st3) = filter cleanup (trace st))
    by (unfold st3; cbn [trace add_event update_self]; rewrite !filter_app; cbn;
        now rewrite !app_nil_r);
  assert (Hcopy3 : filter is_copy (trace st3) = filter is_copy (trace st))
    by (unfold st3; cbn [trace add_event update_self]; rewrite !filter_app; cbn;
        now rewrite !app_nil_r);
  clearbody st3;
  rewrite (bind_run _ _ _ _ _ (wait_for_tasks_run w svc first Hsome fuel st3
             ltac:(now rewrite Hself3)
             ltac:(intros m Hm; apply Hnone; lia) ltac:(lia) ltac:(lia)));
  rewrite no_logging; cbv iota;
  (erewrite (bind_run (ret tt)); [|reflexivity]);
  rewrite (bind_run _ _ _ _ _
             (wait_for_termination_run w svc done "complete"
                ltac:(cbn; tauto) Hdone fuel (polled (ID svc) (S first - polls st3) st3)
                ltac:(now rewrite polled_self, Hself3)
                ltac:(intros m Hm; rewrite polled_polls in Hm; apply Hlive; lia)
                ltac:(rewrite polled_polls; lia) ltac:(rewrite polled_polls; lia)));
  match goal with |- context [bind get_self _ ?s] => set (st6 := s);
  assert (Hself6 : self st6 = set_service (self st) (Some svc))
    by (unfold st6; cbn [self add_event]; now rewrite !polled_self);
  assert (Hpolls6 : polls st6 = S (S done))
    by (unfold st6; cbn [polls add_event]; rewrite !polled_polls; lia);
  assert (Hclean6 : filter cleanup (trace st6) = filter cleanup (trace st))
    by (unfold st6; rewrite cleanup_add_event, !cleanup_polled, Hclean3;
        cbn; apply app_nil_r);
  assert (Hcopy6 : filter is_copy (trace st6) = filter is_copy (trace st))
    by (unfold st6; cbn [trace add_event]; rewrite filter_app, !copies_of_polled, Hcopy3;
        cbn; apply app_nil_r);
  clearbody st6; clear st3 Hself3 Hpolls3 Hclean3 Hcopy3;
  rewrite (bind_run get_self _ st6 st6 (self st6) eq_refl);
  rewrite Hself6; cbn [service set_service truthy_service base]; cbv iota;
  rewrite bind_assoc;
  destruct (Hdone (polls st6)) as (t6 & ts6 & Ht6 & Hs6); [lia|];
  assert (Hst6 : _service_status w st6
                 = (Ret "complete", next_poll (add_event (ListTasks (ID svc)) st6)))
    by (rewrite (service_status_run w st6 svc) by (now rewrite Hself6);
        now rewrite Ht6, Hs6);
  rewrite (bind_run _ _ _ _ _ Hst6);
  cbn [String.eqb Ascii.eqb Bool.eqb]; cbv iota;
  rewrite !bind_assoc;
  match goal with |- context [bind service_id _ ?s7] =>
    assert (Hid7 : service_id s7 = (Ret (ID svc), s7))
      by (unfold service_id, bind, get_self; change (self s7) with (self st6);
          now rewrite Hself6);
    rewrite (bind_run _ _ _ _ _ Hid7); rewrite !bind_assoc;
    (erewrite (bind_run (cli_tasks w _)); [|reflexivity]);
    rewrite !bind_assoc;
    (erewrite (bind_run (modify_self _)); [|reflexivity]);
    replace (polls s7) with (S (S (S done))) by (cbn; lia)
  end;
  match goal with
  | |- context [bind (harvest w _) _ ?s] =>
      destruct (harvest_run w (tasks_resp w (S (S (S done)))) cids s placed)
        as (st8 & Hrun8 & Hsvc8 & Hbase8 & Hpolls8 & Htrace8);
      pose proof (harvest_containers w (tasks_resp w (S (S (S done)))) cids s placed)
        as Hcs8;
      rewrite Hrun8 in Hcs8; cbn [snd] in Hcs8;
  rewrite (bind_run _ _ _ _ _ Hrun8);
  cbn [self polls trace update_self next_poll add_event service base set_tasks containers]
    in Hsvc8, Hbase8, Hpolls8, Htrace8, Hcs8;
  rewrite Hself6 in Hsvc8, Hbase8, Hcs8;
  cbn [service base containers set_service] in Hsvc8, Hbase8, Hcs8;
  rewrite (bind_run get_self _ st8 st8 (self st8) eq_refl);
  rewrite Hbase8
  end end end.

(** X25: retrieval after a completed run.  With [retrieve_output] set and
    log streaming off, a service that ends in "complete" has the container
    of every task inspected, the output path copied out of each of them in
    task order, and the run returns the content copied from the only
    container, or the list of contents when there is not exactly one; the
    service is not removed. *)
Theorem run_service_retrieves (vs : list pyobj) :
  retrieve_output (base (self st)) = true ->
  containers (self st) = [] ->
  Forall2 (fun cid v =>
             copy_resp w (Id (inspect_resp w cid)) (retrieve_output_path (base (self st)))
             = inr v) cids vs ->
  fst (_run_service w fuel st)
  = Ret (match vs with [only] => only | _ => PyList vs end)
  /\ filter cleanup (trace (snd (_run_service w fuel st)))
     = filter cleanup (trace st) ++ map InspectContainer cids
  /\ filter is_copy (trace (snd (_run_service w fuel st)))
     = filter is_copy (trace st)
       ++ map (fun cid => CopyFromDocker (Id (inspect_resp w cid))
                                         (retrieve_output_path (base (self st)))) cids.
Proof.
  intros Hretrieve Hfresh Hcopies.
  through_the_harvest.
  rewrite Hretrieve. cbv iota.
  assert (Hall : Forall2 (fun c v =>
                            copy_resp w (Id c) (retrieve_output_path (base (self st8)))
                            = inr v)
                         (containers (self st8)) vs).
  { rewrite Hcs8, Hfresh, Hbase8. cbn [app].
    clear - Hcopies. induction Hcopies; constructor; assumption. }
  unfold _attempt_to_retrieve_results, except_APIError.
  rewrite (bind_run get_self _ st8 st8 (self st8) eq_refl).
  rewrite (bind_run _ _ _ _ _ (copy_each_ok w _ vs [] st8 Hall)).
  cbn [app]. rewrite Hcs8, Hfresh, Hbase8. cbn [app].
  assert (Hout : forall s8,
             (match vs with
              | [only] => ret only
              | _ => ret (PyList vs)
              end) s8
             = (Ret (match vs with [only] => only | _ => PyList vs end), s8)).
  { intros s8. destruct vs as [|v [|v' vs']]; reflexivity. }
  rewrite Hout. cbn [fst snd trace add_events]. rewrite Htrace8.
  split; [reflexivity|]. split.
  - rewrite !filter_app, Hclean6, cleanup_inspections, cleanup_copies. cbn.
    now rewrite !app_nil_r.
  - rewrite !filter_app, Hcopy6, copies_of_inspections, copies_of_copies. cbn.
    rewrite !app_nil_r. f_equal. now rewrite map_map.
Qed.

(** X26: a service that ends in "complete" under a policy other than
    "success" and "force" is kept: the run returns None after inspecting the
    container of every task, and removes nothing. *)
Theorem run_service_keeps_completed_service :
  retrieve_output (base (self st)) = false ->
  ~ In (auto_remove (base (self st))) ["success"; "force"] ->
  fst (_run_service w fuel st) = Ret PyNone
  /\ filter cleanup (trace (snd (_run_service w fuel st)))
     = filter cleanup (trace st) ++ map InspectContainer cids.
Proof.
  intros no_retrieval Hpolicy.
  through_the_harvest.
  rewrite no_retrieval. cbv iota.
  erewrite (bind_run (log_info _)); [|reflexivity].
  rewrite Hsvc8. cbn [truthy_service]. cbv iota. rewrite bind_assoc.
  match goal with |- context [bind (_service_status w) _ ?s] => set (st9 := s) end.
  destruct (Hdone (polls st9)) as (t9 & ts9 & Ht9 & Hs9); [unfold st9; cbn; lia|].
  assert (Hst9 : _service_status w st9
                 = (Ret "complete", next_poll (add_event (ListTasks (ID svc)) st9))).
  { rewrite (service_status_run w st9 svc) by exact Hsvc8. now rewrite Ht9, Hs9. }
  rewrite (bind_run _ _ _ _ _ Hst9).
  erewrite (bind_run (ret _)); [|reflexivity].
  cbn [String.eqb Ascii.eqb Bool.eqb negb]. cbv iota.
  rewrite (proj2 (contains_false _ _) Hpolicy).
  unfold ret. cbn [fst snd]. split; [reflexivity|].
  unfold st9. cbn [trace add_event next_poll]. rewrite Htrace8.
  rewrite !filter_app, Hclean6, cleanup_inspections. cbn. now rewrite !app_nil_r.
Qed.

End Completed.

Lemma run_service_retrieves_witness :
  fst (_run_service (Example.world "complete") 10 (Scenario.constructed "never" true false))
  = Ret (PyList [PyStr "c1:/out"; PyStr "c2:/out"])
  /\ filter cleanup
       (trace (snd (_run_service (Example.world "complete") 10
                      (Scenario.constructed "never" true false))))
     = [InspectContainer "c1"; InspectContainer "c2"]
  /\ filter is_copy
       (trace (snd (_run_service (Example.world "complete") 10
                      (Scenario.constructed "never" true false))))
     = [CopyFromDocker "c1" "/out"; CopyFromDocker "c2" "/out"].
Proof.
  apply (run_service_retrieves (Example.world "complete")
           (Scenario.constructed "never" true false)
           {| ID := "svc1" |} ArgsNone (ArgsList ["--flag"; "value"]) 1 3 10 ["c1"; "c2"])
    with (vs := [PyStr "c1:/out"; PyStr "c2:/out"]).
  - reflexivity.
  - reflexivity.
  - reflexivity.
  - reflexivity.
  - apply example_history.
  - cbn. lia.
  - reflexivity.
  - reflexivity.
  - reflexivity.
  - repeat constructor.
Defined.

Lemma run_service_keeps_completed_service_witness :
  fst (_run_service (Example.world "complete") 10 (Scenario.constructed "never" false false))
  = Ret PyNone
  /\ filter cleanup
       (trace (snd (_run_service (Example.world "complete") 10
                      (Scenario.constructed "never" false false))))
     = [InspectContainer "c1"; InspectContainer "c2"].
Proof.
  apply (run_service_keeps_completed_service (Example.world "complete")
           (Scenario.constructed "never" false false)
           {| ID := "svc1" |} ArgsNone (ArgsList ["--flag"; "value"]) 1 3 10 ["c1"; "c2"]).
  - reflexivity.
  - reflexivity.
  - reflexivity.
  - reflexivity.
  - apply example_history.
  - cbn. lia.
  - reflexivity.
  - reflexivity.
  - cbn. intros [H|[H|[]]]; discriminate H.
Defined.

(** ** Blanks between arguments *)

Lemma read_tokens_blanks (gap : string) (rest : string) :
  all_chars Shlex.is_whitespace gap = true ->
  Shlex.read_tokens Shlex.Blank false "" (gap ++ rest)
  = Shlex.read_tokens Shlex.Blank false "" rest.
Proof.
  induction gap as [|c gap IH]; intros Hgap; [reflexivity|].
  cbn [all_chars] in Hgap. apply andb_prop in Hgap as [Hc Hgap].
  cbn [String.append Shlex.read_tokens]. rewrite Hc. cbn [Py.truthy_str orb].
  now apply IH.
Qed.

Lemma read_tokens_spaced (items : list (string * string)) :
  well_spaced items ->
  Shlex.read_tokens Shlex.Blank false "" (spaced items) = inr (map fst items).
Proof.
  induction items as [|[word gap] rest IH]; intros Hitems; [reflexivity|].
  cbn [well_spaced] in Hitems. destruct Hitems as (Hplain & Hne & Hgap & Hlast & Hrest).
  cbn [spaced map fst].
  destruct word as [|c word]; [congruence|].
  cbn [Shlex.plain] in Hplain. apply andb_prop in Hplain as [Hc Hword].
  unfold Shlex.plain_char in Hc.
  apply negb_true_iff in Hc. apply orb_false_iff in Hc as [Hc Hesc].
  apply orb_false_iff in Hc as [Hws Hq].
  cbn [String.append Shlex.read_tokens]. rewrite Hws, Hesc, Hq.
  rewrite read_tokens_word by assumption. cbn [String.append].
  destruct gap as [|b gap].
  - rewrite (Hlast eq_refl). reflexivity.
  - cbn [all_chars] in Hgap. apply andb_prop in Hgap as [Hb Hgap].
    cbn [String.append Shlex.read_tokens]. rewrite Hb. cbn [Py.truthy_str orb].
    rewrite read_tokens_blanks by assumption.
    now rewrite IH.
Qed.

(** X27: blanks only separate.  However many spaces, tabs, carriage returns
    and line feeds stand before the first word, between two words and after
    the last one, [format_args] returns the words and nothing else. *)
Theorem format_args_ignores_blanks (lead : string) (items : list (string * string)) :
  all_chars Shlex.is_whitespace lead = true ->
  well_spaced items ->
  format_args (ArgsStr (lead ++ spaced items)) = inr (ArgsList (map fst items)).
Proof.
  intros Hlead Hitems. unfold format_args, Shlex.split.
  now rewrite read_tokens_blanks, read_tokens_spaced.
Qed.

Lemma format_args_ignores_blanks_witness :
  format_args (ArgsStr ("  " ++ spaced [("--rm", "   "); ("-it", " "); ("busybox", "  ")]))
  = inr (ArgsList (map fst [("--rm", "   "); ("-it", " "); ("busybox", "  ")])).
Proof.
  apply (format_args_ignores_blanks "  " [("--rm", "   "); ("-it", " "); ("busybox", "  ")]).
  - reflexivity.
  - cbn. repeat split; try reflexivity; discriminate.
Defined.
